(** * Panel lifecycle controller of the table preview (src/webview/index.ts)

    A shallow embedding of the [Webview] class and of the part of the
    VS Code host it talks to.  The host is the environment: its surfaces
    (webview panels), its event emitters and its notifications are kept
    in an explicit [World], every method of the class is a function on
    that world, and what the class asks of the host (to create, reveal or
    dispose a surface, to assign a title or a content, to post a message,
    to show a notification, to invoke a cleanup handle) is recorded in a
    trace; the listeners it registers are kept in the world's list of
    subscriptions.

    The source file holds two variants of the class.  The first one
    (title 'Table Preview', handshake promise in [render]) is modelled in
    full; of the second one (title 'Webview') the parts that differ live
    in [Module Variant2] and [Module Variant2Host]. *)

From Stdlib Require Import Ascii ZArith Lia.
From stdpp Require Import base option list strings.

(** ** Data *)

(** [vscode.Uri]: the location of the extension by its path (the
    component [joinPath] works on; the others are carried along), what
    [asWebviewUri] returns by its string form. *)
Definition Uri := string.

(** *** Joining paths

    [vscode.Uri.joinPath] is host code: it hands the path of the base and
    the segments to [posix.join] of the host's path library, which puts a
    separator between its non-empty arguments and normalises the result
    (empty and [.] segments go, [..] takes the segment before it away, a
    trailing separator stays).  The branch for file locations on a Windows
    host is not modelled. *)

Definition slash : ascii := Ascii.ascii_of_nat 47.

(** The text between the separators of a path. *)
Fixpoint path_segments (s : string) : list string :=
  match s with
  | EmptyString => [EmptyString]
  | String c s' =>
      if Ascii.eqb c slash then EmptyString :: path_segments s'
      else
        match path_segments s' with
        | seg :: rest => String c seg :: rest
        | [] => [String c EmptyString]
        end
  end.

(** One round of [normalizeString]: [stack] holds the segments kept so
    far, the last one first. *)
Definition push_segment (allowAboveRoot : bool) (stack : list string)
    (seg : string) : list string :=
  if String.eqb seg "" || String.eqb seg "." then stack
  else if String.eqb seg ".." then
    match stack with
    | last :: rest =>
        if String.eqb last ".."
        then (if allowAboveRoot then seg :: stack else stack)
        else rest
    | [] => if allowAboveRoot then [seg] else []
    end
  else seg :: stack.

Definition join_segments (segs : list string) : string :=
  match segs with
  | [] => EmptyString
  | seg :: rest => foldl (fun acc seg' => acc +:+ "/" +:+ seg') seg rest
  end.

Definition starts_with_slash (s : string) : bool :=
  match s with
  | String c _ => Ascii.eqb c slash
  | EmptyString => false
  end.

Fixpoint ends_with_slash (s : string) : bool :=
  match s with
  | EmptyString => false
  | String c EmptyString => Ascii.eqb c slash
  | String _ s' => ends_with_slash s'
  end.

(** [posix.normalize(path)]. *)
Definition posix_normalize (path : string) : string :=
  match path with
  | EmptyString => "."
  | String _ _ =>
      let isAbsolute := starts_with_slash path in
      let trailingSeparator := ends_with_slash path in
      let body :=
        join_segments
          (rev (foldl (push_segment (negb isAbsolute)) []
                  (path_segments path))) in
      match body with
      | EmptyString =>
          if isAbsolute then "/" else if trailingSeparator then "./" else "."
      | String _ _ =>
          (if isAbsolute then "/" else EmptyString) +:+ body +:+
          (if trailingSeparator then "/" else EmptyString)
      end
  end.

(** [posix.join(...args)]. *)
Definition posix_join (args : list string) : string :=
  match filter (fun a => a <> EmptyString) args with
  | [] => "."
  | part :: parts => posix_normalize (join_segments (part :: parts))
  end.

(** [vscode.Uri.joinPath(base, ...pathSegments)].  The class calls it on
    the location of the extension only, whose path is not empty (for a
    location without path the host raises an error instead). *)
Definition joinPath (base : Uri) (pathSegments : list string) : Uri :=
  posix_join (base :: pathSegments).

Arguments joinPath : simpl never.

(** [vscode.ViewColumn] is a numeric enum: Active = -1, Beside = -2,
    One = 1, ... Nine = 9. *)
Definition ViewColumn := Z.
Definition ViewColumn_Beside : ViewColumn := (-2)%Z.
Definition ViewColumn_One : ViewColumn := 1%Z.

(** [vscode.WebviewOptions]; an absent [localResourceRoots] is [None]. *)
Record WebviewOptions := {
  enableScripts : bool;
  localResourceRoots : option (list Uri)
}.

(** The envelope [{ command: string, data: T }] (type [Message] at the end
    of the source file; [WebviewMessage] and [VSCodeMessage] of './types'
    have this shape). *)
Record Message := { command : string; data : string }.

(** State of a promise returned by [render]. *)
Inductive PromiseState := Pending | Resolved | Rejected.

(** The closures the class hands to the host's event emitters. *)
Inductive Listener :=
| OnDispose (self : nat)     (* () => this.dispose()                       *)
| HandleMessage              (* this.handleMessage                         *)
| OnViewState (self : nat)   (* e => { if (this.panel.visible) {...} }     *)
| Handshake (p : nat).       (* message => ready ? resolve() : reject()    *)

Inductive EventKind := DidDispose | DidReceiveMessage | DidChangeViewState.

(** The emitter a closure is registered with. *)
Definition kind_of (l : Listener) : EventKind :=
  match l with
  | OnDispose _ => DidDispose
  | HandleMessage | Handshake _ => DidReceiveMessage
  | OnViewState _ => DidChangeViewState
  end.

Global Instance EventKind_eq_dec : EqDecision EventKind.
Proof. solve_decision. Defined.

(** A live registration in one of the emitters of surface [sub_panel].
    [sub_id] is also the identity of the [vscode.Disposable] the host
    returned for it. *)
Record Subscription := {
  sub_id : nat;
  sub_panel : nat;
  sub_listener : Listener
}.

(** A host surface ([vscode.WebviewPanel] with its [webview]). *)
Record WebviewPanel := {
  viewType : string;
  title : string;
  viewColumn : ViewColumn;
  options : WebviewOptions;
  html : string;
  visible : bool;
  disposed : bool
}.

(** An instance of the class: [panel] is a handle into the host's
    surfaces, [disposables] holds the ids of the cleanup handles in the
    order they were pushed.  The array is typed [vscode.Disposable[]], so
    it has no holes. *)
Record Webview := {
  panel : nat;
  extensionUri : Uri;
  disposables : list nat
}.

(** Calls into the host, newest first in the trace. *)
Inductive Event :=
| EvCreatePanel (h : nat)
| EvReveal (h : nat) (col : ViewColumn)
| EvSetTitle (h : nat) (s : string)
| EvSetHtml (h : nat) (s : string)
| EvPanelDispose (h : nat)
| EvDisposableDispose (d : nat)
| EvPostMessage (h : nat) (m : Message)
| EvShowErrorMessage (text : string)
| EvResolve (p : nat)
| EvReject (p : nat).

(** What the class does not define itself:
    - [asWebviewUri] and [cspSource] of the host's webview;
    - [utils_generateNonce k]: the string returned by the [k]-th call of
      [generateNonce] imported from './utils' (first variant);
    - [random_index k]: [Math.floor(Math.random() * possible.length)] at
      the [k]-th call of [Math.random] (second variant);
    - [throwing d]: whether [dispose()] of cleanup handle [d] throws. *)
Record Env := {
  asWebviewUri : Uri -> Uri;
  cspSource : string;
  utils_generateNonce : nat -> string;
  random_index : nat -> nat;
  throwing : nat -> bool
}.

Record World := {
  env : Env;
  currentPanel : option nat;        (* Webview.currentPanel              *)
  instances : list Webview;         (* every instance ever constructed   *)
  panels : list WebviewPanel;       (* the host's surfaces, by handle    *)
  subs : list Subscription;         (* live registrations, oldest first  *)
  nextSub : nat;                    (* next cleanup-handle id            *)
  promises : list PromiseState;     (* promises made by render           *)
  nonceCalls : nat;                 (* calls of generateNonce so far     *)
  randomCalls : nat;                (* calls of Math.random so far       *)
  trace : list Event
}.

(** Field updates. *)
Definition set_currentPanel (c : option nat) (w : World) : World :=
  {| env := env w; currentPanel := c; instances := instances w;
     panels := panels w; subs := subs w; nextSub := nextSub w;
     promises := promises w; nonceCalls := nonceCalls w;
     randomCalls := randomCalls w; trace := trace w |}.

Definition set_instances (l : list Webview) (w : World) : World :=
  {| env := env w; currentPanel := currentPanel w; instances := l;
     panels := panels w; subs := subs w; nextSub := nextSub w;
     promises := promises w; nonceCalls := nonceCalls w;
     randomCalls := randomCalls w; trace := trace w |}.

Definition set_panels (l : list WebviewPanel) (w : World) : World :=
  {| env := env w; currentPanel := currentPanel w; instances := instances w;
     panels := l; subs := subs w; nextSub := nextSub w;
     promises := promises w; nonceCalls := nonceCalls w;
     randomCalls := randomCalls w; trace := trace w |}.

Definition set_subs (l : list Subscription) (w : World) : World :=
  {| env := env w; currentPanel := currentPanel w; instances := instances w;
     panels := panels w; subs := l; nextSub := nextSub w;
     promises := promises w; nonceCalls := nonceCalls w;
     randomCalls := randomCalls w; trace := trace w |}.

Definition set_nextSub (n : nat) (w : World) : World :=
  {| env := env w; currentPanel := currentPanel w; instances := instances w;
     panels := panels w; subs := subs w; nextSub := n;
     promises := promises w; nonceCalls := nonceCalls w;
     randomCalls := randomCalls w; trace := trace w |}.

Definition set_promises (l : list PromiseState) (w : World) : World :=
  {| env := env w; currentPanel := currentPanel w; instances := instances w;
     panels := panels w; subs := subs w; nextSub := nextSub w;
     promises := l; nonceCalls := nonceCalls w;
     randomCalls := randomCalls w; trace := trace w |}.

Definition set_nonceCalls (n : nat) (w : World) : World :=
  {| env := env w; currentPanel := currentPanel w; instances := instances w;
     panels := panels w; subs := subs w; nextSub := nextSub w;
     promises := promises w; nonceCalls := n;
     randomCalls := randomCalls w; trace := trace w |}.

Definition set_randomCalls (n : nat) (w : World) : World :=
  {| env := env w; currentPanel := currentPanel w; instances := instances w;
     panels := panels w; subs := subs w; nextSub := nextSub w;
     promises := promises w; nonceCalls := nonceCalls w;
     randomCalls := n; trace := trace w |}.

Definition emit (e : Event) (w : World) : World :=
  {| env := env w; currentPanel := currentPanel w; instances := instances w;
     panels := panels w; subs := subs w; nextSub := nextSub w;
     promises := promises w; nonceCalls := nonceCalls w;
     randomCalls := randomCalls w; trace := e :: trace w |}.

Definition with_title (s : string) (p : WebviewPanel) : WebviewPanel :=
  {| viewType := viewType p; title := s; viewColumn := viewColumn p;
     options := options p; html := html p; visible := visible p;
     disposed := disposed p |}.

Definition with_html (s : string) (p : WebviewPanel) : WebviewPanel :=
  {| viewType := viewType p; title := title p; viewColumn := viewColumn p;
     options := options p; html := s; visible := visible p;
     disposed := disposed p |}.

Definition with_visible (b : bool) (p : WebviewPanel) : WebviewPanel :=
  {| viewType := viewType p; title := title p; viewColumn := viewColumn p;
     options := options p; html := html p; visible := b;
     disposed := disposed p |}.

Definition with_disposed (b : bool) (p : WebviewPanel) : WebviewPanel :=
  {| viewType := viewType p; title := title p; viewColumn := viewColumn p;
     options := options p; html := html p; visible := visible p;
     disposed := b |}.

Definition with_disposables (l : list nat) (i : Webview) : Webview :=
  {| panel := panel i; extensionUri := extensionUri i; disposables := l |}.

(** The world before the extension has done anything. *)
Definition initial (e : Env) : World :=
  {| env := e; currentPanel := None; instances := []; panels := [];
     subs := []; nextSub := 0; promises := []; nonceCalls := 0;
     randomCalls := 0; trace := [] |}.

(** ** The host *)

(** [vscode.window.createWebviewPanel(viewType, title, showOptions, options)]:
    a new, visible surface without content. *)
Definition createWebviewPanel (vt ti : string) (col : ViewColumn)
    (o : WebviewOptions) (w : World) : nat * World :=
  let h := length (panels w) in
  (h, emit (EvCreatePanel h)
        (set_panels (panels w ++
           [{| viewType := vt; title := ti; viewColumn := col; options := o;
               html := EmptyString; visible := true; disposed := false |}]) w)).

(** [panel.reveal(viewColumn)]: a request to the host. *)
Definition reveal (h : nat) (col : ViewColumn) (w : World) : World :=
  emit (EvReveal h col) w.

(** [panel.title = s] and [panel.webview.html = s]. *)
Definition assign_title (h : nat) (s : string) (w : World) : World :=
  emit (EvSetTitle h s) (set_panels (alter (with_title s) h (panels w)) w).

Definition assign_html (h : nat) (s : string) (w : World) : World :=
  emit (EvSetHtml h s) (set_panels (alter (with_html s) h (panels w)) w).

(** [event(listener, null, disposables)] on an emitter of surface [h]: the
    listener is added after the ones already there and the cleanup handle
    of the registration is pushed onto the [disposables] array of instance
    [owner]. *)
Definition register (h : nat) (l : Listener) (owner : nat) (w : World) : World :=
  let d := nextSub w in
  let w1 := set_subs (subs w ++
              [{| sub_id := d; sub_panel := h; sub_listener := l |}]) w in
  let w2 := set_nextSub (S d) w1 in
  set_instances
    (alter (fun i => with_disposables (disposables i ++ [d]) i) owner
       (instances w2)) w2.

(** The listeners of emitter [k] of surface [h], in registration order. *)
Definition listeners_on (h : nat) (k : EventKind) (w : World) : list Subscription :=
  filter (fun s => sub_panel s = h /\ kind_of (sub_listener s) = k) (subs w).

(** [resolve()] and [reject()] of promise [p]: only the first call settles. *)
Definition settle (st : PromiseState) (p : nat) (w : World) : World :=
  set_promises
    (alter (fun old => match old with Pending => st | _ => old end) p
       (promises w)) w.

Definition resolve (p : nat) (w : World) : World :=
  settle Resolved p (emit (EvResolve p) w).

Definition reject (p : nat) (w : World) : World :=
  settle Rejected p (emit (EvReject p) w).

(** ** The class, first variant *)

(** The double-quote character, for the attribute values of the markup. *)
Definition dq : string := String (Ascii.ascii_of_nat 34) EmptyString.

(** [private static readonly title], [viewType], [viewColumn]. *)
Definition Webview_title : string := "Table Preview".
Definition Webview_viewType : string := "tablePreview".
Definition Webview_viewColumn : ViewColumn := ViewColumn_Beside.

(** [getOptions(extensionUri)]. *)
Definition getOptions (extensionUri : Uri) : WebviewOptions :=
  {| enableScripts := true;
     localResourceRoots := Some [joinPath extensionUri ["out"]] |}.

(** The template literal of [getHtmlForWebview], cut at its holes. *)
Definition html_seg0 : string :=
  "<!DOCTYPE html>
        <html lang=" +:+ dq +:+ "en" +:+ dq +:+ ">
            <head>
                <meta charset=" +:+ dq +:+ "UTF-8" +:+ dq +:+ ">
                <meta name=" +:+ dq +:+ "viewport" +:+ dq +:+ " content=" +:+ dq +:+ "width=device-width, initial-scale=1.0" +:+ dq +:+ ">

                <!--
                    Use a content security policy to only allow loading images from https or from our extension directory,
                    and only allow scripts that have a specific nonce.
                -->
                <meta http-equiv=" +:+ dq +:+ "Content-Security-Policy" +:+ dq +:+ " content=" +:+ dq +:+ "default-src 'none'; script-src 'nonce-".

Definition html_seg1 : string :=
  "';" +:+ dq +:+ ">

                <script type=" +:+ dq +:+ "module" +:+ dq +:+ " nonce=" +:+ dq.

Definition html_seg2 : string :=
  dq +:+ " src=" +:+ dq.

Definition html_seg3 : string :=
  dq +:+ "></script>

                <title>Webview</title>
            </head>

            <body>
                <vscode-text-field id=" +:+ dq +:+ "search" +:+ dq +:+ " type=" +:+ dq +:+ "text" +:+ dq +:+ " placeholder=" +:+ dq +:+ "Search..." +:+ dq +:+ "></vscode-text-field>
                <table id=" +:+ dq +:+ "table" +:+ dq +:+ "></table>
            </body>
        </html>
        ".

Definition html_template (nonce scriptUri : string) : string :=
  html_seg0 +:+ nonce +:+ html_seg1 +:+ nonce +:+ html_seg2 +:+ scriptUri +:+ html_seg3.

(** [getWebviewUri(...pathSegments)]. *)
Definition getWebviewUri (i : Webview) (pathSegments : list string) (w : World) : Uri :=
  asWebviewUri (env w) (joinPath (extensionUri i) pathSegments).

(** [generateNonce()] of './utils': the next string of the environment. *)
Definition generateNonce (w : World) : string * World :=
  (utils_generateNonce (env w) (nonceCalls w),
   set_nonceCalls (S (nonceCalls w)) w).

(** [getHtmlForWebview()]. *)
Definition getHtmlForWebview (i : Webview) (w : World) : string * World :=
  let scriptUri := getWebviewUri i ["out"; "webview.js"] w in
  let '(nonce, w1) := generateNonce w in
  (html_template nonce scriptUri, w1).

(** [update()]: [this.panel.webview.html = this.getHtmlForWebview()]. *)
Definition update (self : nat) (w : World) : World :=
  match instances w !! self with
  | Some i =>
      let '(markup, w1) := getHtmlForWebview i w in
      assign_html (panel i) markup w1
  | None => w
  end.

(** [handleMessage(message)]: the switch has the single case 'error'. *)
Definition handleMessage (message : Message) (w : World) : World :=
  if String.eqb (command message) "error"
  then emit (EvShowErrorMessage (data message)) w
  else w.

(** The constructor: the field initialiser [disposables = []], then
    [update()], then the three registrations. *)
Definition new_Webview (h : nat) (uri : Uri) (w : World) : nat * World :=
  let self := length (instances w) in
  let w0 := set_instances
              (instances w ++
                 [{| panel := h; extensionUri := uri; disposables := [] |}]) w in
  let w1 := update self w0 in
  let w2 := register h (OnDispose self) self w1 in
  let w3 := register h HandleMessage self w2 in
  let w4 := register h (OnViewState self) self w3 in
  (self, w4).

(** [create(extensionUri, viewColumn)]. *)
Definition create (uri : Uri) (col : ViewColumn) (w : World) : nat * World :=
  let '(h, w1) :=
    createWebviewPanel Webview_viewType Webview_title col (getOptions uri) w in
  new_Webview h uri w1.

(** [render(extensionUri, viewColumn)]; the result is the promise. *)
Definition render (uri : Uri) (col : ViewColumn) (w : World) : nat * World :=
  let w1 :=
    match currentPanel w with
    | Some c =>
        match instances w !! c with
        | Some i => reveal (panel i) col w
        | None => w
        end
    | None =>
        let '(self, w') := create uri col w in
        set_currentPanel (Some self) w'
    end in
  let p := length (promises w1) in
  let w2 := set_promises (promises w1 ++ [Pending]) w1 in
  let w3 :=
    match currentPanel w2 with
    | Some c =>
        match instances w2 !! c with
        | Some i => register (panel i) (Handshake p) c w2
        | None => w2
        end
    | None => w2
    end in
  (p, w3).

(** [revive(panel, extensionUri)]. *)
Definition revive (h : nat) (uri : Uri) (w : World) : World :=
  let '(self, w1) := new_Webview h uri w in
  set_currentPanel (Some self) w1.

(** [postMessage(message)]: [this.currentPanel?.panel.webview.postMessage]. *)
Definition postMessage (message : Message) (w : World) : World :=
  match currentPanel w with
  | Some c =>
      match instances w !! c with
      | Some i => emit (EvPostMessage (panel i) message) w
      | None => w
      end
  | None => w
  end.

(** *** Disposal *)

Inductive Outcome := Returned | Threw.

(** [disposable.dispose()] of a registration: the call is recorded; it
    either throws or takes the listener out of its emitter. *)
Definition disposable_dispose (d : nat) (w : World) : Outcome * World :=
  let w1 := emit (EvDisposableDispose d) w in
  if throwing (env w) d then (Threw, w1)
  else (Returned, set_subs (filter (fun s => sub_id s <> d) (subs w1)) w1).

(** The loop [while (this.disposables.length) { pop(); dispose() }].
    [stack] is the array seen from its end; no cleanup handle calls back
    into the class, so the array only changes by the pops.  The array has
    no holes, so the guard [if (disposable)] always passes.  Nothing
    catches: the exception of a handle leaves the loop. *)
Fixpoint drain (stack : list nat) (self : nat) (w : World) : Outcome * World :=
  match stack with
  | [] => (Returned, w)
  | d :: rest =>
      let w1 := set_instances
                  (alter (with_disposables (rev rest)) self (instances w)) w in
      match disposable_dispose d w1 with
      | (Threw, w2) => (Threw, w2)
      | (Returned, w2) => drain rest self w2
      end
  end.

(** The host firing [onDidDispose]: every listener of the snapshot is
    called; a listener that throws does not stop the others (the emitter
    catches).  [None] when a callback ran out of fuel. *)
Fixpoint fire_dispose (callback : nat -> World -> option World)
    (ls : list Subscription) (w : World) : option World :=
  match ls with
  | [] => Some w
  | s :: rest =>
      match sub_listener s with
      | OnDispose self =>
          match callback self w with
          | Some w' => fire_dispose callback rest w'
          | None => None
          end
      | _ => fire_dispose callback rest w
      end
  end.

(** The host disposing surface [h]: nothing if it is disposed already;
    otherwise it is marked, [onDidDispose] fires and the emitters of the
    surface are disposed with their remaining listeners. *)
Definition surface_dispose (callback : nat -> World -> option World)
    (h : nat) (w : World) : option World :=
  match panels w !! h with
  | Some p =>
      if disposed p then Some w
      else
        let w1 := set_panels (alter (with_disposed true) h (panels w)) w in
        match fire_dispose callback (listeners_on h DidDispose w1) w1 with
        | Some w2 =>
            Some (set_subs (filter (fun s => sub_panel s <> h) (subs w2)) w2)
        | None => None
        end
  | None => Some w
  end.

(** [dispose()].  The call [this.panel.dispose()] re-enters [dispose]
    through the [onDidDispose] listener, hence the fuel. *)
Fixpoint dispose (fuel : nat) (self : nat) (w : World) : option (Outcome * World) :=
  match fuel with
  | O => None
  | S fuel' =>
      match instances w !! self with
      | Some i =>
          let w1 := set_currentPanel None w in
          match surface_dispose (fun s w' => snd <$> dispose fuel' s w')
                  (panel i) (emit (EvPanelDispose (panel i)) w1) with
          | Some w2 =>
              match instances w2 !! self with
              | Some i2 => Some (drain (rev (disposables i2)) self w2)
              | None => Some (Returned, w2)
              end
          | None => None
          end
      | None => Some (Returned, w)
      end
  end.

(** ** Events of the host *)

(** A surface that exists and is not disposed; the host raises no event
    for any other. *)
Definition live (h : nat) (w : World) : bool :=
  match panels w !! h with
  | Some p => negb (disposed p)
  | None => false
  end.

(** An inbound message of the content of surface [h]: [onDidReceiveMessage]
    fires, listeners in registration order. *)
Definition deliver_message (message : Message) (w : World) (s : Subscription) : World :=
  match sub_listener s with
  | HandleMessage => handleMessage message w
  | Handshake p =>
      if String.eqb (command message) "ready" then resolve p w else reject p w
  | _ => w
  end.

Definition receiveMessage (h : nat) (message : Message) (w : World) : World :=
  if live h w
  then foldl (deliver_message message) w (listeners_on h DidReceiveMessage w)
  else w.

(** The visibility of surface [h] becomes [v]: [onDidChangeViewState]
    fires. *)
Definition deliver_viewState (w : World) (s : Subscription) : World :=
  match sub_listener s with
  | OnViewState self =>
      match instances w !! self with
      | Some i =>
          match panels w !! panel i with
          | Some p => if visible p then update self w else w
          | None => w
          end
      | None => w
      end
  | _ => w
  end.

Definition changeViewState (h : nat) (v : bool) (w : World) : World :=
  if live h w
  then
    let w1 := set_panels (alter (with_visible v) h (panels w)) w in
    foldl deliver_viewState w1 (listeners_on h DidChangeViewState w1)
  else w.

(** The user closes surface [h]: the host disposes it. *)
Definition closePanel (fuel : nat) (h : nat) (w : World) : option World :=
  surface_dispose (fun s w' => snd <$> dispose fuel s w') h w.

(** The discriminants the first variant gives a meaning to. *)
Definition recognized (c : string) : bool :=
  String.eqb c "ready" || String.eqb c "error".

(** ** The class, second variant

    Title 'Webview'; [render] returns nothing, [update] also assigns the
    title, the nonce generator is a method of the class.  [dispose] and
    the constructor have the text of the first variant. *)

Module Variant2.

Definition Webview_title : string := "Webview".

(** [getWebviewOptions(extensionUri)]. *)
Definition getWebviewOptions (extensionUri : Uri) : WebviewOptions :=
  {| enableScripts := true;
     localResourceRoots := Some [joinPath extensionUri ["media"]] |}.

Definition possible : string :=
  "ABCDEFGHIJKLMNOPQRSTUVWXYZabcdefghijklmnopqrstuvwxyz0123456789".

(** [s.charAt(i)]: the empty string when [i] is out of range. *)
Definition charAt (s : string) (i : nat) : string :=
  match String.get i s with
  | Some c => String c EmptyString
  | None => EmptyString
  end.

(** The loop of [generateNonce]: [n] rounds are left, [k] calls of
    [Math.random] have been made, [nonce] is the string so far. *)
Fixpoint nonce_loop (rand : nat -> nat) (n k : nat) (nonce : string) : string :=
  match n with
  | O => nonce
  | S n' => nonce_loop rand n' (S k) (nonce +:+ charAt possible (rand k))
  end.

(** [generateNonce()]. *)
Definition generateNonce (w : World) : string * World :=
  (nonce_loop (random_index (env w)) 32 (randomCalls w) EmptyString,
   set_randomCalls (32 + randomCalls w) w).

(** The template literal of [getHtmlForWebview], cut at its holes. *)
Definition html_seg0 : string :=
  "<!DOCTYPE html>
        <html lang=" +:+ dq +:+ "en" +:+ dq +:+ ">
            <head>
                <meta charset=" +:+ dq +:+ "UTF-8" +:+ dq +:+ ">
                <meta name=" +:+ dq +:+ "viewport" +:+ dq +:+ " content=" +:+ dq +:+ "width=device-width, initial-scale=1.0" +:+ dq +:+ ">

                <!--
                    Use a content security policy to only allow loading images from https or from our extension directory,
                    and only allow scripts that have a specific nonce.
                -->
                <meta http-equiv=" +:+ dq +:+ "Content-Security-Policy" +:+ dq +:+ " content=" +:+ dq +:+ "default-src 'none'; style-src ".

Definition html_seg1 : string :=
  "; img-src ".

Definition html_seg2 : string :=
  " https:; script-src 'nonce-".

Definition html_seg3 : string :=
  "';" +:+ dq +:+ ">

                <link href=" +:+ dq.

Definition html_seg4 : string :=
  dq +:+ " rel=" +:+ dq +:+ "stylesheet" +:+ dq +:+ ">
				<link href=" +:+ dq.

Definition html_seg5 : string :=
  dq +:+ " rel=" +:+ dq +:+ "stylesheet" +:+ dq +:+ ">

                <script type=" +:+ dq +:+ "module" +:+ dq +:+ " nonce=" +:+ dq.

Definition html_seg6 : string :=
  dq +:+ " src=" +:+ dq.

Definition html_seg7 : string :=
  dq +:+ "></script>

                <title>Webview</title>
            </head>

            <body>
                <h1>Hello World!</h1>
            </body>
        </html>
        ".

Definition html_template (csp nonce cssResetUri styleUri scriptUri : string)
    : string :=
  html_seg0 +:+ csp +:+ html_seg1 +:+ csp +:+ html_seg2 +:+ nonce +:+
  html_seg3 +:+ cssResetUri +:+ html_seg4 +:+ styleUri +:+ html_seg5 +:+
  nonce +:+ html_seg6 +:+ scriptUri +:+ html_seg7.

(** [getHtmlForWebview()]. *)
Definition getHtmlForWebview (i : Webview) (w : World) : string * World :=
  let scriptUri := getWebviewUri i ["media"; "index.js"] w in
  let styleUri := getWebviewUri i ["media"; "vscode.css"] w in
  let cssResetUri := getWebviewUri i ["media"; "reset.css"] w in
  let '(nonce, w1) := generateNonce w in
  (html_template (cspSource (env w)) nonce cssResetUri styleUri scriptUri, w1).

(** [update()]: the title, then the markup. *)
Definition update (self : nat) (w : World) : World :=
  match instances w !! self with
  | Some i =>
      let w0 := assign_title (panel i) "WEBVIEW" w in
      let '(markup, w1) := getHtmlForWebview i w0 in
      assign_html (panel i) markup w1
  | None => w
  end.

(** The [onDidChangeViewState] listener of the constructor. *)
Definition viewStateChanged (self : nat) (w : World) : World :=
  match instances w !! self with
  | Some i =>
      match panels w !! panel i with
      | Some p => if visible p then update self w else w
      | None => w
      end
  | None => w
  end.

(** [handleMessage(message)]: the single case is 'alert'. *)
Definition handleMessage (message : Message) (w : World) : World :=
  if String.eqb (command message) "alert"
  then emit (EvShowErrorMessage (data message)) w
  else w.

End Variant2.

(** ** Reading the nonces back from a document *)

(** [strip_prefix m s]: what follows [m] when [s] starts with [m]. *)
Fixpoint strip_prefix (m s : string) : option string :=
  match m with
  | EmptyString => Some s
  | String a m' =>
      match s with
      | String b s' => if Ascii.eqb a b then strip_prefix m' s' else None
      | EmptyString => None
      end
  end.

(** [after m s]: what follows the first occurrence of [m] in [s]. *)
Fixpoint after (m s : string) : option string :=
  match strip_prefix m s with
  | Some rest => Some rest
  | None =>
      match s with
      | EmptyString => None
      | String _ s' => after m s'
      end
  end.

(** [up_to c s]: the text before the first [c] in [s]. *)
Fixpoint up_to (c : ascii) (s : string) : option string :=
  match s with
  | EmptyString => None
  | String a s' =>
      if Ascii.eqb a c then Some EmptyString else String a <$> up_to c s'
  end.

(** [sdrop k s]: [s] without its first [k] characters. *)
Fixpoint sdrop (k : nat) (s : string) : string :=
  match k, s with
  | S k', String _ s' => sdrop k' s'
  | _, _ => s
  end.

Definition apostrophe : ascii := Ascii.ascii_of_nat 39.
Definition quote : ascii := Ascii.ascii_of_nat 34.
Definition less_than : ascii := Ascii.ascii_of_nat 60.

(** The nonce source of the [script-src] directive of the policy. *)
Definition csp_marker : string := "script-src 'nonce-".

Definition csp_nonce (doc : string) : option string :=
  match after csp_marker doc with
  | Some rest => up_to apostrophe rest
  | None => None
  end.

(** The [nonce] attribute of the module script tag. *)
Definition script_marker : string :=
  "<script type=" +:+ dq +:+ "module" +:+ dq +:+ " nonce=" +:+ dq.

Definition script_nonce (doc : string) : option string :=
  match after script_marker doc with
  | Some rest => up_to quote rest
  | None => None
  end.

(** Strings without apostrophe, double quote and less-than sign: nonces
    and the host's URIs and CSP source are such. *)
Fixpoint plain (s : string) : bool :=
  match s with
  | EmptyString => true
  | String a s' =>
      negb (Ascii.eqb a apostrophe) && negb (Ascii.eqb a quote) &&
      negb (Ascii.eqb a less_than) && plain s'
  end.

(** The position of a character in a string. *)
Fixpoint index_of (c : ascii) (s : string) : option nat :=
  match s with
  | EmptyString => None
  | String a s' => if Ascii.eqb a c then Some 0 else S <$> index_of c s'
  end.

(** A CSP source that can stand in the policy: no less-than sign and no
    nonce source of its own. *)
Definition benign (s : string) : bool :=
  match index_of less_than s, after csp_marker s with
  | None, None => true
  | _, _ => false
  end.

(** ** Auxiliary notions for the statements *)

(** The markup the constructor and [update] assign for an instance with
    base location [uri]. *)
Definition markup_of (uri : Uri) (w : World) : string :=
  html_template (utils_generateNonce (env w) (nonceCalls w))
    (asWebviewUri (env w) (joinPath uri ["out"; "webview.js"])).

(** A sequence of [render] calls, each with its arguments. *)
Definition render_all (calls : list (Uri * ViewColumn)) (w : World) : World :=
  foldl (fun w' call => snd (render (fst call) (snd call) w')) w calls.

(** The tracked reference, if any, points to an instance. *)
Definition tracked_valid (w : World) : Prop :=
  match currentPanel w with
  | Some c => is_Some (instances w !! c)
  | None => True
  end.

(** The tracked instance, if any, has a live surface with the message
    handler of its constructor registered on it. *)
Definition handler_installed (w : World) : Prop :=
  match currentPanel w with
  | Some c =>
      exists i s, instances w !! c = Some i /\ live (panel i) w = true /\
                  s ∈ subs w /\
                  sub_panel s = panel i /\ sub_listener s = HandleMessage
  | None => True
  end.

(** What a handshake listener does with a message. *)
Definition decision (message : Message) : PromiseState :=
  if String.eqb (command message) "ready" then Resolved else Rejected.

(** The registrations of the constructor of instance 0 on surface 0, and
    the handshake registrations of [n] calls of [render] after it. *)
Definition constructor_subs : list Subscription :=
  [{| sub_id := 0; sub_panel := 0; sub_listener := OnDispose 0 |};
   {| sub_id := 1; sub_panel := 0; sub_listener := HandleMessage |};
   {| sub_id := 2; sub_panel := 0; sub_listener := OnViewState 0 |}].

Definition handshake_sub (k : nat) : Subscription :=
  {| sub_id := 3 + k; sub_panel := 0; sub_listener := Handshake k |}.

Definition handshake_subs (n : nat) : list Subscription :=
  handshake_sub <$> seq 0 n.

(** The shape of the world after [n] calls of [render] on a fresh host. *)
Definition rendered (n : nat) (w : World) : Prop :=
  currentPanel w = Some 0 /\
  (exists uri, instances w =
     [{| panel := 0; extensionUri := uri; disposables := seq 0 (3 + n) |}]) /\
  (exists p, panels w = [p] /\ disposed p = false) /\
  subs w = constructor_subs ++ handshake_subs n /\
  nextSub w = 3 + n /\
  promises w = replicate n Pending.

(** The call a handshake listener makes on promise [p] for a message. *)
Definition settle_call (message : Message) (p : nat) : Event :=
  if String.eqb (command message) "ready" then EvResolve p else EvReject p.

(** The notification of the message handler for a message, if any. *)
Definition handler_calls (message : Message) : list Event :=
  if String.eqb (command message) "error"
  then [EvShowErrorMessage (data message)] else [].

(** The world after the loop of [dispose] of instance [self] has popped
    and disposed the handles [done], none of which threw, with [rest] still
    on the array (both seen from the end of the array). *)
Definition popped (done rest : list nat) (self : nat) (w : World) : World :=
  {| env := env w; currentPanel := currentPanel w;
     instances := alter (with_disposables (rev rest)) self (instances w);
     panels := panels w;
     subs := filter (fun s => sub_id s ∉ done) (subs w);
     nextSub := nextSub w; promises := promises w;
     nonceCalls := nonceCalls w; randomCalls := randomCalls w;
     trace := (EvDisposableDispose <$> rev done) ++ trace w |}.

(** The cleanup handles invoked in a trace, newest first. *)
Definition disposals (t : list Event) : list nat :=
  omap (fun e => match e with EvDisposableDispose d => Some d | _ => None end) t.


(** The only [onDidDispose] listener of surface [h] is the one the
    constructor of instance [self] registered. *)
Definition owns_disposal (self h : nat) (w : World) : Prop :=
  exists s, listeners_on h DidDispose w = [s] /\ sub_listener s = OnDispose self.

(** The world in which [dispose()] of an instance with surface [h] makes
    its call [this.panel.dispose()]. *)
Definition cleared (h : nat) (w : World) : World :=
  emit (EvPanelDispose h) (set_currentPanel None w).

(** Assignments of the title among the calls into the host. *)
Definition is_title_assignment (e : Event) : bool :=
  match e with EvSetTitle _ _ => true | _ => false end.

(** ** Runs of the extension

    Everything that can happen to the controller: calls of its public
    methods and events raised by the host. *)
Inductive Op :=
| OpCreate (uri : Uri) (col : ViewColumn)
| OpRender (uri : Uri) (col : ViewColumn)
| OpRevive (h : nat) (uri : Uri)
| OpPostMessage (message : Message)
| OpDispose (self : nat)
| OpMessage (h : nat) (message : Message)
| OpViewState (h : nat) (v : bool)
| OpClose (h : nat).

Definition step (fuel : nat) (o : Op) (w : World) : option World :=
  match o with
  | OpCreate uri col => Some (snd (create uri col w))
  | OpRender uri col => Some (snd (render uri col w))
  | OpRevive h uri => Some (revive h uri w)
  | OpPostMessage message => Some (postMessage message w)
  | OpDispose self => snd <$> dispose fuel self w
  | OpMessage h message => Some (receiveMessage h message w)
  | OpViewState h v => Some (changeViewState h v w)
  | OpClose h => closePanel fuel h w
  end.

Fixpoint run (fuel : nat) (ops : list Op) (w : World) : option World :=
  match ops with
  | [] => Some w
  | o :: ops' =>
      match step fuel o w with
      | Some w' => run fuel ops' w'
      | None => None
      end
  end.

(** The number of surfaces that are not disposed: the depth to which
    [dispose()] can re-enter itself. *)
Definition open_surfaces (w : World) : nat :=
  length (filter (fun p => disposed p = false) (panels w)).

(** Surface [h] exists and is disposed. *)
Definition gone (h : nat) (w : World) : bool :=
  match panels w !! h with
  | Some p => disposed p
  | None => false
  end.

(** [w'] differs from [w] by disposals only: the promises are the same,
    no listener has been added and no surface has come back. *)
Definition fades (w w' : World) : Prop :=
  promises w' = promises w /\
  (forall s, s ∈ subs w' -> s ∈ subs w) /\
  (forall h, gone h w = true -> gone h w' = true).

(** Every handshake listener belongs to a promise that exists. *)
Definition listeners_known (w : World) : Prop :=
  forall s q, s ∈ subs w -> sub_listener s = Handshake q ->
              q < length (promises w).

(** Promise [p] is pending and each of its listeners sits on a disposed
    surface. *)
Definition detached (p : nat) (w : World) : Prop :=
  promises w !! p = Some Pending /\
  forall s, s ∈ subs w -> sub_listener s = Handshake p ->
            gone (sub_panel s) w = true.

(** [w'] differs from [w] in content, visibility or trace only. *)
Definition same_wiring (w w' : World) : Prop :=
  promises w' = promises w /\ subs w' = subs w /\
  forall h, gone h w' = gone h w.

(** [w'] extends [w]: new promises after the old ones, new listeners none
    of which belongs to an old promise, no surface revived. *)
Definition grows (w w' : World) : Prop :=
  (exists more, promises w' = promises w ++ more) /\
  (exists new, subs w' = subs w ++ new /\
     forall s q, s ∈ new -> sub_listener s = Handshake q ->
                 length (promises w) <= q) /\
  (forall h, gone h w = true -> gone h w' = true).

(** ** A concrete environment and run, used to exercise the statements *)

Definition sample_env : Env :=
  {| asWebviewUri := fun u => "https://file+.vscode-resource.vscode-cdn.net" +:+ u;
     cspSource := "'self' https://*.vscode-cdn.net";
     utils_generateNonce := fun k => "nonce" +:+ String (Ascii.ascii_of_nat (65 + k)) EmptyString;
     random_index := fun k => (7 * k + 3) mod 62;
     throwing := fun _ => false |}.

(** One [render] on a fresh extension host. *)
Definition shown : World :=
  snd (render "/ext" Webview_viewColumn (initial sample_env)).

(** An environment in which the cleanup handle of the second registration
    (the one of the message handler) throws, and the world in which the
    [onDidDispose] listener of a rendered surface calls [dispose()] after
    the user has closed the surface: the host has marked it disposed. *)
Definition faulty_env : Env :=
  {| asWebviewUri := asWebviewUri sample_env;
     cspSource := cspSource sample_env;
     utils_generateNonce := utils_generateNonce sample_env;
     random_index := random_index sample_env;
     throwing := fun d => Nat.eqb d 1 |}.

Definition faulty_shown : World :=
  snd (render "/ext" Webview_viewColumn (initial faulty_env)).


(** An environment whose random source always yields the same index. *)
Definition stuck_env : Env :=
  {| asWebviewUri := asWebviewUri sample_env;
     cspSource := cspSource sample_env;
     utils_generateNonce := utils_generateNonce sample_env;
     random_index := fun _ => 0;
     throwing := throwing sample_env |}.


(** ** More worlds to exercise the statements *)

(** A second surface restored by the host while the first one is shown:
    the host creates it and calls [revive]; instance 1 is tracked,
    instance 0 is still alive. *)
Definition restored_beside : World :=
  revive 1 "/ext"
    (snd (createWebviewPanel Webview_viewType "Restored" ViewColumn_One
            {| enableScripts := true; localResourceRoots := None |} shown)).

(** The inbound messages among the operations. *)
Definition is_message (o : Op) : bool :=
  match o with OpMessage _ _ => true | _ => false end.


(** ** The singleton in the worlds the program reaches *)





(** ** The second variant: construction, singleton and events *)

Module Variant2Host.

(** The constructor, with [update] and the listeners of the second
    variant. *)
Definition new_Webview (h : nat) (uri : Uri) (w : World) : nat * World :=
  let self := length (instances w) in
  let w0 := set_instances
              (instances w ++
                 [{| panel := h; extensionUri := uri; disposables := [] |}]) w in
  let w1 := Variant2.update self w0 in
  let w2 := register h (OnDispose self) self w1 in
  let w3 := register h HandleMessage self w2 in
  let w4 := register h (OnViewState self) self w3 in
  (self, w4).

(** [create(extensionUri, viewColumn = ViewColumn.One)]. *)
Definition create (uri : Uri) (viewColumn : option ViewColumn) (w : World)
    : nat * World :=
  let '(h, w1) :=
    createWebviewPanel Webview_viewType Variant2.Webview_title
      (default ViewColumn_One viewColumn) (Variant2.getWebviewOptions uri) w in
  new_Webview h uri w1.

(** [render(extensionUri)]; [active] is
    [vscode.window.activeTextEditor?.viewColumn] at the time of the call.
    Nothing is returned. *)
Definition render (uri : Uri) (active : option ViewColumn) (w : World) : World :=
  let viewColumn := default ViewColumn_One active in
  match currentPanel w with
  | Some c =>
      match instances w !! c with
      | Some i => reveal (panel i) viewColumn w
      | None => w
      end
  | None =>
      let '(self, w') := create uri (Some viewColumn) w in
      set_currentPanel (Some self) w'
  end.

(** [revive(panel, extensionUri)]. *)
Definition revive (h : nat) (uri : Uri) (w : World) : World :=
  let '(self, w1) := new_Webview h uri w in
  set_currentPanel (Some self) w1.

(** The instance method [postMessage(message)]. *)
Definition postMessage (self : nat) (message : Message) (w : World) : World :=
  match instances w !! self with
  | Some i => emit (EvPostMessage (panel i) message) w
  | None => w
  end.

(** An inbound message of surface [h]. *)
Definition deliver_message (message : Message) (w : World) (s : Subscription)
    : World :=
  match sub_listener s with
  | HandleMessage => Variant2.handleMessage message w
  | Handshake p =>
      if String.eqb (command message) "ready" then resolve p w else reject p w
  | _ => w
  end.

Definition receiveMessage (h : nat) (message : Message) (w : World) : World :=
  if live h w
  then foldl (deliver_message message) w (listeners_on h DidReceiveMessage w)
  else w.

(** The visibility of surface [h] becomes [v]. *)
Definition deliver_viewState (w : World) (s : Subscription) : World :=
  match sub_listener s with
  | OnViewState self => Variant2.viewStateChanged self w
  | _ => w
  end.

Definition changeViewState (h : nat) (v : bool) (w : World) : World :=
  if live h w
  then
    let w1 := set_panels (alter (with_visible v) h (panels w)) w in
    foldl deliver_viewState w1 (listeners_on h DidChangeViewState w1)
  else w.

(** The operations of the second variant; [dispose()] has the same body in
    both. *)
Inductive Op :=
| OpCreate (uri : Uri) (viewColumn : option ViewColumn)
| OpRender (uri : Uri) (active : option ViewColumn)
| OpRevive (h : nat) (uri : Uri)
| OpPostMessage (self : nat) (message : Message)
| OpDispose (self : nat)
| OpMessage (h : nat) (message : Message)
| OpViewState (h : nat) (v : bool)
| OpClose (h : nat).

Definition step (fuel : nat) (o : Op) (w : World) : option World :=
  match o with
  | OpCreate uri col => Some (snd (create uri col w))
  | OpRender uri active => Some (render uri active w)
  | OpRevive h uri => Some (revive h uri w)
  | OpPostMessage self message => Some (postMessage self message w)
  | OpDispose self => snd <$> dispose fuel self w
  | OpMessage h message => Some (receiveMessage h message w)
  | OpViewState h v => Some (changeViewState h v w)
  | OpClose h => closePanel fuel h w
  end.

Fixpoint run (fuel : nat) (ops : list Op) (w : World) : option World :=
  match ops with
  | [] => Some w
  | o :: ops' =>
      match step fuel o w with
      | Some w' => run fuel ops' w'
      | None => None
      end
  end.

(** The markup [update()] assigns for an instance with [uri]. *)
Definition markup_of (uri : Uri) (w : World) : string :=
  Variant2.html_template (cspSource (env w))
    (Variant2.nonce_loop (random_index (env w)) 32 (randomCalls w) EmptyString)
    (asWebviewUri (env w) (joinPath uri ["media"; "reset.css"]))
    (asWebviewUri (env w) (joinPath uri ["media"; "vscode.css"]))
    (asWebviewUri (env w) (joinPath uri ["media"; "index.js"])).

(** The reveals of a sequence of [render] calls, newest first. *)
Definition reveals (h : nat) (actives : list (option ViewColumn)) : list Event :=
  rev (map (fun a => EvReveal h (default ViewColumn_One a)) actives).

(** No listener waits for a handshake. *)
Definition handshake_free (w : World) : Prop :=
  forall s q, s ∈ subs w -> sub_listener s <> Handshake q.

(** A run of the second variant. *)
Definition sample_ops : list Op :=
  [OpRender "/ext" None; OpRender "/ext" (Some ViewColumn_Beside);
   OpMessage 0 {| command := "alert"; data := "look" |};
   OpViewState 0 true; OpClose 0; OpRender "/ext" None].

(** One [render] of the second variant on a fresh extension host. *)
Definition shown : World := render "/ext" None (initial sample_env).

End Variant2Host.

(** ** The resources a document refers to *)

(** The [src] attribute of the module script tag. *)
Definition src_marker : string := dq +:+ " src=" +:+ dq.

Definition script_src (doc : string) : option string :=
  match after script_marker doc with
  | Some rest =>
      match after src_marker rest with
      | Some rest' => up_to quote rest'
      | None => None
      end
  | None => None
  end.

(** The [href] of the stylesheet link number [k] of the document. *)
Definition link_marker : string := "<link href=" +:+ dq.

Fixpoint nth_link (k : nat) (doc : string) : option string :=
  match after link_marker doc with
  | Some rest =>
      match k with
      | O => up_to quote rest
      | S k' => nth_link k' rest
      end
  | None => None
  end.

(** A location that can stand in an attribute value: no double quote and
    no less-than sign. *)
Definition attribute_safe (s : string) : Prop :=
  index_of quote s = None /\ index_of less_than s = None.

(** A file or directory name: not empty, not [.] or [..], no separator. *)
Definition plain_name (a : string) : bool :=
  negb (String.eqb a "") && negb (String.eqb a ".") &&
  negb (String.eqb a "..") &&
  match index_of slash a with None => true | Some _ => false end.
(** * Properties *)

(** ** Frame lemmas of the primitive steps *)

(** The markup is never inspected in the proofs about the lifecycle. *)
#[local] Opaque html_template Variant2.html_template.

(** Two worlds are equal when their fields are. *)
Lemma world_eq (w1 w2 : World) :
  env w1 = env w2 -> currentPanel w1 = currentPanel w2 ->
  instances w1 = instances w2 -> panels w1 = panels w2 ->
  subs w1 = subs w2 -> nextSub w1 = nextSub w2 ->
  promises w1 = promises w2 -> nonceCalls w1 = nonceCalls w2 ->
  randomCalls w1 = randomCalls w2 -> trace w1 = trace w2 -> w1 = w2.
Proof. destruct w1, w2. cbn. by intros; subst. Qed.

Ltac world_fields := f_equal; apply world_eq; cbn.

Lemma lookup_snoc_last {A} (l : list A) (x : A) :
  (l ++ [x]) !! length l = Some x.
Proof. by rewrite lookup_app_r, Nat.sub_diag by lia. Qed.

Lemma alter_snoc_last {A} (f : A -> A) (l : list A) (x : A) :
  alter f (length l) (l ++ [x]) = l ++ [f x].
Proof.
  replace (length l) with (length l + 0) at 1 by lia.
  by rewrite alter_app_r.
Qed.

(** ** Messages without a tracked instance *)

(** C4: for every envelope, [postMessage] called while no instance is
    tracked returns normally and leaves the whole world as it was; in
    particular the trace gets no delivery. *)
Theorem postMessage_absent (message : Message) (w : World) :
  currentPanel w = None -> postMessage message w = w.
Proof. intros H. unfold postMessage. by rewrite H. Qed.

Lemma postMessage_absent_witness :
  currentPanel (initial sample_env) = None /\
  postMessage {| command := "x"; data := EmptyString |} (initial sample_env)
  = initial sample_env.
Proof.
  split; [reflexivity | apply postMessage_absent; reflexivity].
Defined.

(** ** The message handler *)

(** C6: an inbound message whose command is neither 'ready' nor 'error'
    leaves the world untouched when handled by [handleMessage]: no
    notification, no state change, and the handler has no failing path. *)
Theorem handleMessage_unrecognized (message : Message) (w : World) :
  recognized (command message) = false -> handleMessage message w = w.
Proof.
  unfold recognized, handleMessage. intros H.
  apply orb_false_iff in H as [_ ->]. reflexivity.
Qed.

Lemma handleMessage_unrecognized_witness :
  recognized (command {| command := "refresh"; data := "now" |}) = false /\
  handleMessage {| command := "refresh"; data := "now" |} shown = shown.
Proof.
  split; [reflexivity | apply handleMessage_unrecognized; reflexivity].
Defined.

(** ** Construction *)

(** The constructor, in closed form. *)
Lemma new_Webview_eq (h : nat) (uri : Uri) (w : World) :
  new_Webview h uri w =
  (length (instances w),
   {| env := env w;
      currentPanel := currentPanel w;
      instances := instances w ++
        [{| panel := h; extensionUri := uri;
            disposables := [nextSub w; S (nextSub w); S (S (nextSub w))] |}];
      panels := alter (with_html (markup_of uri w)) h (panels w);
      subs := subs w ++
        [{| sub_id := nextSub w; sub_panel := h;
            sub_listener := OnDispose (length (instances w)) |};
         {| sub_id := S (nextSub w); sub_panel := h;
            sub_listener := HandleMessage |};
         {| sub_id := S (S (nextSub w)); sub_panel := h;
            sub_listener := OnViewState (length (instances w)) |}];
      nextSub := S (S (S (nextSub w)));
      promises := promises w;
      nonceCalls := S (nonceCalls w);
      randomCalls := randomCalls w;
      trace := EvSetHtml h (markup_of uri w) :: trace w |}).
Proof.
  unfold new_Webview, update. cbn [instances set_instances].
  rewrite lookup_snoc_last.
  unfold getHtmlForWebview, generateNonce, register, assign_html, markup_of,
    getWebviewUri.
  cbn. rewrite !alter_snoc_last. cbn.
  rewrite <- !app_assoc. reflexivity.
Qed.

(** [create], in closed form: a new surface with the construction-time
    options, wrapped by a new instance. *)
Lemma create_panel (uri : Uri) (col : ViewColumn) (w : World) :
  exists p,
    panels (snd (create uri col w)) !! length (panels w) = Some p /\
    options p = getOptions uri /\
    viewType p = Webview_viewType /\ title p = Webview_title.
Proof.
  unfold create, createWebviewPanel. rewrite new_Webview_eq. cbn.
  rewrite alter_snoc_last. rewrite lookup_snoc_last. eauto.
Qed.

(** C8: [revive(panel, extensionUri)] wraps the given surface in a new
    instance and stores it as the singleton.  No surface is created, the
    options of the surface (enableScripts, localResourceRoots) and its view
    type, title, column, visibility and disposed flag stay as the host set
    them, every other surface is untouched, and the only call into the host
    is the assignment of the markup; a fresh [create] is what applies
    [getOptions]. *)
Theorem revive_keeps_configuration (h : nat) (uri : Uri) (w : World)
    (p : WebviewPanel) :
  panels w !! h = Some p ->
  let w' := revive h uri w in
  let self := length (instances w) in
  currentPanel w' = Some self /\
  (exists i, instances w' !! self = Some i /\ panel i = h /\
             extensionUri i = uri) /\
  length (instances w') = S (length (instances w)) /\
  length (panels w') = length (panels w) /\
  (exists p', panels w' !! h = Some p' /\
     options p' = options p /\ viewType p' = viewType p /\
     title p' = title p /\ viewColumn p' = viewColumn p /\
     visible p' = visible p /\ disposed p' = disposed p) /\
  (forall h', h' <> h -> panels w' !! h' = panels w !! h') /\
  trace w' = EvSetHtml h (markup_of uri w) :: trace w /\
  (exists q, panels (snd (create uri Webview_viewColumn w)) !! length (panels w)
             = Some q /\ options q = getOptions uri).
Proof.
  intros Hp w' self. subst w' self. unfold revive.
  rewrite new_Webview_eq. cbn.
  repeat split.
  - eexists. split; [apply lookup_snoc_last | done].
  - rewrite length_app. cbn. lia.
  - apply length_alter.
  - exists (with_html (markup_of uri w) p). split; [|done].
    by rewrite list_lookup_alter_eq, Hp.
  - intros h' Hne. by apply list_lookup_alter_ne.
  - destruct (create_panel uri Webview_viewColumn w) as (q & Hq & Ho & _).
    eauto.
Qed.

Lemma revive_keeps_configuration_witness :
  let host_panel :=
    {| viewType := Webview_viewType; title := "Restored";
       viewColumn := ViewColumn_One;
       options := {| enableScripts := false; localResourceRoots := None |};
       html := EmptyString; visible := false; disposed := false |} in
  let w := set_panels [host_panel] (initial sample_env) in
  exists p', panels (revive 0 "/ext" w) !! 0 = Some p' /\
             options p' = options host_panel.
Proof.
  intros host_panel w.
  destruct (revive_keeps_configuration 0 "/ext" w host_panel eq_refl)
    as (_ & _ & _ & _ & (p' & Hp' & Ho & _) & _).
  exists p'. split; assumption.
Defined.

(** ** Reveal or create *)

(** [render] with a tracked instance: the surface is revealed and one
    handshake listener is registered; nothing is constructed. *)
Lemma render_tracked (uri : Uri) (col : ViewColumn) (w : World) (c : nat)
    (i : Webview) :
  currentPanel w = Some c -> instances w !! c = Some i ->
  render uri col w =
  (length (promises w),
   {| env := env w;
      currentPanel := Some c;
      instances :=
        alter (fun i => with_disposables (disposables i ++ [nextSub w]) i) c
          (instances w);
      panels := panels w;
      subs := subs w ++
        [{| sub_id := nextSub w; sub_panel := panel i;
            sub_listener := Handshake (length (promises w)) |}];
      nextSub := S (nextSub w);
      promises := promises w ++ [Pending];
      nonceCalls := nonceCalls w;
      randomCalls := randomCalls w;
      trace := EvReveal (panel i) col :: trace w |}).
Proof.
  intros Hc Hi. unfold render. rewrite Hc, Hi. cbn. rewrite Hc, Hi.
  unfold register, reveal. world_fields; done.
Qed.

(** [render] without a tracked instance: one surface and one instance are
    constructed, the instance becomes the singleton and gets the handshake
    listener as its fourth registration. *)
Lemma render_absent (uri : Uri) (col : ViewColumn) (w : World) :
  currentPanel w = None ->
  render uri col w =
  (length (promises w),
   {| env := env w;
      currentPanel := Some (length (instances w));
      instances := instances w ++
        [{| panel := length (panels w); extensionUri := uri;
            disposables := [nextSub w; S (nextSub w); S (S (nextSub w));
                            S (S (S (nextSub w)))] |}];
      panels := panels w ++
        [{| viewType := Webview_viewType; title := Webview_title;
            viewColumn := col; options := getOptions uri;
            html := markup_of uri w; visible := true; disposed := false |}];
      subs := subs w ++
        [{| sub_id := nextSub w; sub_panel := length (panels w);
            sub_listener := OnDispose (length (instances w)) |};
         {| sub_id := S (nextSub w); sub_panel := length (panels w);
            sub_listener := HandleMessage |};
         {| sub_id := S (S (nextSub w)); sub_panel := length (panels w);
            sub_listener := OnViewState (length (instances w)) |};
         {| sub_id := S (S (S (nextSub w))); sub_panel := length (panels w);
            sub_listener := Handshake (length (promises w)) |}];
      nextSub := S (S (S (S (nextSub w))));
      promises := promises w ++ [Pending];
      nonceCalls := S (nonceCalls w);
      randomCalls := randomCalls w;
      trace := EvSetHtml (length (panels w)) (markup_of uri w)
               :: EvCreatePanel (length (panels w)) :: trace w |}).
Proof.
  intros Hc. unfold render. rewrite Hc. unfold create, createWebviewPanel.
  rewrite new_Webview_eq. cbn.
  rewrite lookup_snoc_last. unfold register.
  world_fields; try done.
  - by rewrite !alter_snoc_last.
  - by rewrite alter_snoc_last.
  - by rewrite <- !app_assoc.
Qed.

Lemma render_tracked_valid (uri : Uri) (col : ViewColumn) (w : World) :
  tracked_valid w ->
  tracked_valid (snd (render uri col w)) /\
  is_Some (currentPanel (snd (render uri col w))).
Proof.
  unfold tracked_valid. intros Hv.
  destruct (currentPanel w) as [c|] eqn:Hc.
  - destruct Hv as [i Hi]. rewrite (render_tracked _ _ _ _ _ Hc Hi). cbn.
    split; [|eauto]. rewrite list_lookup_alter_eq, Hi. cbn. eauto.
  - rewrite (render_absent _ _ _ Hc). cbn. split; [|eauto].
    rewrite lookup_snoc_last. eauto.
Qed.

Lemma render_counts (uri : Uri) (col : ViewColumn) (w : World) :
  tracked_valid w ->
  let w' := snd (render uri col w) in
  match currentPanel w with
  | Some c =>
      currentPanel w' = Some c /\
      length (instances w') = length (instances w) /\
      length (panels w') = length (panels w)
  | None =>
      currentPanel w' = Some (length (instances w)) /\
      length (instances w') = S (length (instances w)) /\
      length (panels w') = S (length (panels w))
  end.
Proof.
  unfold tracked_valid. intros Hv.
  destruct (currentPanel w) as [c|] eqn:Hc.
  - destruct Hv as [i Hi]. rewrite (render_tracked _ _ _ _ _ Hc Hi). cbn.
    by rewrite length_alter.
  - rewrite (render_absent _ _ _ Hc). cbn. rewrite !length_app. cbn.
    repeat split; lia.
Qed.

Lemma render_all_cons (uri : Uri) (col : ViewColumn)
    (calls : list (Uri * ViewColumn)) (w : World) :
  render_all ((uri, col) :: calls) w
  = render_all calls (snd (render uri col w)).
Proof. reflexivity. Qed.

Lemma render_all_counts (calls : list (Uri * ViewColumn)) (w : World) :
  tracked_valid w -> is_Some (currentPanel w) ->
  let w' := render_all calls w in
  tracked_valid w' /\ currentPanel w' = currentPanel w /\
  length (instances w') = length (instances w) /\
  length (panels w') = length (panels w).
Proof.
  revert w. induction calls as [|[uri col] calls IH]; intros w Hv Hs; [done|].
  destruct Hs as [c Hc].
  pose proof (render_counts uri col w Hv) as Hstep.
  pose proof (render_tracked_valid uri col w Hv) as [Hv' Hs'].
  rewrite Hc in Hstep. destruct Hstep as (Hc' & Hi & Hp).
  destruct (IH _ Hv' Hs') as (Hv2 & Hc2 & Hi2 & Hp2).
  rewrite render_all_cons.
  repeat split; [done|congruence..].
Qed.

(** C1: the singleton.  (a) However many times [render] is called on a
    fresh host, and with whatever arguments, at most one instance and at
    most one surface have been constructed, and the tracked instance is
    that one.  (b) A [render] while an instance is tracked keeps that
    instance as the singleton, constructs nothing and asks the host to
    reveal its surface.  (c) A [render] while none is tracked constructs
    exactly one surface and one instance and stores the instance as the
    singleton. *)
Theorem render_singleton :
  (forall (e : Env) (calls : list (Uri * ViewColumn)),
     let w := render_all calls (initial e) in
     length (instances w) <= 1 /\ length (panels w) <= 1 /\
     (calls <> [] -> currentPanel w = Some 0 /\ length (instances w) = 1)) /\
  (forall (uri : Uri) (col : ViewColumn) (w : World) (c : nat) (i : Webview),
     currentPanel w = Some c -> instances w !! c = Some i ->
     let w' := snd (render uri col w) in
     currentPanel w' = Some c /\
     length (instances w') = length (instances w) /\
     panels w' = panels w /\
     trace w' = EvReveal (panel i) col :: trace w) /\
  (forall (uri : Uri) (col : ViewColumn) (w : World),
     currentPanel w = None ->
     let w' := snd (render uri col w) in
     currentPanel w' = Some (length (instances w)) /\
     length (instances w') = S (length (instances w)) /\
     length (panels w') = S (length (panels w)) /\
     trace w' = EvSetHtml (length (panels w)) (markup_of uri w)
                :: EvCreatePanel (length (panels w)) :: trace w).
Proof.
  split; [|split].
  - intros e [|[uri col] calls].
    { cbn. split; [lia|]. split; [lia|done]. }
    intros w. subst w.
    rewrite render_all_cons.
    assert (Hv : tracked_valid (initial e)) by exact I.
    pose proof (render_tracked_valid uri col _ Hv) as [Hv' Hs'].
    pose proof (render_counts uri col _ Hv) as Hstep.
    assert (Hnone : currentPanel (initial e) = None) by reflexivity.
    rewrite Hnone in Hstep.
    destruct Hstep as (Hc & Hi & Hp).
    destruct (render_all_counts calls _ Hv' Hs') as (_ & Hc2 & Hi2 & Hp2).
    rewrite Hc in Hc2. rewrite Hi2, Hp2, Hi, Hp, Hc2. cbn.
    split; [lia|]. split; [lia|]. intros _. split; [done|lia].
  - intros uri col w c i Hc Hi w'. subst w'.
    rewrite (render_tracked _ _ _ _ _ Hc Hi). cbn.
    by rewrite length_alter.
  - intros uri col w Hc w'. subst w'.
    rewrite (render_absent _ _ _ Hc). cbn. rewrite !length_app. cbn.
    repeat split; lia.
Qed.

Lemma render_singleton_witness :
  currentPanel shown = Some 0 /\
  length (instances (snd (render "/other" ViewColumn_One shown))) = 1.
Proof.
  destruct render_singleton as (_ & Htracked & _).
  destruct (Htracked "/other" ViewColumn_One shown 0
              {| panel := 0; extensionUri := "/ext";
                 disposables := [0; 1; 2; 3] |} eq_refl eq_refl)
    as (Hc & Hi & _).
  split; [reflexivity | exact Hi].
Defined.

(** ** Visibility changes *)

Lemma listeners_on_panels (h : nat) (k : EventKind) (l : list WebviewPanel)
    (w : World) :
  listeners_on h k (set_panels l w) = listeners_on h k w.
Proof. reflexivity. Qed.

(** [update()] of the first variant on a valid instance. *)
Lemma update_eq (self : nat) (i : Webview) (w : World) :
  instances w !! self = Some i ->
  update self w =
  assign_html (panel i) (markup_of (extensionUri i) w)
    (set_nonceCalls (S (nonceCalls w)) w).
Proof. intros Hi. unfold update. rewrite Hi. reflexivity. Qed.

(** C7 (as the code has it): on a view-state change of the surface of an
    instance, if the surface is visible the listener regenerates the whole
    markup with a nonce from a new call of [generateNonce] and assigns it
    as the content of the surface; the title is not assigned and stays
    what it was.  If the surface is not visible, nothing is regenerated:
    only the host's visibility flag differs.  In the second variant the
    same listener also assigns the title 'WEBVIEW'. *)
Theorem viewState_regenerates (h self : nat) (w : World) (i : Webview)
    (p : WebviewPanel) (s : Subscription) :
  instances w !! self = Some i -> panel i = h -> panels w !! h = Some p ->
  disposed p = false ->
  listeners_on h DidChangeViewState w = [s] ->
  sub_listener s = OnViewState self ->
  (let w' := changeViewState h true w in
   let markup := markup_of (extensionUri i) w in
   nonceCalls w' = S (nonceCalls w) /\
   trace w' = EvSetHtml h markup :: trace w /\
   exists p', panels w' !! h = Some p' /\
     html p' = markup /\ title p' = title p /\ visible p' = true) /\
  changeViewState h false w
  = set_panels (alter (with_visible false) h (panels w)) w /\
  (visible p = true ->
   exists markup2,
     trace (Variant2.viewStateChanged self w)
     = EvSetHtml h markup2 :: EvSetTitle h "WEBVIEW" :: trace w).
Proof.
  intros Hi Hh Hp Hd Hl Hs.
  assert (Hlive : live h w = true) by (unfold live; by rewrite Hp, Hd).
  split; [|split].
  - unfold changeViewState. rewrite Hlive, listeners_on_panels, Hl. cbn.
    unfold deliver_viewState. rewrite Hs. cbn [instances set_panels].
    rewrite Hi, Hh. cbn [panels set_panels].
    rewrite list_lookup_alter_eq, Hp. cbn.
    rewrite (update_eq self i) by exact Hi.
    unfold assign_html. rewrite Hh. cbn.
    split; [reflexivity|]. split; [reflexivity|].
    eexists. rewrite list_lookup_alter_eq, list_lookup_alter_eq, Hp. cbn.
    split; [reflexivity|]. done.
  - unfold changeViewState. rewrite Hlive, listeners_on_panels, Hl. cbn.
    unfold deliver_viewState. rewrite Hs. cbn [instances set_panels].
    rewrite Hi, Hh. cbn [panels set_panels].
    rewrite list_lookup_alter_eq, Hp. reflexivity.
  - intros Hv. unfold Variant2.viewStateChanged, Variant2.update.
    rewrite Hi, Hh, Hp, Hv. cbn. eauto.
Qed.

Lemma viewState_regenerates_witness :
  exists p', panels (changeViewState 0 true shown) !! 0 = Some p' /\
             title p' = Webview_title.
Proof.
  destruct (viewState_regenerates 0 0 shown
              {| panel := 0; extensionUri := "/ext";
                 disposables := [0; 1; 2; 3] |}
              {| viewType := Webview_viewType; title := Webview_title;
                 viewColumn := Webview_viewColumn;
                 options := getOptions "/ext";
                 html := markup_of "/ext" (initial sample_env);
                 visible := true; disposed := false |}
              {| sub_id := 2; sub_panel := 0; sub_listener := OnViewState 0 |}
              eq_refl eq_refl eq_refl eq_refl eq_refl eq_refl)
    as ((_ & _ & p' & Hp' & _ & Ht & _) & _).
  exists p'. split; [exact Hp' | exact Ht].
Defined.

(** C7 as stated fails on the first variant: after a view-state change of
    the visible surface the host has seen no assignment of the title. *)
Lemma viewState_title_counterexample :
  ~ (exists s, EvSetTitle 0 s ∈ trace (changeViewState 0 true shown)).
Proof.
  intros [s Hin].
  assert (Hnone : forallb (fun e => negb (is_title_assignment e))
                    (trace (changeViewState 0 true shown)) = true)
    by (vm_compute; reflexivity).
  rewrite forallb_forall in Hnone.
  apply list_elem_of_In, Hnone in Hin. discriminate Hin.
Qed.

(** ** The handshake *)

Lemma deliver_message_promises (message : Message) (w : World)
    (s : Subscription) :
  promises (deliver_message message w s) =
  match sub_listener s with
  | Handshake q =>
      alter (fun old => match old with
                        | Pending => decision message
                        | _ => old
                        end) q (promises w)
  | _ => promises w
  end.
Proof.
  unfold deliver_message, decision, handleMessage.
  destruct (sub_listener s); try reflexivity;
    destruct (String.eqb (command message) _); reflexivity.
Qed.

(** A promise settled the way this message settles it stays so under
    every delivery; a pending one stays pending or gets settled that way,
    and the delivery to its own listener settles it. *)
Lemma deliver_message_settled (message : Message) (w : World)
    (s : Subscription) (p : nat) :
  promises w !! p = Some (decision message) ->
  promises (deliver_message message w s) !! p = Some (decision message).
Proof.
  intros Hp. rewrite deliver_message_promises.
  destruct (sub_listener s) as [?| |?|q]; try done.
  destruct (decide (q = p)) as [->|Hne].
  - rewrite list_lookup_alter_eq, Hp. cbn. by destruct (decision message).
  - by rewrite list_lookup_alter_ne.
Qed.

Lemma deliver_message_pending (message : Message) (w : World)
    (s : Subscription) (p : nat) :
  promises w !! p = Some Pending ->
  (sub_listener s <> Handshake p /\
   promises (deliver_message message w s) !! p = Some Pending) \/
  promises (deliver_message message w s) !! p = Some (decision message).
Proof.
  intros Hp. rewrite deliver_message_promises.
  destruct (sub_listener s) as [?| |?|q]; try (left; done).
  destruct (decide (q = p)) as [->|Hne].
  - right. by rewrite list_lookup_alter_eq, Hp.
  - left. split; [congruence|]. by rewrite list_lookup_alter_ne.
Qed.

Lemma receive_settled (message : Message) (ls : list Subscription)
    (w : World) (p : nat) :
  promises w !! p = Some (decision message) ->
  promises (foldl (deliver_message message) w ls) !! p
  = Some (decision message).
Proof.
  revert w. induction ls as [|s ls IH]; intros w Hp; [done|].
  cbn. apply IH. by apply deliver_message_settled.
Qed.

Lemma receive_settles (message : Message) (ls : list Subscription)
    (w : World) (p : nat) :
  promises w !! p = Some Pending ->
  (exists s, s ∈ ls /\ sub_listener s = Handshake p) ->
  promises (foldl (deliver_message message) w ls) !! p
  = Some (decision message).
Proof.
  revert w. induction ls as [|s ls IH]; intros w Hp (s0 & Hin & Hs0).
  - by apply elem_of_nil in Hin.
  - cbn.
    destruct (deliver_message_pending message w s p Hp) as [[Hne Hp']|Hp'].
    + apply IH; [done|]. exists s0. split; [|done].
      apply elem_of_cons in Hin as [->|Hin]; [congruence|done].
    + by apply receive_settled.
Qed.

(** Deliveries only add to the trace; the message handler adds the error
    notification for an 'error' message. *)
Lemma deliver_message_trace (message : Message) (w : World)
    (s : Subscription) :
  exists t, trace (deliver_message message w s) = t ++ trace w /\
    (sub_listener s = HandleMessage -> command message = "error" ->
     EvShowErrorMessage (data message) ∈ t).
Proof.
  unfold deliver_message, handleMessage, resolve, reject.
  destruct (sub_listener s) as [?| |?|q].
  - exists []. done.
  - destruct (String.eqb (command message) "error") eqn:He.
    + exists [EvShowErrorMessage (data message)]. split; [done|].
      intros _ _. apply list_elem_of_singleton. done.
    + exists []. split; [done|]. intros _ Hc. rewrite Hc in He. done.
  - exists []. done.
  - destruct (String.eqb (command message) "ready");
      eexists [_]; (split; [reflexivity|done]).
Qed.

Lemma receive_trace (message : Message) (ls : list Subscription) (w : World) :
  exists t, trace (foldl (deliver_message message) w ls) = t ++ trace w /\
    ((exists s, s ∈ ls /\ sub_listener s = HandleMessage) ->
     command message = "error" -> EvShowErrorMessage (data message) ∈ t).
Proof.
  revert w. induction ls as [|s ls IH]; intros w.
  - exists []. split; [done|]. intros (s0 & Hin & _).
    by apply elem_of_nil in Hin.
  - cbn. destruct (deliver_message_trace message w s) as (t1 & Ht1 & Herr1).
    destruct (IH (deliver_message message w s)) as (t2 & Ht2 & Herr2).
    exists (t2 ++ t1). split; [by rewrite Ht2, Ht1, app_assoc|].
    intros (s0 & Hin & Hs0) Hc. apply elem_of_app.
    apply elem_of_cons in Hin as [->|Hin]; [right; auto|left].
    apply Herr2; eauto.
Qed.

Lemma elem_of_listeners_on (s : Subscription) (h : nat) (k : EventKind)
    (w : World) :
  s ∈ listeners_on h k w <->
  (sub_panel s = h /\ kind_of (sub_listener s) = k) /\ s ∈ subs w.
Proof. unfold listeners_on. by rewrite list_elem_of_filter. Qed.

(** C2: take any world in which the tracked instance, if there is one,
    has its message handler registered (every world [render] itself has
    produced is such), call [render], and let the first inbound message
    arrive on the tracked surface.  The promise returned by the call was
    pending; it is resolved if the command is 'ready' and rejected for any
    other command.  If the command is 'error', the delivery has also put
    the error notification with the text of the message into the trace. *)
Theorem handshake_first_message (uri : Uri) (col : ViewColumn) (w : World)
    (message : Message) :
  handler_installed w ->
  let p := fst (render uri col w) in
  let w1 := snd (render uri col w) in
  exists c i,
    currentPanel w1 = Some c /\ instances w1 !! c = Some i /\
    promises w1 !! p = Some Pending /\
    let w2 := receiveMessage (panel i) message w1 in
    (command message = "ready" -> promises w2 !! p = Some Resolved) /\
    (command message <> "ready" -> promises w2 !! p = Some Rejected) /\
    (command message = "error" ->
     exists t, trace w2 = t ++ trace w1 /\
               EvShowErrorMessage (data message) ∈ t).
Proof.
  intros Hinst p w1.
  assert (Hcore : exists c i,
    currentPanel w1 = Some c /\ instances w1 !! c = Some i /\
    promises w1 !! p = Some Pending /\
    live (panel i) w1 = true /\
    (exists s, s ∈ listeners_on (panel i) DidReceiveMessage w1 /\
               sub_listener s = Handshake p) /\
    (exists s, s ∈ listeners_on (panel i) DidReceiveMessage w1 /\
               sub_listener s = HandleMessage)).
  { subst p w1. unfold handler_installed in Hinst.
    destruct (currentPanel w) as [c|] eqn:Hc.
    - destruct Hinst as (i & s & Hi & Hlive & Hs & Hsp & Hsl).
      rewrite (render_tracked _ _ _ _ _ Hc Hi). cbn -[listeners_on live].
      exists c, (with_disposables (disposables i ++ [nextSub w]) i).
      split; [done|]. split; [by rewrite list_lookup_alter_eq, Hi|].
      split; [apply lookup_snoc_last|]. cbn -[listeners_on live].
      split; [exact Hlive|]. split.
      + exists {| sub_id := nextSub w; sub_panel := panel i;
                  sub_listener := Handshake (length (promises w)) |}.
        split; [|reflexivity].
        apply elem_of_listeners_on. cbn. split; [done|].
        apply elem_of_app. right. by apply list_elem_of_singleton.
      + exists s. split; [|done].
        apply elem_of_listeners_on. rewrite Hsl. cbn. split; [done|].
        apply elem_of_app. by left.
    - rewrite (render_absent _ _ _ Hc). cbn -[listeners_on live].
      eexists _, _. split; [reflexivity|].
      split; [apply lookup_snoc_last|].
      split; [apply lookup_snoc_last|]. cbn -[listeners_on live].
      split; [unfold live; cbn; by rewrite lookup_snoc_last|]. split.
      + exists {| sub_id := S (S (S (nextSub w)));
                  sub_panel := length (panels w);
                  sub_listener := Handshake (length (promises w)) |}.
        split; [|reflexivity].
        apply elem_of_listeners_on. cbn. split; [done|].
        apply elem_of_app. right. do 3 apply list_elem_of_further.
        apply list_elem_of_here.
      + exists {| sub_id := S (nextSub w); sub_panel := length (panels w);
                  sub_listener := HandleMessage |}.
        split; [|reflexivity].
        apply elem_of_listeners_on. cbn. split; [done|].
        apply elem_of_app. right. apply list_elem_of_further.
        apply list_elem_of_here. }
  destruct Hcore as (c & i & Hc & Hi & Hp & Hlive & Hhs & Hhm).
  exists c, i. split; [done|]. split; [done|]. split; [done|].
  intros w2. subst w2. unfold receiveMessage. rewrite Hlive.
  pose proof (receive_settles message _ w1 p Hp Hhs) as Hset.
  unfold decision in Hset. split; [|split].
  - intros Hr. rewrite Hr in Hset. exact Hset.
  - intros Hr. apply String.eqb_neq in Hr. rewrite Hr in Hset. exact Hset.
  - intros He.
    destruct (receive_trace message
                (listeners_on (panel i) DidReceiveMessage w1) w1)
      as (t & Ht & Herr).
    exists t. split; [done|]. by apply Herr.
Qed.

Lemma handshake_first_message_witness :
  let w1 := snd (render "/ext" Webview_viewColumn (initial sample_env)) in
  let bad := {| command := "error"; data := "x" |} in
  promises (receiveMessage 0 {| command := "ready"; data := EmptyString |} w1)
    !! 0 = Some Resolved /\
  promises (receiveMessage 0 bad w1) !! 0 = Some Rejected /\
  EvShowErrorMessage "x" ∈ trace (receiveMessage 0 bad w1).
Proof.
  intros w1 bad.
  destruct (handshake_first_message "/ext" Webview_viewColumn
              (initial sample_env)
              {| command := "ready"; data := EmptyString |} I)
    as (c & i & Hc & Hi & _ & Hready & _).
  destruct (handshake_first_message "/ext" Webview_viewColumn
              (initial sample_env) bad I)
    as (c' & i' & Hc' & Hi' & _ & _ & Hrej & Herr).
  assert (c = 0) as -> by (cbv in Hc; congruence).
  assert (c' = 0) as -> by (cbv in Hc'; congruence).
  assert (panel i = 0) as Hpi by (cbv in Hi; injection Hi as <-; reflexivity).
  assert (panel i' = 0) as Hpi' by (cbv in Hi'; injection Hi' as <-; reflexivity).
  rewrite Hpi in Hready. rewrite Hpi' in Hrej, Herr.
  split; [exact (Hready eq_refl)|]. split; [apply Hrej; discriminate|].
  destruct (Herr eq_refl) as (t & Ht & Hin). subst w1 bad.
  rewrite Ht. apply elem_of_app. by left.
Defined.

(** ** Handshake listeners pile up *)

Lemma handshake_subs_S (n : nat) :
  handshake_subs (S n) = handshake_subs n ++ [handshake_sub n].
Proof. unfold handshake_subs. by rewrite seq_S, fmap_app. Qed.

Lemma rendered_first (e : Env) (uri : Uri) (col : ViewColumn) :
  rendered 1 (snd (render uri col (initial e))).
Proof.
  rewrite render_absent by reflexivity. cbn.
  repeat split; eauto.
Qed.

Lemma rendered_next (n : nat) (uri : Uri) (col : ViewColumn) (w : World) :
  rendered n w -> rendered (S n) (snd (render uri col w)).
Proof.
  intros (Hc & (u & Hi) & (p & Hp & Hd) & Hs & Hn & Hpr).
  assert (Hi0 : instances w !! 0 =
    Some {| panel := 0; extensionUri := u; disposables := seq 0 (3 + n) |})
    by (by rewrite Hi).
  rewrite (render_tracked _ _ _ _ _ Hc Hi0). cbn -[seq].
  assert (Hlen : length (promises w) = n)
    by (by rewrite Hpr, length_replicate).
  repeat split.
  - exists u. rewrite Hi, Hn. cbn -[seq]. unfold with_disposables.
    cbn -[seq]. by rewrite (seq_S (S (S (S n)))).
  - eauto.
  - rewrite Hs, Hn, Hlen, handshake_subs_S, <- app_assoc. reflexivity.
  - by rewrite Hn.
  - by rewrite Hpr, replicate_S_end.
Qed.

Lemma rendered_run (calls : list (Uri * ViewColumn)) (n : nat) (w : World) :
  rendered n w -> rendered (length calls + n) (render_all calls w).
Proof.
  revert n w. induction calls as [|[uri col] calls IH]; intros n w Hw; [done|].
  rewrite render_all_cons.
  replace (length ((uri, col) :: calls) + n) with (length calls + S n)
    by (cbn; lia).
  apply IH. by apply rendered_next.
Qed.

Lemma rendered_all (e : Env) (calls : list (Uri * ViewColumn)) :
  calls <> [] -> rendered (length calls) (render_all calls (initial e)).
Proof.
  destruct calls as [|[uri col] calls]; [done|]. intros _.
  rewrite render_all_cons.
  replace (length ((uri, col) :: calls)) with (length calls + 1)
    by (cbn; lia).
  apply rendered_run, rendered_first.
Qed.

(** ** Disposal *)

Lemma with_disposables_same (i : Webview) :
  with_disposables (disposables i) i = i.
Proof. by destruct i. Qed.

Lemma alter_same {A} (f : A -> A) (l : list A) (k : nat) (x : A) :
  l !! k = Some x -> f x = x -> alter f k l = l.
Proof.
  intros Hl Hf. apply list_eq. intros j.
  destruct (decide (k = j)) as [<-|Hne].
  - by rewrite list_lookup_alter_eq, Hl; cbn; rewrite Hf.
  - by rewrite list_lookup_alter_ne.
Qed.

Lemma filter_all {A} (P : A -> Prop) `{!forall x, Decision (P x)} (l : list A) :
  (forall x, x ∈ l -> P x) -> filter P l = l.
Proof.
  induction l as [|x l IH]; intros Hall; [done|].
  rewrite filter_cons_True by (apply Hall; left).
  f_equal. apply IH. intros y Hy. apply Hall. by right.
Qed.

Lemma popped_nil (rest : list nat) (self : nat) (w : World) (i : Webview) :
  instances w !! self = Some i -> disposables i = rev rest ->
  popped [] rest self w = w.
Proof.
  intros Hi Hd. unfold popped. destruct w. cbn in *. f_equal.
  - apply (alter_same _ _ _ i); [done|].
    rewrite <- Hd. apply with_disposables_same.
  - apply filter_all. intros s _. apply not_elem_of_nil.
Qed.

(** The loop over handles that do not throw. *)
Lemma drain_app (pre rest : list nat) (self : nat) (w : World) (i : Webview) :
  instances w !! self = Some i -> disposables i = rev (pre ++ rest) ->
  (forall d, d ∈ pre -> throwing (env w) d = false) ->
  drain (pre ++ rest) self w = drain rest self (popped pre rest self w).
Proof.
  revert w i. induction pre as [|d pre IH]; intros w i Hi Hd Hok.
  - cbn [app]. by rewrite (popped_nil rest self w i).
  - cbn [app drain]. unfold disposable_dispose. cbn [env set_instances emit].
    rewrite (Hok d) by left.
    erewrite IH; cycle 1.
    + cbn. rewrite list_lookup_alter_eq, Hi. reflexivity.
    + reflexivity.
    + intros d' Hd'. cbn. apply Hok. by right.
    + f_equal. unfold popped. cbn. f_equal.
      * rewrite list_alter_alter_eq. reflexivity.
      * rewrite list_filter_filter. apply list_filter_iff. intros s.
        rewrite not_elem_of_cons. tauto.
      * rewrite fmap_app. cbn. by rewrite <- app_assoc.
Qed.

Lemma drain_all (stack : list nat) (self : nat) (w : World) (i : Webview) :
  instances w !! self = Some i -> disposables i = rev stack ->
  (forall d, d ∈ stack -> throwing (env w) d = false) ->
  drain stack self w = (Returned, popped stack [] self w).
Proof.
  intros Hi Hd Hok.
  rewrite <- (app_nil_r stack) at 1.
  rewrite (drain_app stack [] self w i); [done|done| |done].
  by rewrite app_nil_r.
Qed.


Lemma disposals_app (l : list nat) (t : list Event) :
  disposals ((EvDisposableDispose <$> l) ++ t) = l ++ disposals t.
Proof.
  induction l as [|d l IH]; [done|]. cbn. unfold disposals in *. cbn.
  by rewrite IH.
Qed.

(** [dispose()] unfolds into its three steps, in this order: the singleton
    is cleared, the surface is disposed in the cleared world, the array is
    drained. *)
Lemma dispose_steps (fuel self : nat) (w : World) (i : Webview) :
  instances w !! self = Some i ->
  dispose (S fuel) self w =
  match surface_dispose (fun s w' => snd <$> dispose fuel s w') (panel i)
          (cleared (panel i) w) with
  | Some w2 =>
      match instances w2 !! self with
      | Some i2 => Some (drain (rev (disposables i2)) self w2)
      | None => Some (Returned, w2)
      end
  | None => None
  end.
Proof. intros Hi. cbn [dispose]. rewrite Hi. reflexivity. Qed.

(** [dispose()] of an instance whose surface is disposed already (the call
    made by the [onDidDispose] listener): only the drain is left. *)
Lemma dispose_closed (fuel self : nat) (w : World) (i : Webview)
    (p : WebviewPanel) :
  instances w !! self = Some i -> panels w !! panel i = Some p ->
  disposed p = true ->
  dispose (S fuel) self w
  = Some (drain (rev (disposables i)) self (cleared (panel i) w)).
Proof.
  intros Hi Hp Hd. rewrite (dispose_steps _ _ _ i Hi).
  unfold surface_dispose.
  change (panels (cleared (panel i) w)) with (panels w).
  rewrite Hp, Hd.
  change (instances (cleared (panel i) w)) with (instances w).
  by rewrite Hi.
Qed.

(** [dispose()] of an instance whose surface is still open and has the
    instance's own listener as its only [onDidDispose] listener: the
    listener's nested call drains, the host drops what is left on the
    surface, and the outer loop runs on what the nested call left. *)
Lemma dispose_open (fuel self : nat) (w : World) (i : Webview)
    (p : WebviewPanel) :
  instances w !! self = Some i -> panels w !! panel i = Some p ->
  disposed p = false -> owns_disposal self (panel i) w ->
  let h := panel i in
  let marked :=
    set_panels (alter (with_disposed true) h (panels w)) (cleared h w) in
  let inner := drain (rev (disposables i)) self (cleared h marked) in
  let dropped :=
    set_subs (filter (fun s => sub_panel s <> h) (subs (snd inner)))
      (snd inner) in
  dispose (S (S fuel)) self w =
  match instances dropped !! self with
  | Some i2 => Some (drain (rev (disposables i2)) self dropped)
  | None => Some (Returned, dropped)
  end.
Proof.
  intros Hi Hp Hd (s & Hl & Hs) h marked inner dropped.
  subst dropped inner. subst h.
  rewrite (dispose_steps _ _ _ i Hi).
  unfold surface_dispose.
  change (panels (cleared (panel i) w)) with (panels w).
  rewrite Hp, Hd. fold marked.
  change (listeners_on (panel i) DidDispose marked)
    with (listeners_on (panel i) DidDispose w).
  rewrite Hl. cbn [fire_dispose]. rewrite Hs.
  rewrite (dispose_closed fuel self marked i (with_disposed true p)).
  - reflexivity.
  - exact Hi.
  - subst marked. cbn. by rewrite list_lookup_alter_eq, Hp.
  - reflexivity.
Qed.


Lemma elem_of_rev {A} (x : A) (l : list A) : x ∈ rev l <-> x ∈ l.
Proof. rewrite !list_elem_of_In. symmetry. apply in_rev. Qed.



(** What [dispose()] leaves when no cleanup handle of the instance throws. *)
Lemma dispose_quiet (fuel self : nat) (w : World) (i : Webview)
    (p : WebviewPanel) :
  instances w !! self = Some i -> panels w !! panel i = Some p ->
  (disposed p = false -> owns_disposal self (panel i) w) ->
  (forall d, d ∈ disposables i -> throwing (env w) d = false) ->
  exists w',
    dispose (S (S fuel)) self w = Some (Returned, w') /\
    env w' = env w /\
    currentPanel w' = None /\
    instances w' = alter (with_disposables []) self (instances w) /\
    panels w' = alter (with_disposed true) (panel i) (panels w) /\
    promises w' = promises w /\
    disposals (trace w') = disposables i ++ disposals (trace w) /\
    (forall s, s ∈ subs w' -> (sub_id s ∉ disposables i) /\ (s ∈ subs w)).
Proof.
  intros Hi Hp Hown Hok.
  assert (Hok' : forall w0, env w0 = env w ->
            forall d, d ∈ rev (disposables i) -> throwing (env w0) d = false).
  { intros w0 -> d Hd. apply Hok. by apply elem_of_rev. }
  destruct (disposed p) eqn:Hd.
  - rewrite (dispose_closed _ _ _ i p Hi Hp Hd).
    rewrite (drain_all _ self _ i); [|done|by rewrite rev_involutive|by apply Hok'].
    eexists. split; [reflexivity|]. cbn.
    rewrite rev_involutive, disposals_app.
    repeat split; try done.
    + symmetry. apply (alter_same _ _ _ p); [done|].
      clear -Hd. destruct p; cbn in *. by subst.
    + apply list_elem_of_filter in H as [Hs _].
      by rewrite elem_of_rev in Hs.
    + by apply list_elem_of_filter in H as [_ Hs].
  - rewrite (dispose_open fuel self w i p Hi Hp Hd (Hown eq_refl)).
    rewrite (drain_all _ self _ i); [|done|by rewrite rev_involutive|by apply Hok'].
    cbn [snd].
    set (inner := popped _ _ _ _).
    assert (Hi2 : instances
              (set_subs (filter (fun s => sub_panel s <> panel i) (subs inner))
                 inner) !! self = Some (with_disposables [] i)).
    { subst inner. cbn. by rewrite list_lookup_alter_eq, Hi. }
    rewrite Hi2. cbn [disposables with_disposables rev drain].
    eexists. split; [reflexivity|]. subst inner. cbn.
    rewrite rev_involutive, disposals_app.
    repeat split; try done.
    + apply list_elem_of_filter in H as [_ H].
      apply list_elem_of_filter in H as [Hs _].
      by rewrite elem_of_rev in Hs.
    + apply list_elem_of_filter in H as [_ H].
      by apply list_elem_of_filter in H as [_ Hs].
Qed.









(** The same on the sample host from the outside: the user closes the
    rendered surface while the second handle throws.  The host swallows
    the exception of the listener; handle 0 has not been invoked and is
    still on the array of the instance. *)
Example close_with_throwing_handle :
  (w' ← closePanel 1 0 faulty_shown;
   i' ← instances w' !! 0;
   Some (disposals (trace w'), disposables i', currentPanel w'))
  = Some ([1; 2; 3], [0], None).
Proof. vm_compute. reflexivity. Qed.

(** ** Disposal and the handshake promise *)

Lemma fades_refl (w : World) : fades w w.
Proof. by repeat split. Qed.

Lemma fades_trans (w1 w2 w3 : World) :
  fades w1 w2 -> fades w2 w3 -> fades w1 w3.
Proof.
  intros (Hp1 & Hs1 & Hg1) (Hp2 & Hs2 & Hg2). repeat split.
  - congruence.
  - auto.
  - auto.
Qed.

Lemma drain_fades (stack : list nat) (self : nat) (w : World) :
  fades w (snd (drain stack self w)) /\
  panels (snd (drain stack self w)) = panels w.
Proof.
  revert w. induction stack as [|d stack IH]; intros w.
  - split; [apply fades_refl | done].
  - cbn [drain]. unfold disposable_dispose.
    destruct (throwing _ d).
    + cbn. split; [|done]. by repeat split.
    + match goal with |- context [drain stack self ?w1] =>
        destruct (IH w1) as [Hf Hp]; split;
          [apply (fades_trans _ w1)|]
      end.
      * repeat split; cbn; [|done].
        intros s Hs. by apply list_elem_of_filter in Hs as [_ Hs].
      * exact Hf.
      * rewrite Hp. reflexivity.
Qed.

Lemma fire_dispose_fades (cb : nat -> World -> option World)
    (ls : list Subscription) (w w' : World) :
  (forall s w1 w2, cb s w1 = Some w2 -> fades w1 w2) ->
  fire_dispose cb ls w = Some w' -> fades w w'.
Proof.
  intros Hcb. revert w. induction ls as [|s ls IH]; intros w Hrun.
  - injection Hrun as <-. apply fades_refl.
  - cbn in Hrun. destruct (sub_listener s) as [self| |self|q]; try by apply IH.
    destruct (cb self w) as [w1|] eqn:Hw1; [|done].
    apply (fades_trans _ w1); [by apply (Hcb self)|by apply IH].
Qed.

Lemma gone_mark (h h' : nat) (w : World) :
  gone h' w = true ->
  gone h' (set_panels (alter (with_disposed true) h (panels w)) w) = true.
Proof.
  unfold gone. cbn. destruct (decide (h = h')) as [->|Hne].
  - rewrite list_lookup_alter_eq. by destruct (panels w !! h').
  - by rewrite list_lookup_alter_ne.
Qed.

Lemma surface_dispose_fades (cb : nat -> World -> option World) (h : nat)
    (w w' : World) :
  (forall s w1 w2, cb s w1 = Some w2 -> fades w1 w2) ->
  surface_dispose cb h w = Some w' ->
  fades w w' /\ (is_Some (panels w !! h) -> gone h w' = true).
Proof.
  intros Hcb. unfold surface_dispose.
  destruct (panels w !! h) as [p|] eqn:Hp.
  - destruct (disposed p) eqn:Hd.
    + intros [= <-]. split; [apply fades_refl|]. intros _.
      unfold gone. by rewrite Hp.
    + destruct (fire_dispose cb _ _) as [w2|] eqn:Hfire; [|done].
      intros [= <-].
      apply (fire_dispose_fades cb _ _ _ Hcb) in Hfire
        as (Hpr & Hsub & Hgone).
      split.
      * repeat split.
        -- exact Hpr.
        -- cbn. intros s Hs. apply list_elem_of_filter in Hs as [_ Hs].
           by apply Hsub in Hs.
        -- intros h' Hh'. apply (gone_mark h) in Hh'.
           by apply Hgone in Hh'.
      * intros _. change (gone h w2 = true). apply Hgone.
        unfold gone. cbn. by rewrite list_lookup_alter_eq, Hp.
  - intros [= <-]. split; [apply fades_refl|]. by intros [? ?].
Qed.

(** No step of [dispose()] touches a promise, adds a listener or revives
    a surface, whatever the fuel and the listeners; and the surface of
    the instance is disposed afterwards. *)
Lemma dispose_fades (fuel self : nat) (w : World) (r : Outcome * World) :
  dispose fuel self w = Some r ->
  fades w (snd r) /\
  (forall i, instances w !! self = Some i -> is_Some (panels w !! panel i) ->
             gone (panel i) (snd r) = true).
Proof.
  revert self w r. induction fuel as [|fuel IH]; intros self w r; [done|].
  cbn [dispose]. destruct (instances w !! self) as [i|] eqn:Hi.
  - destruct (surface_dispose _ _ _) as [w2|] eqn:Hsd; [|done].
    apply surface_dispose_fades in Hsd as [Hf Hg].
    + assert (Hend : forall r' : Outcome * World, fades w2 (snd r') ->
                panels (snd r') = panels w2 ->
                fades w (snd r') /\
                (forall i0, Some i = Some i0 -> is_Some (panels w !! panel i0) ->
                            gone (panel i0) (snd r') = true)).
      { intros r' Hf' Hp'. split.
        - apply (fades_trans _ w2); [|done].
          apply (fades_trans _ (cleared (panel i) w)); [|done].
          by repeat split.
        - intros i0 [= <-] Hsome. unfold gone. rewrite Hp'. by apply Hg. }
      destruct (instances w2 !! self) as [i2|].
      * intros [= <-]. apply Hend; apply drain_fades.
      * intros [= <-]. apply Hend; [apply fades_refl|done].
    + intros s w1 w3 Hcb.
      destruct (dispose fuel s w1) as [r1|] eqn:Hr1; [|done].
      injection Hcb as <-. by apply IH in Hr1 as [Hr1 _].
  - intros [= <-]. split; [apply fades_refl|]. by intros i0 [=].
Qed.

Lemma closePanel_fades (fuel h : nat) (w w' : World) :
  closePanel fuel h w = Some w' ->
  fades w w' /\ (is_Some (panels w !! h) -> gone h w' = true).
Proof.
  unfold closePanel. apply surface_dispose_fades.
  intros s w1 w2 Hcb.
  destruct (dispose fuel s w1) as [r1|] eqn:Hr1; [|done].
  injection Hcb as <-. by apply dispose_fades in Hr1 as [Hr1 _].
Qed.

(** *** Enough fuel *)

Lemma open_alter_same (f : WebviewPanel -> WebviewPanel) (h : nat)
    (l : list WebviewPanel) :
  (forall p, disposed (f p) = disposed p) ->
  length (filter (fun p => disposed p = false) (alter f h l))
  = length (filter (fun p => disposed p = false) l).
Proof.
  intros Hf. revert h. induction l as [|p l IH]; intros h; [done|].
  destruct h as [|h]; cbn [alter list_alter].
  - rewrite !filter_cons, Hf.
    by destruct (decide (disposed p = false)).
  - rewrite !filter_cons. destruct (decide (disposed p = false)); cbn;
      by rewrite IH.
Qed.

Lemma open_alter_mark (h : nat) (l : list WebviewPanel) (p : WebviewPanel) :
  l !! h = Some p -> disposed p = false ->
  S (length (filter (fun p => disposed p = false)
               (alter (with_disposed true) h l)))
  = length (filter (fun p => disposed p = false) l).
Proof.
  revert h. induction l as [|q l IH]; intros h Hl Hd; [done|].
  destruct h as [|h]; cbn [alter list_alter].
  - injection Hl as ->. rewrite filter_cons_False by done.
    by rewrite filter_cons_True.
  - rewrite !filter_cons. destruct (decide (disposed q = false)); cbn;
      by rewrite IH.
Qed.

Lemma fire_dispose_total (cb : nat -> World -> option World) (bound : nat)
    (ls : list Subscription) (w : World) :
  (forall s w1, open_surfaces w1 < bound ->
     exists w2, cb s w1 = Some w2 /\ open_surfaces w2 <= open_surfaces w1) ->
  open_surfaces w < bound ->
  exists w', fire_dispose cb ls w = Some w' /\
             open_surfaces w' <= open_surfaces w.
Proof.
  intros Hcb. revert w. induction ls as [|s ls IH]; intros w Hw.
  - exists w. done.
  - cbn [fire_dispose].
    destruct (sub_listener s) as [self| |?|?]; try by apply IH.
    destruct (Hcb self w Hw) as (w1 & -> & Hle).
    destruct (IH w1) as (w' & Hrun & Hle'); [lia|].
    exists w'. split; [done|lia].
Qed.

Lemma surface_dispose_total (cb : nat -> World -> option World) (bound : nat)
    (h : nat) (w : World) :
  (forall s w1, open_surfaces w1 < bound ->
     exists w2, cb s w1 = Some w2 /\ open_surfaces w2 <= open_surfaces w1) ->
  open_surfaces w <= bound ->
  exists w', surface_dispose cb h w = Some w' /\
             open_surfaces w' <= open_surfaces w.
Proof.
  intros Hcb Hw. unfold surface_dispose.
  destruct (panels w !! h) as [p|] eqn:Hp; [|by exists w].
  destruct (disposed p) eqn:Hd; [by exists w|].
  set (w1 := set_panels _ w).
  assert (Hopen : S (open_surfaces w1) = open_surfaces w)
    by (by apply (open_alter_mark h (panels w) p)).
  destruct (fire_dispose_total cb bound (listeners_on h DidDispose w1) w1 Hcb)
    as (w2 & -> & Hle); [lia|].
  eexists. split; [reflexivity|].
  change (open_surfaces w2 <= open_surfaces w). lia.
Qed.

(** [dispose()] returns as soon as the fuel exceeds the number of open
    surfaces, and it opens none. *)
Lemma dispose_total (fuel self : nat) (w : World) :
  open_surfaces w < fuel ->
  exists r, dispose fuel self w = Some r /\
            open_surfaces (snd r) <= open_surfaces w.
Proof.
  revert self w. induction fuel as [|fuel IH]; intros self w Hw; [lia|].
  cbn [dispose]. destruct (instances w !! self) as [i|]; [|by eexists].
  destruct (surface_dispose_total (fun s w' => snd <$> dispose fuel s w')
              fuel (panel i) (cleared (panel i) w)) as (w2 & Hrun & Hle).
  - intros s w1 Hw1. destruct (IH s w1 Hw1) as (r & -> & Hr). by exists (snd r).
  - change (open_surfaces w <= fuel). lia.
  - unfold cleared in Hrun. rewrite Hrun.
    change (open_surfaces (cleared (panel i) w)) with (open_surfaces w) in Hle.
    destruct (instances w2 !! self) as [i2|]; [|by eexists].
    eexists. split; [reflexivity|].
    destruct (drain_fades (rev (disposables i2)) self w2) as [_ Hp].
    unfold open_surfaces at 1. rewrite Hp. exact Hle.
Qed.

Lemma closePanel_total (fuel h : nat) (w : World) :
  open_surfaces w <= fuel ->
  exists w', closePanel fuel h w = Some w' /\
             open_surfaces w' <= open_surfaces w.
Proof.
  intros Hw. unfold closePanel. apply (surface_dispose_total _ fuel); [|done].
  intros s w1 Hw1. destruct (dispose_total fuel s w1 Hw1) as (r & -> & Hr).
  by exists (snd r).
Qed.

(** *** What the other operations do to a detached promise *)

Lemma gone_alter (f : WebviewPanel -> WebviewPanel) (h h' : nat)
    (l : list WebviewPanel) :
  (forall p, disposed (f p) = disposed p) ->
  match alter f h l !! h' with Some p => disposed p | None => false end
  = match l !! h' with Some p => disposed p | None => false end.
Proof.
  intros Hf. destruct (decide (h = h')) as [->|Hne].
  - rewrite list_lookup_alter_eq. destruct (l !! h'); cbn; [apply Hf|done].
  - by rewrite list_lookup_alter_ne.
Qed.

Lemma same_wiring_refl (w : World) : same_wiring w w.
Proof. by repeat split. Qed.

Lemma same_wiring_trans (w1 w2 w3 : World) :
  same_wiring w1 w2 -> same_wiring w2 w3 -> same_wiring w1 w3.
Proof.
  intros (Hp1 & Hs1 & Hg1) (Hp2 & Hs2 & Hg2).
  split; [congruence|]. split; [congruence|].
  intros h. by rewrite Hg2.
Qed.

Lemma update_same_wiring (self : nat) (w : World) :
  same_wiring w (update self w).
Proof.
  destruct (instances w !! self) as [i|] eqn:Hi.
  - rewrite (update_eq self i w Hi).
    split; [reflexivity|]. split; [reflexivity|].
    intros h. unfold gone. cbn. by apply gone_alter.
  - unfold update. rewrite Hi. apply same_wiring_refl.
Qed.

Lemma deliver_viewState_same_wiring (w : World) (s : Subscription) :
  same_wiring w (deliver_viewState w s).
Proof.
  unfold deliver_viewState.
  destruct (sub_listener s) as [?| |self|?]; try apply same_wiring_refl.
  destruct (instances w !! self) as [i|]; [|apply same_wiring_refl].
  destruct (panels w !! panel i) as [p|]; [|apply same_wiring_refl].
  destruct (visible p); [apply update_same_wiring|apply same_wiring_refl].
Qed.

Lemma changeViewState_same_wiring (h : nat) (v : bool) (w : World) :
  same_wiring w (changeViewState h v w).
Proof.
  unfold changeViewState. destruct (live h w); [|apply same_wiring_refl].
  set (w1 := set_panels _ w).
  assert (H1 : same_wiring w w1).
  { split; [reflexivity|]. split; [reflexivity|].
    intros h'. unfold gone. cbn. by apply gone_alter. }
  revert H1. generalize (listeners_on h DidChangeViewState w1).
  generalize w1. clear w1. intros w1 ls. revert w1.
  induction ls as [|s ls IH]; intros w1 H1; [done|].
  cbn. apply IH. apply (same_wiring_trans _ w1); [done|].
  apply deliver_viewState_same_wiring.
Qed.

Lemma postMessage_same_wiring (message : Message) (w : World) :
  same_wiring w (postMessage message w).
Proof.
  unfold postMessage. destruct (currentPanel w) as [c|];
    [|apply same_wiring_refl].
  destruct (instances w !! c); [|apply same_wiring_refl]. by repeat split.
Qed.

(** A delivery that does not reach a listener of promise [p] leaves the
    promise alone; no delivery changes the listeners or the surfaces. *)
Lemma deliver_message_other (message : Message) (w : World)
    (s : Subscription) (p : nat) :
  sub_listener s <> Handshake p ->
  promises (deliver_message message w s) !! p = promises w !! p.
Proof.
  intros Hne. rewrite deliver_message_promises.
  destruct (sub_listener s) as [?| |?|q]; try done.
  rewrite list_lookup_alter_ne; [done|]. congruence.
Qed.

Lemma deliver_message_wiring (message : Message) (w : World)
    (s : Subscription) :
  subs (deliver_message message w s) = subs w /\
  panels (deliver_message message w s) = panels w /\
  instances (deliver_message message w s) = instances w /\
  length (promises (deliver_message message w s)) = length (promises w).
Proof.
  unfold deliver_message, handleMessage.
  destruct (sub_listener s) as [?| |?|q]; try done.
  - by destruct (String.eqb _ _).
  - destruct (String.eqb _ _); cbn; by rewrite length_alter.
Qed.

Lemma receive_wiring (message : Message) (ls : list Subscription) (w : World) :
  subs (foldl (deliver_message message) w ls) = subs w /\
  panels (foldl (deliver_message message) w ls) = panels w /\
  instances (foldl (deliver_message message) w ls) = instances w /\
  length (promises (foldl (deliver_message message) w ls))
  = length (promises w).
Proof.
  revert w. induction ls as [|s ls IH]; intros w; [done|].
  cbn. destruct (IH (deliver_message message w s)) as (-> & -> & -> & ->).
  apply deliver_message_wiring.
Qed.

Lemma receive_other (message : Message) (ls : list Subscription) (w : World)
    (p : nat) :
  (forall s, s ∈ ls -> sub_listener s <> Handshake p) ->
  promises (foldl (deliver_message message) w ls) !! p = promises w !! p.
Proof.
  revert w. induction ls as [|s ls IH]; intros w Hall; [done|].
  cbn. rewrite IH by (intros s' Hs'; apply Hall; by right).
  apply deliver_message_other. apply Hall. by left.
Qed.

Lemma live_not_gone (h : nat) (w : World) :
  live h w = true -> gone h w = false.
Proof.
  unfold live, gone. destruct (panels w !! h) as [p|]; [|done].
  by destruct (disposed p).
Qed.

Lemma receiveMessage_detached (h : nat) (message : Message) (w : World)
    (p : nat) :
  detached p w -> detached p (receiveMessage h message w).
Proof.
  intros [Hp Hl]. unfold receiveMessage.
  destruct (live h w) eqn:Hlive; [|done].
  pose proof (receive_wiring message (listeners_on h DidReceiveMessage w) w)
    as (Hs & Hpan & _ & _).
  split.
  - rewrite receive_other; [done|].
    intros s Hin Hsp. apply elem_of_listeners_on in Hin as [[Hh _] Hin].
    specialize (Hl s Hin Hsp). rewrite Hh in Hl.
    apply live_not_gone in Hlive. congruence.
  - intros s. rewrite Hs. unfold gone. rewrite Hpan. apply Hl.
Qed.

Lemma detached_same_wiring (p : nat) (w w' : World) :
  same_wiring w w' -> detached p w -> detached p w'.
Proof.
  intros (Hp & Hs & Hg) [Hpend Hl]. split; [congruence|].
  intros s. rewrite Hs, Hg. apply Hl.
Qed.

Lemma detached_fades (p : nat) (w w' : World) :
  fades w w' -> detached p w -> detached p w'.
Proof.
  intros (Hp & Hs & Hg) [Hpend Hl]. split; [congruence|].
  intros s Hin Hsp. apply Hg, Hl; auto.
Qed.

Lemma detached_grows (p : nat) (w w' : World) :
  grows w w' -> detached p w -> detached p w'.
Proof.
  intros ((more & Hp) & (new & Hs & Hnew) & Hg) [Hpend Hl]. split.
  - rewrite Hp. by apply lookup_app_l_Some.
  - intros s. rewrite Hs. intros Hin Hsp.
    apply elem_of_app in Hin as [Hin|Hin]; [by apply Hg, Hl|].
    specialize (Hnew s p Hin Hsp). apply lookup_lt_Some in Hpend. lia.
Qed.

Lemma gone_snoc (h : nat) (l : list WebviewPanel) (x : WebviewPanel) :
  match l !! h with Some p => disposed p | None => false end = true ->
  match (l ++ [x]) !! h with Some p => disposed p | None => false end = true.
Proof.
  destruct (l !! h) as [p|] eqn:Hp; [|done].
  by rewrite (lookup_app_l_Some _ _ _ _ Hp).
Qed.

Lemma new_Webview_grows (h : nat) (uri : Uri) (w : World) :
  grows w (snd (new_Webview h uri w)).
Proof.
  rewrite new_Webview_eq. cbn. split; [|split].
  - exists []. by rewrite app_nil_r.
  - eexists. split; [reflexivity|]. intros s q Hin Hs.
    repeat (apply elem_of_cons in Hin as [->|Hin]; [done|]).
    by apply elem_of_nil in Hin.
  - intros h'. unfold gone. cbn. by rewrite gone_alter.
Qed.

Lemma create_grows (uri : Uri) (col : ViewColumn) (w : World) :
  grows w (snd (create uri col w)).
Proof.
  unfold create, createWebviewPanel. rewrite new_Webview_eq. cbn.
  split; [|split].
  - exists []. by rewrite app_nil_r.
  - eexists. split; [reflexivity|]. intros s q Hin Hs.
    repeat (apply elem_of_cons in Hin as [->|Hin]; [done|]).
    by apply elem_of_nil in Hin.
  - intros h'. unfold gone. cbn. rewrite gone_alter by done.
    apply gone_snoc.
Qed.

Lemma revive_grows (h : nat) (uri : Uri) (w : World) :
  grows w (revive h uri w).
Proof.
  unfold revive. pose proof (new_Webview_grows h uri w) as Hg.
  destruct (new_Webview h uri w) as [self w1]. exact Hg.
Qed.

(** [render] when the tracked reference points to no instance: only the
    promise is made. *)
Lemma render_dangling (uri : Uri) (col : ViewColumn) (w : World) (c : nat) :
  currentPanel w = Some c -> instances w !! c = None ->
  render uri col w
  = (length (promises w), set_promises (promises w ++ [Pending]) w).
Proof.
  intros Hc Hi. unfold render. rewrite Hc, Hi. cbn. by rewrite Hc, Hi.
Qed.

Lemma render_grows (uri : Uri) (col : ViewColumn) (w : World) :
  grows w (snd (render uri col w)).
Proof.
  destruct (currentPanel w) as [c|] eqn:Hc.
  - destruct (instances w !! c) as [i|] eqn:Hi.
    + rewrite (render_tracked _ _ _ _ _ Hc Hi). cbn. split; [|split].
      * by eexists.
      * eexists. split; [reflexivity|]. intros s q Hin Hs.
        apply list_elem_of_singleton in Hin as ->. cbn in Hs.
        injection Hs as <-. done.
      * done.
    + rewrite (render_dangling _ _ _ _ Hc Hi). cbn. split; [|split].
      * by eexists.
      * exists []. split; [by rewrite app_nil_r|].
        intros s q Hin. by apply elem_of_nil in Hin.
      * done.
  - rewrite (render_absent _ _ _ Hc). cbn. split; [|split].
    + by eexists.
    + eexists. split; [reflexivity|]. intros s q Hin Hs.
      repeat (apply elem_of_cons in Hin as [->|Hin];
              [try done; cbn in Hs; injection Hs as <-; done|]).
      by apply elem_of_nil in Hin.
    + intros h'. unfold gone. cbn. apply gone_snoc.
Qed.

(** Every operation and every event keeps a detached promise detached. *)
Lemma step_detached (fuel : nat) (o : Op) (w w' : World) (p : nat) :
  detached p w -> step fuel o w = Some w' -> detached p w'.
Proof.
  intros Hd. destruct o as [uri col|uri col|h uri|m|self|h m|h v|h]; cbn.
  - intros [= <-]. apply (detached_grows p w); [apply create_grows|done].
  - intros [= <-]. apply (detached_grows p w); [apply render_grows|done].
  - intros [= <-]. apply (detached_grows p w); [apply revive_grows|done].
  - intros [= <-]. apply (detached_same_wiring p w); [apply postMessage_same_wiring|done].
  - destruct (dispose fuel self w) as [r|] eqn:Hr; [|done].
    intros [= <-]. apply dispose_fades in Hr as [Hr _].
    by apply (detached_fades p w).
  - intros [= <-]. by apply receiveMessage_detached.
  - intros [= <-].
    apply (detached_same_wiring p w); [apply changeViewState_same_wiring|done].
  - intros Hc. apply closePanel_fades in Hc as [Hc _].
    by apply (detached_fades p w).
Qed.

Lemma run_detached (fuel : nat) (ops : list Op) (w w' : World) (p : nat) :
  detached p w -> run fuel ops w = Some w' -> detached p w'.
Proof.
  revert w. induction ops as [|o ops IH]; intros w Hd; cbn.
  - by intros [= <-].
  - destruct (step fuel o w) as [w1|] eqn:Hstep; [|done].
    apply IH. by apply (step_detached fuel o w).
Qed.

(** *** Runs return *)

Lemma open_snoc (l : list WebviewPanel) (x : WebviewPanel) :
  length (filter (fun p => disposed p = false) (l ++ [x]))
  <= S (length (filter (fun p => disposed p = false) l)).
Proof.
  rewrite filter_app, length_app.
  pose proof (length_filter (fun p => disposed p = false) [x]) as Hle.
  cbn [length] in Hle. lia.
Qed.

Lemma update_open (self : nat) (w : World) :
  open_surfaces (update self w) = open_surfaces w.
Proof.
  destruct (instances w !! self) as [i|] eqn:Hi.
  - rewrite (update_eq self i w Hi). unfold open_surfaces. cbn.
    by apply open_alter_same.
  - unfold update. by rewrite Hi.
Qed.

Lemma changeViewState_open (h : nat) (v : bool) (w : World) :
  open_surfaces (changeViewState h v w) = open_surfaces w.
Proof.
  unfold changeViewState. destruct (live h w); [|done].
  set (w1 := set_panels _ w).
  assert (H1 : open_surfaces w1 = open_surfaces w)
    by (unfold open_surfaces; cbn; by apply open_alter_same).
  rewrite <- H1. generalize (listeners_on h DidChangeViewState w1).
  generalize w1. clear. intros w1 ls. revert w1.
  induction ls as [|s ls IH]; intros w1; [done|].
  cbn [foldl]. rewrite IH. unfold deliver_viewState.
  destruct (sub_listener s) as [?| |self|?]; try done.
  destruct (instances w1 !! self) as [i|]; [|done].
  destruct (panels w1 !! panel i) as [p|]; [|done].
  destruct (visible p); [apply update_open|done].
Qed.

Lemma render_open (uri : Uri) (col : ViewColumn) (w : World) :
  open_surfaces (snd (render uri col w)) <= S (open_surfaces w).
Proof.
  unfold open_surfaces. destruct (currentPanel w) as [c|] eqn:Hc.
  - destruct (instances w !! c) as [i|] eqn:Hi.
    + rewrite (render_tracked _ _ _ _ _ Hc Hi). cbn. lia.
    + rewrite (render_dangling _ _ _ _ Hc Hi). cbn. lia.
  - rewrite (render_absent _ _ _ Hc). cbn. apply open_snoc.
Qed.

Lemma create_open (uri : Uri) (col : ViewColumn) (w : World) :
  open_surfaces (snd (create uri col w)) <= S (open_surfaces w).
Proof.
  unfold create, createWebviewPanel. rewrite new_Webview_eq.
  unfold open_surfaces. cbn. rewrite open_alter_same by done.
  apply open_snoc.
Qed.

Lemma revive_open (h : nat) (uri : Uri) (w : World) :
  open_surfaces (revive h uri w) = open_surfaces w.
Proof.
  unfold revive. rewrite new_Webview_eq. unfold open_surfaces. cbn.
  by apply open_alter_same.
Qed.

Lemma postMessage_open (message : Message) (w : World) :
  open_surfaces (postMessage message w) = open_surfaces w.
Proof.
  unfold postMessage. destruct (currentPanel w) as [c|]; [|done].
  by destruct (instances w !! c).
Qed.

Lemma receiveMessage_open (h : nat) (message : Message) (w : World) :
  open_surfaces (receiveMessage h message w) = open_surfaces w.
Proof.
  unfold open_surfaces, receiveMessage. destruct (live h w); [|done].
  by destruct (receive_wiring message
                 (listeners_on h DidReceiveMessage w) w) as (_ & -> & _).
Qed.

(** Every step returns when the fuel exceeds the number of open
    surfaces, and it opens at most one surface. *)
Lemma step_total (fuel : nat) (o : Op) (w : World) :
  open_surfaces w < fuel ->
  exists w', step fuel o w = Some w' /\
             open_surfaces w' <= S (open_surfaces w).
Proof.
  intros Hw. destruct o as [uri col|uri col|h uri|m|self|h m|h v|h];
    cbn [step].
  - eexists. split; [reflexivity|apply create_open].
  - eexists. split; [reflexivity|apply render_open].
  - eexists. split; [reflexivity|]. rewrite revive_open. lia.
  - eexists. split; [reflexivity|]. rewrite postMessage_open. lia.
  - destruct (dispose_total fuel self w Hw) as (r & -> & Hle).
    exists (snd r). split; [done|lia].
  - eexists. split; [reflexivity|]. rewrite receiveMessage_open. lia.
  - eexists. split; [reflexivity|]. rewrite changeViewState_open. lia.
  - destruct (closePanel_total fuel h w) as (w' & -> & Hle); [lia|].
    exists w'. split; [done|lia].
Qed.

Lemma run_total (fuel : nat) (ops : list Op) (w : World) :
  open_surfaces w + length ops < fuel -> is_Some (run fuel ops w).
Proof.
  revert w. induction ops as [|o ops IH]; intros w Hw; [by eexists|].
  cbn [run]. cbn [length] in Hw.
  destruct (step_total fuel o w) as (w' & -> & Hle); [lia|].
  apply IH. lia.
Qed.

(** After [render] the listeners of the new promise all sit on the
    tracked surface, which is live. *)
Lemma render_handshake_place (uri : Uri) (col : ViewColumn) (w : World) :
  handler_installed w -> listeners_known w ->
  let p := fst (render uri col w) in
  let w1 := snd (render uri col w) in
  exists c i,
    currentPanel w1 = Some c /\ instances w1 !! c = Some i /\
    promises w1 !! p = Some Pending /\
    live (panel i) w1 = true /\
    forall s, s ∈ subs w1 -> sub_listener s = Handshake p ->
              sub_panel s = panel i.
Proof.
  intros Hinst Hknown p w1. subst p w1. unfold handler_installed in Hinst.
  assert (Hold : forall s, s ∈ subs w ->
            sub_listener s <> Handshake (length (promises w))).
  { intros s Hin Hs. specialize (Hknown s _ Hin Hs). lia. }
  destruct (currentPanel w) as [c|] eqn:Hc.
  - destruct Hinst as (i & s0 & Hi & Hlive & _).
    rewrite (render_tracked _ _ _ _ _ Hc Hi). cbn -[live].
    exists c, (with_disposables (disposables i ++ [nextSub w]) i).
    split; [done|]. split; [by rewrite list_lookup_alter_eq, Hi|].
    split; [apply lookup_snoc_last|]. split; [exact Hlive|].
    intros s Hin Hs. apply elem_of_app in Hin as [Hin|Hin].
    + by destruct (Hold s Hin).
    + by apply list_elem_of_singleton in Hin as ->.
  - rewrite (render_absent _ _ _ Hc). cbn -[live].
    eexists _, _. split; [reflexivity|].
    split; [apply lookup_snoc_last|].
    split; [apply lookup_snoc_last|].
    split; [unfold live; cbn; by rewrite lookup_snoc_last|].
    intros s Hin Hs. apply elem_of_app in Hin as [Hin|Hin].
    + by destruct (Hold s Hin).
    + repeat (apply elem_of_cons in Hin as [->|Hin]; [done|]).
      by apply elem_of_nil in Hin.
Qed.

Lemma live_is_Some (h : nat) (w : World) :
  live h w = true -> is_Some (panels w !! h).
Proof. unfold live. destruct (panels w !! h); [eauto|done]. Qed.

(** C9: call [render] (in a world where the tracked instance, if any, is
    intact and every handshake listener belongs to a promise already
    made) and let the surface be disposed before any message arrives,
    either by [dispose()] of the tracked instance or by the user closing
    the surface.  The disposal returns (given fuel beyond the number of
    open surfaces) and no step of it touches any promise, so the promise
    of the call is still pending; and whatever happens afterwards
    (messages on any surface, visibility changes, further calls of
    [render], [create], [revive], [postMessage], [dispose]), the run
    returns and the promise stays pending: it is never resolved and never
    rejected. *)
Theorem handshake_left_pending (uri : Uri) (col : ViewColumn) (w : World) :
  handler_installed w -> listeners_known w ->
  let p := fst (render uri col w) in
  let w1 := snd (render uri col w) in
  exists c i,
    currentPanel w1 = Some c /\ instances w1 !! c = Some i /\
    promises w1 !! p = Some Pending /\
    (forall fuel r, dispose fuel c w1 = Some r ->
       promises (snd r) = promises w1 /\
       (forall fuel' ops w3, run fuel' ops (snd r) = Some w3 ->
                             promises w3 !! p = Some Pending) /\
       (forall fuel' ops, open_surfaces (snd r) + length ops < fuel' ->
                          is_Some (run fuel' ops (snd r)))) /\
    (forall fuel w2, closePanel fuel (panel i) w1 = Some w2 ->
       promises w2 = promises w1 /\
       (forall fuel' ops w3, run fuel' ops w2 = Some w3 ->
                             promises w3 !! p = Some Pending) /\
       (forall fuel' ops, open_surfaces w2 + length ops < fuel' ->
                          is_Some (run fuel' ops w2))) /\
    (forall fuel, open_surfaces w1 < fuel -> is_Some (dispose fuel c w1)) /\
    (forall fuel, open_surfaces w1 <= fuel ->
                  is_Some (closePanel fuel (panel i) w1)).
Proof.
  intros Hinst Hknown p w1.
  destruct (render_handshake_place uri col w Hinst Hknown)
    as (c & i & Hc & Hi & Hp & Hlive & Hplace).
  fold p in Hp, Hplace. fold w1 in Hc, Hi, Hp, Hlive, Hplace.
  exists c, i. split; [done|]. split; [done|]. split; [done|].
  assert (Hdet : forall w2, fades w1 w2 -> gone (panel i) w2 = true ->
            detached p w2).
  { intros w2 (Hpr & Hsub & Hgone) Hg. split; [by rewrite Hpr|].
    intros s Hin Hs. apply Hsub in Hin.
    by rewrite (Hplace s Hin Hs). }
  split; [|split; [|split]].
  - intros fuel r Hr. apply dispose_fades in Hr as [Hf Hg].
    split; [apply Hf|]. split; [|intros fuel' ops; apply run_total].
    intros fuel' ops w3 Hrun.
    apply (run_detached fuel' ops (snd r) w3 p); [|done].
    apply Hdet; [done|]. apply (Hg i Hi). by apply live_is_Some.
  - intros fuel w2 Hr. apply closePanel_fades in Hr as [Hf Hg].
    split; [apply Hf|]. split; [|intros fuel' ops; apply run_total].
    intros fuel' ops w3 Hrun.
    apply (run_detached fuel' ops w2 w3 p); [|done].
    apply Hdet; [done|]. apply Hg. by apply live_is_Some.
  - intros fuel Hfuel.
    destruct (dispose_total fuel c w1 Hfuel) as (r & -> & _). by eexists.
  - intros fuel Hfuel.
    destruct (closePanel_total fuel (panel i) w1 Hfuel) as (w2 & -> & _).
    by eexists.
Qed.

Lemma handshake_left_pending_witness :
  let w1 := snd (render "/ext" Webview_viewColumn (initial sample_env)) in
  exists c i,
    currentPanel w1 = Some c /\ instances w1 !! c = Some i /\
    forall fuel r, dispose fuel c w1 = Some r ->
                   promises (snd r) = promises w1.
Proof.
  intros w1.
  destruct (handshake_left_pending "/ext" Webview_viewColumn
              (initial sample_env) I
              (fun s q Hin _ => False_ind _ (proj1 (elem_of_nil s) Hin)))
    as (c & i & Hc & Hi & _ & Hdisp & _).
  exists c, i. split; [exact Hc|]. split; [exact Hi|].
  intros fuel r Hr. exact (proj1 (Hdisp fuel r Hr)).
Defined.

(** A run of the sample host: the surface is rendered and disposed, a
    late 'ready' for the old surface and a complete handshake on a new
    surface follow.  The first promise is still pending, the second one is
    resolved. *)
Example pending_after_dispose_run :
  (w2 ← snd <$> dispose 2 0 shown;
   w3 ← run 2 [OpMessage 0 {| command := "ready"; data := EmptyString |};
               OpRender "/ext" Webview_viewColumn;
               OpMessage 1 {| command := "ready"; data := EmptyString |}] w2;
   Some (promises w3))
  = Some [Pending; Resolved].
Proof. vm_compute. reflexivity. Qed.

(** ** Handshake listeners pile up: the statement *)

Lemma render_env (uri : Uri) (col : ViewColumn) (w : World) :
  env (snd (render uri col w)) = env w.
Proof.
  destruct (currentPanel w) as [c|] eqn:Hc.
  - destruct (instances w !! c) as [i|] eqn:Hi.
    + by rewrite (render_tracked _ _ _ _ _ Hc Hi).
    + by rewrite (render_dangling _ _ _ _ Hc Hi).
  - by rewrite (render_absent _ _ _ Hc).
Qed.

Lemma render_all_env (calls : list (Uri * ViewColumn)) (w : World) :
  env (render_all calls w) = env w.
Proof.
  revert w. induction calls as [|[uri col] calls IH]; intros w; [done|].
  by rewrite render_all_cons, IH, render_env.
Qed.

Lemma filter_none {A} (P : A -> Prop) `{!forall x, Decision (P x)} (l : list A) :
  (forall x, x ∈ l -> ~ P x) -> filter P l = [].
Proof.
  induction l as [|x l IH]; intros Hall; [done|].
  rewrite filter_cons_False by (apply Hall; left).
  apply IH. intros y Hy. apply Hall. by right.
Qed.

Lemma elem_of_handshake_subs (s : Subscription) (n : nat) :
  s ∈ handshake_subs n -> exists k, s = handshake_sub k /\ k < n.
Proof.
  unfold handshake_subs. intros Hin.
  apply list_elem_of_fmap in Hin as (k & -> & Hk).
  exists k. split; [done|]. apply elem_of_seq in Hk. lia.
Qed.

(** The message listeners of a surface rendered [n] times: the handler of
    the constructor, then one handshake listener for each call. *)
Lemma rendered_message_listeners (n : nat) (w : World) :
  subs w = constructor_subs ++ handshake_subs n ->
  listeners_on 0 DidReceiveMessage w =
  {| sub_id := 1; sub_panel := 0; sub_listener := HandleMessage |}
  :: handshake_subs n.
Proof.
  intros Hs. unfold listeners_on. rewrite Hs, filter_app.
  rewrite (filter_all _ (handshake_subs n)).
  - reflexivity.
  - intros s Hin. by apply elem_of_handshake_subs in Hin as (k & -> & _).
Qed.

Lemma rendered_dispose_listeners (n : nat) (w : World) :
  subs w = constructor_subs ++ handshake_subs n ->
  listeners_on 0 DidDispose w =
  [{| sub_id := 0; sub_panel := 0; sub_listener := OnDispose 0 |}].
Proof.
  intros Hs. unfold listeners_on. rewrite Hs, filter_app.
  rewrite (filter_none _ (handshake_subs n)).
  - reflexivity.
  - intros s Hin [_ Hk].
    by apply elem_of_handshake_subs in Hin as (k & -> & _).
Qed.

Lemma handshakes_trace (message : Message) (l : list nat) (w : World) :
  trace (foldl (deliver_message message) w (handshake_sub <$> l))
  = (settle_call message <$> rev l) ++ trace w.
Proof.
  revert w. induction l as [|k l IH]; intros w; [done|].
  cbn [fmap list_fmap foldl rev]. rewrite IH.
  rewrite fmap_app, <- app_assoc. f_equal.
  unfold deliver_message, settle_call, resolve, reject. cbn.
  by destruct (String.eqb (command message) "ready").
Qed.

(** Every handshake listener of a surface rendered [n] times is called
    for an inbound message, after the message handler. *)
Lemma receive_trace_exact (n : nat) (message : Message) (w : World) :
  live 0 w = true -> subs w = constructor_subs ++ handshake_subs n ->
  trace (receiveMessage 0 message w)
  = (settle_call message <$> rev (seq 0 n)) ++ handler_calls message
    ++ trace w.
Proof.
  intros Hlive Hs. unfold receiveMessage.
  rewrite Hlive, (rendered_message_listeners n w Hs).
  cbn [foldl]. unfold handshake_subs. rewrite handshakes_trace. f_equal.
  unfold deliver_message, handleMessage, handler_calls. cbn.
  by destruct (String.eqb (command message) "error").
Qed.

Lemma receiveMessage_wiring (h : nat) (message : Message) (w : World) :
  subs (receiveMessage h message w) = subs w /\
  panels (receiveMessage h message w) = panels w /\
  instances (receiveMessage h message w) = instances w.
Proof.
  unfold receiveMessage. destruct (live h w); [|done].
  by destruct (receive_wiring message
                 (listeners_on h DidReceiveMessage w) w) as (? & ? & ? & _).
Qed.

Lemma receiveMessage_env (h : nat) (message : Message) (w : World) :
  env (receiveMessage h message w) = env w.
Proof.
  unfold receiveMessage. destruct (live h w); [|done].
  generalize (listeners_on h DidReceiveMessage w). intros ls. revert w.
  induction ls as [|s ls IH]; intros w; [done|].
  cbn. rewrite IH. unfold deliver_message, handleMessage.
  destruct (sub_listener s); try done; by destruct (String.eqb _ _).
Qed.

Lemma rendered_ids (n : nat) (s : Subscription) :
  s ∈ constructor_subs ++ handshake_subs n -> sub_id s ∈ seq 0 (3 + n).
Proof.
  intros Hin. apply elem_of_seq. apply elem_of_app in Hin as [Hin|Hin].
  - repeat (apply elem_of_cons in Hin as [->|Hin]; [cbn; lia|]).
    by apply elem_of_nil in Hin.
  - apply elem_of_handshake_subs in Hin as (k & -> & Hk). cbn. lia.
Qed.

(** C10: (1) every call of [render] on a world with an intact tracked
    reference, whether it constructs or only reveals, registers one
    handshake listener for its promise on the tracked surface and pushes
    its cleanup handle onto the end of the tracked instance's array;
    (2) no inbound message removes a listener or a handle, however it
    settles the promises;
    (3) after [n >= 1] calls on a fresh host the surface has the message
    handler and [n] handshake listeners, the array holds [3 + n] handles,
    every inbound message makes each of the [n] listeners call [resolve]
    or [reject] of its promise (the first message and any later one
    alike), and [dispose()] invokes all [3 + n] handles and leaves no
    listener registered. *)
Theorem render_accumulates_listeners :
  (forall (uri : Uri) (col : ViewColumn) (w : World),
     tracked_valid w ->
     let p := fst (render uri col w) in
     let w1 := snd (render uri col w) in
     exists c i d older,
       currentPanel w1 = Some c /\ instances w1 !! c = Some i /\
       subs w1 = older ++ [{| sub_id := d; sub_panel := panel i;
                              sub_listener := Handshake p |}] /\
       (exists before, disposables i = before ++ [d]) /\
       (forall c0 i0, currentPanel w = Some c0 -> instances w !! c0 = Some i0 ->
          c = c0 /\ older = subs w /\
          disposables i = disposables i0 ++ [d])) /\
  (forall (h : nat) (message : Message) (w : World),
     subs (receiveMessage h message w) = subs w /\
     instances (receiveMessage h message w) = instances w) /\
  (forall (e : Env) (calls : list (Uri * ViewColumn)) (m m2 : Message),
     calls <> [] ->
     let n := length calls in
     let w := render_all calls (initial e) in
     let w2 := receiveMessage 0 m w in
     listeners_on 0 DidReceiveMessage w =
       {| sub_id := 1; sub_panel := 0; sub_listener := HandleMessage |}
       :: handshake_subs n /\
     (exists i, instances w !! 0 = Some i /\ disposables i = seq 0 (3 + n)) /\
     trace w2 = (settle_call m <$> rev (seq 0 n)) ++ handler_calls m
                ++ trace w /\
     trace (receiveMessage 0 m2 w2)
       = (settle_call m2 <$> rev (seq 0 n)) ++ handler_calls m2 ++ trace w2 /\
     ((forall d, throwing e d = false) ->
      exists w',
        dispose 2 0 w2 = Some (Returned, w') /\ subs w' = [] /\
        (exists i', instances w' !! 0 = Some i' /\ disposables i' = []) /\
        disposals (trace w') = seq 0 (3 + n) ++ disposals (trace w2))).
Proof.
  split; [|split].
  - intros uri col w Hv p w1. subst p w1. unfold tracked_valid in Hv.
    destruct (currentPanel w) as [c|] eqn:Hc.
    + destruct Hv as [i Hi]. rewrite (render_tracked _ _ _ _ _ Hc Hi). cbn.
      exists c, (with_disposables (disposables i ++ [nextSub w]) i),
        (nextSub w), (subs w).
      split; [done|]. split; [by rewrite list_lookup_alter_eq, Hi|].
      split; [done|]. split; [by eexists|].
      intros c0 i0 [= <-] Hi0. rewrite Hi in Hi0. by injection Hi0 as <-.
    + rewrite (render_absent _ _ _ Hc). cbn.
      eexists _, _, (S (S (S (nextSub w)))),
        (subs w ++ [_; _; _]).
      split; [reflexivity|]. split; [apply lookup_snoc_last|].
      split; [by rewrite <- app_assoc|]. split; [|done].
      by exists [nextSub w; S (nextSub w); S (S (nextSub w))].
  - intros h message w.
    by destruct (receiveMessage_wiring h message w) as (? & _ & ?).
  - intros e calls m m2 Hne n w w2.
    pose proof (rendered_all e calls Hne)
      as (Hc & (u & Hi) & (p & Hp & Hd) & Hs & Hn & Hpr).
    fold n in Hi, Hs, Hn, Hpr. fold w in Hc, Hi, Hp, Hs, Hn, Hpr.
    assert (Hlive : live 0 w = true)
      by (unfold live; rewrite Hp; cbn; by rewrite Hd).
    destruct (receiveMessage_wiring 0 m w) as (Hs2 & Hp2 & Hi2).
    fold w2 in Hs2, Hp2, Hi2.
    assert (Hlive2 : live 0 w2 = true)
      by (unfold live; rewrite Hp2, Hp; cbn; by rewrite Hd).
    split; [by apply rendered_message_listeners|].
    split; [exists {| panel := 0; extensionUri := u;
                      disposables := seq 0 (3 + n) |}; by rewrite Hi|].
    split; [by apply receive_trace_exact|].
    split; [apply receive_trace_exact; [done|by rewrite Hs2]|].
    intros Hok.
    destruct (dispose_quiet 0 0 w2
                {| panel := 0; extensionUri := u;
                   disposables := seq 0 (3 + n) |} p)
      as (w' & Hrun & _ & _ & Hinst & _ & _ & Hdisp & Hsubs).
    + by rewrite Hi2, Hi.
    + by rewrite Hp2, Hp.
    + intros _.
      exists {| sub_id := 0; sub_panel := 0; sub_listener := OnDispose 0 |}.
      split; [|reflexivity].
      apply (rendered_dispose_listeners n). by rewrite Hs2.
    + intros d _. subst w2. rewrite receiveMessage_env. subst w.
      rewrite render_all_env. apply Hok.
    + exists w'. split; [done|]. split; [|split; [|done]].
      * destruct (subs w') as [|s l] eqn:Hsw; [done|].
        destruct (Hsubs s) as [Hnot Hin]; [left|].
        rewrite Hs2, Hs in Hin. apply rendered_ids in Hin. done.
      * exists {| panel := 0; extensionUri := u; disposables := [] |}.
        split; [|reflexivity]. by rewrite Hinst, Hi2, Hi.
Qed.

Lemma render_accumulates_listeners_witness :
  let w0 := initial sample_env in
  exists c i d older,
    currentPanel (snd (render "/ext" ViewColumn_One w0)) = Some c /\
    instances (snd (render "/ext" ViewColumn_One w0)) !! c = Some i /\
    subs (snd (render "/ext" ViewColumn_One w0))
    = older ++ [{| sub_id := d; sub_panel := panel i;
                   sub_listener :=
                     Handshake (fst (render "/ext" ViewColumn_One w0)) |}].
Proof.
  intros w0.
  destruct render_accumulates_listeners as (Hone & _ & _).
  destruct (Hone "/ext" ViewColumn_One w0 I)
    as (c & i & d & older & Hc & Hi & Hs & _).
  exists c, i, d, older. split; [exact Hc|]. split; [exact Hi|exact Hs].
Defined.

(** Three calls of [render], then a 'ready' message: the three promises
    get their [resolve] call, newest listener last. *)
Example three_listeners_observe :
  let w := render_all [("/ext", Webview_viewColumn); ("/ext", ViewColumn_One);
                       ("/ext", Webview_viewColumn)] (initial sample_env) in
  let w2 := receiveMessage 0 {| command := "ready"; data := EmptyString |} w in
  firstn 3 (trace w2) = [EvResolve 2; EvResolve 1; EvResolve 0] /\
  promises w2 = [Resolved; Resolved; Resolved] /\
  length (subs w2) = 6.
Proof. vm_compute. done. Qed.

(** ** The nonce in the markup *)

#[local] Transparent html_template Variant2.html_template.

Lemma append_cons (x : ascii) (a b : string) :
  String x a +:+ b = String x (a +:+ b).
Proof. reflexivity. Qed.

Lemma append_nil_l (b : string) : EmptyString +:+ b = b.
Proof. reflexivity. Qed.

Lemma append_assoc (a b c : string) : (a +:+ b) +:+ c = a +:+ (b +:+ c).
Proof.
  induction a as [|x a IH]; [done|]. rewrite !append_cons. by f_equal.
Qed.

Lemma append_nil_r (a : string) : a +:+ EmptyString = a.
Proof. induction a as [|x a IH]; [done|]. rewrite append_cons. by f_equal. Qed.

Lemma plain_append (a b : string) : plain (a +:+ b) = plain a && plain b.
Proof.
  induction a as [|x a IH]; [done|]. rewrite append_cons. cbn. rewrite IH.
  by rewrite !andb_assoc.
Qed.

Lemma plain_cons (a : ascii) (s : string) :
  plain (String a s) = true ->
  Ascii.eqb a apostrophe = false /\ Ascii.eqb a quote = false /\
  Ascii.eqb a less_than = false /\ plain s = true.
Proof.
  cbn. intros H. repeat (apply andb_true_iff in H as [H ?]).
  repeat split; try by apply negb_true_iff. done.
Qed.

(** The text before a delimiter that does not occur in it. *)
Lemma up_to_append (c : ascii) (n rest : string) :
  index_of c n = None ->
  up_to c (n +:+ String c rest) = Some n.
Proof.
  induction n as [|a n IH].
  - intros _. rewrite append_nil_l. cbn. by rewrite Ascii.eqb_refl.
  - rewrite append_cons. cbn. destruct (Ascii.eqb a c); [done|]. intros Hn.
    destruct (index_of c n); [done|]. by rewrite IH.
Qed.

Lemma plain_index_of (s : string) :
  plain s = true ->
  index_of apostrophe s = None /\ index_of quote s = None /\
  index_of less_than s = None.
Proof.
  induction s as [|a s IH]; [done|]. intros H.
  apply plain_cons in H as (H1 & H2 & H3 & Hs).
  destruct (IH Hs) as (I1 & I2 & I3). cbn.
  by rewrite H1, H2, H3, I1, I2, I3.
Qed.

Lemma after_cons (m : string) (a : ascii) (s : string) :
  after m (String a s) =
  match strip_prefix m (String a s) with
  | Some rest => Some rest
  | None => after m s
  end.
Proof. by destruct m. Qed.

(** A marker cannot start inside a string [s] that lacks the marker's
    character at position [j], unless what is cut off after at most [j]
    characters continues into the text behind [s]. *)
Lemma strip_prefix_straddle (m s t : string) (c : ascii) (j : nat) :
  String.get j m = Some c -> index_of c s = None -> s <> EmptyString ->
  (forall k, 1 <= k <= j -> strip_prefix (sdrop k m) t = None) ->
  strip_prefix m (s +:+ t) = None.
Proof.
  revert m j. induction s as [|a s IH]; intros m j Hget Hidx Hne Hcut; [done|].
  destruct m as [|b m]; [by destruct j|].
  rewrite append_cons. cbn [strip_prefix].
  cbn [index_of] in Hidx.
  destruct (Ascii.eqb b a) eqn:Hba; [|done].
  apply Ascii.eqb_eq in Hba as ->.
  destruct j as [|j].
  - cbn in Hget. injection Hget as ->.
    by rewrite Ascii.eqb_refl in Hidx.
  - cbn in Hget.
    destruct (Ascii.eqb a c); [done|].
    destruct (index_of c s) as [?|] eqn:Hs; [done|].
    destruct s as [|a' s'].
    + rewrite append_nil_l. apply (Hcut 1). lia.
    + apply (IH m j); [done|done|done|].
      intros k Hk. apply (Hcut (S k)). lia.
Qed.

Lemma after_skip (m s t : string) (c : ascii) (j : nat) :
  String.get j m = Some c -> index_of c s = None ->
  (forall k, 1 <= k <= j -> strip_prefix (sdrop k m) t = None) ->
  after m (s +:+ t) = after m t.
Proof.
  intros Hget Hidx Hcut. induction s as [|a s IH]; [done|].
  rewrite append_cons, after_cons, <- append_cons.
  rewrite (strip_prefix_straddle m (String a s) t c j); [|done..].
  apply IH. cbn in Hidx. destruct (Ascii.eqb a c); [done|].
  by destruct (index_of c s).
Qed.

(** A string without less-than sign holds no start of the script tag. *)
Lemma after_script_skip (s t : string) :
  index_of less_than s = None ->
  after script_marker (s +:+ t) = after script_marker t.
Proof.
  intros Hlt.
  apply (after_skip _ _ _ less_than 0); [reflexivity|done|].
  intros k Hk. lia.
Qed.

(** A marker that does not occur in [s] does not start inside [s] either
    when [s] is followed by [t], unless one of its proper suffixes is a
    prefix of [t]. *)
Lemma strip_prefix_cut (m s t : string) :
  s <> EmptyString -> strip_prefix m s = None ->
  (forall k, 1 <= k < String.length m -> strip_prefix (sdrop k m) t = None) ->
  strip_prefix m (s +:+ t) = None.
Proof.
  revert m. induction s as [|b s IH]; intros m Hne Hs Hcut; [done|].
  destruct m as [|a m]; [done|].
  rewrite append_cons. cbn [strip_prefix] in *.
  destruct (Ascii.eqb a b); [|done].
  destruct s as [|b' s'].
  - rewrite append_nil_l. destruct m as [|a' m']; [done|].
    apply (Hcut 1). cbn. lia.
  - apply IH; [done|done|].
    intros k Hk. apply (Hcut (S k)). cbn [String.length]. lia.
Qed.

Lemma after_cut (m s t : string) :
  after m s = None ->
  (forall k, 1 <= k < String.length m -> strip_prefix (sdrop k m) t = None) ->
  after m (s +:+ t) = after m t.
Proof.
  intros Hs Hcut. induction s as [|a s IH]; [done|].
  rewrite after_cons in Hs.
  destruct (strip_prefix m (String a s)) eqn:Hpre; [done|].
  rewrite append_cons, after_cons, <- append_cons.
  rewrite (strip_prefix_cut m (String a s) t); [|done..].
  by apply IH.
Qed.

Lemma index_of_get (c : ascii) (s : string) (i : nat) :
  index_of c s = Some i -> String.get i s = Some c.
Proof.
  revert i. induction s as [|a s IH]; intros i; [done|]. cbn.
  destruct (Ascii.eqb a c) eqn:Hac.
  - intros [= <-]. by apply Ascii.eqb_eq in Hac as ->.
  - destruct (index_of c s) as [k|]; [|done]. intros [= <-]. by apply IH.
Qed.

(** *** First variant *)

Lemma after_csp_seg0 (y : string) : after csp_marker (html_seg0 +:+ y) = Some y.
Proof. vm_compute. reflexivity. Qed.

Lemma after_script_seg0 (y : string) :
  after script_marker (html_seg0 +:+ y) = after script_marker y.
Proof. vm_compute. reflexivity. Qed.

Lemma after_script_seg1 (y : string) :
  after script_marker (html_seg1 +:+ y) = Some y.
Proof. vm_compute. reflexivity. Qed.

Lemma html_seg1_head (y : string) :
  html_seg1 +:+ y = String apostrophe (sdrop 1 html_seg1 +:+ y).
Proof. reflexivity. Qed.

Lemma html_seg2_head (y : string) :
  html_seg2 +:+ y = String quote (sdrop 1 html_seg2 +:+ y).
Proof. reflexivity. Qed.

(** Both nonces of a document of the first variant are the nonce it was
    generated with. *)
Lemma html_template_nonces (nonce scriptUri : string) :
  plain nonce = true ->
  csp_nonce (html_template nonce scriptUri) = Some nonce /\
  script_nonce (html_template nonce scriptUri) = Some nonce.
Proof.
  intros Hn. pose proof (plain_index_of nonce Hn) as (Hap & Hq & Hlt).
  unfold csp_nonce, script_nonce, html_template. split.
  - rewrite after_csp_seg0, html_seg1_head. by apply up_to_append.
  - rewrite after_script_seg0, after_script_skip by done.
    rewrite after_script_seg1, html_seg2_head. by apply up_to_append.
Qed.

(** *** Second variant *)

Module Variant2Facts.
Import Variant2.

Lemma v2_after_csp_seg0 (y : string) :
  after csp_marker (html_seg0 +:+ y) = after csp_marker y.
Proof. vm_compute. reflexivity. Qed.

Lemma v2_after_csp_seg1 (y : string) :
  after csp_marker (html_seg1 +:+ y) = after csp_marker y.
Proof. vm_compute. reflexivity. Qed.

Lemma v2_after_csp_seg2 (y : string) :
  after csp_marker (html_seg2 +:+ y) = Some y.
Proof. vm_compute. reflexivity. Qed.

Lemma v2_csp_cut_seg1 (y : string) (k : nat) :
  1 <= k < String.length csp_marker ->
  strip_prefix (sdrop k csp_marker) (html_seg1 +:+ y) = None.
Proof.
  intros [H1 H2]. cbn in H2.
  do 18 (destruct k as [|k]; [try lia; vm_compute; reflexivity|]). lia.
Qed.

Lemma v2_csp_cut_seg2 (y : string) (k : nat) :
  1 <= k < String.length csp_marker ->
  strip_prefix (sdrop k csp_marker) (html_seg2 +:+ y) = None.
Proof.
  intros [H1 H2]. cbn in H2.
  do 18 (destruct k as [|k]; [try lia; vm_compute; reflexivity|]). lia.
Qed.

(** A CSP source that holds no nonce source of its own does not make one
    with the text that follows it, be it the [img-src] or the
    [script-src] part of the policy. *)
Lemma v2_after_csp_skip1 (s y : string) :
  after csp_marker s = None ->
  after csp_marker (s +:+ html_seg1 +:+ y) = after csp_marker (html_seg1 +:+ y).
Proof. intros Hs. apply after_cut; [done|]. apply v2_csp_cut_seg1. Qed.

Lemma v2_after_csp_skip2 (s y : string) :
  after csp_marker s = None ->
  after csp_marker (s +:+ html_seg2 +:+ y) = after csp_marker (html_seg2 +:+ y).
Proof. intros Hs. apply after_cut; [done|]. apply v2_csp_cut_seg2. Qed.

Lemma v2_after_script_seg0 (y : string) :
  after script_marker (html_seg0 +:+ y) = after script_marker y.
Proof. vm_compute. reflexivity. Qed.

Lemma v2_after_script_seg1 (y : string) :
  after script_marker (html_seg1 +:+ y) = after script_marker y.
Proof. vm_compute. reflexivity. Qed.

Lemma v2_after_script_seg2 (y : string) :
  after script_marker (html_seg2 +:+ y) = after script_marker y.
Proof. vm_compute. reflexivity. Qed.

Lemma v2_after_script_seg3 (y : string) :
  after script_marker (html_seg3 +:+ y) = after script_marker y.
Proof. vm_compute. reflexivity. Qed.

Lemma v2_after_script_seg4 (y : string) :
  after script_marker (html_seg4 +:+ y) = after script_marker y.
Proof. vm_compute. reflexivity. Qed.

Lemma v2_after_script_seg5 (y : string) :
  after script_marker (html_seg5 +:+ y) = Some y.
Proof. vm_compute. reflexivity. Qed.

Lemma v2_html_seg3_head (y : string) :
  html_seg3 +:+ y = String apostrophe (sdrop 1 html_seg3 +:+ y).
Proof. reflexivity. Qed.

Lemma v2_html_seg6_head (y : string) :
  html_seg6 +:+ y = String quote (sdrop 1 html_seg6 +:+ y).
Proof. reflexivity. Qed.

(** Both nonces of a document of the second variant are the nonce it was
    generated with. *)
Lemma v2_html_template_nonces (csp nonce cssResetUri styleUri scriptUri : string) :
  benign csp = true -> plain nonce = true ->
  plain cssResetUri = true -> plain styleUri = true ->
  csp_nonce (html_template csp nonce cssResetUri styleUri scriptUri)
  = Some nonce /\
  script_nonce (html_template csp nonce cssResetUri styleUri scriptUri)
  = Some nonce.
Proof.
  intros Hc Hn Hr Hs.
  pose proof (plain_index_of nonce Hn) as (Hap & Hq & Hlt).
  apply plain_index_of in Hr as (_ & _ & Hr).
  apply plain_index_of in Hs as (_ & _ & Hs).
  unfold benign in Hc.
  destruct (index_of less_than csp) eqn:Hclt; [done|].
  destruct (after csp_marker csp) eqn:Hcm; [done|].
  unfold csp_nonce, script_nonce, html_template. split.
  - rewrite v2_after_csp_seg0, v2_after_csp_skip1, v2_after_csp_seg1 by done.
    rewrite v2_after_csp_skip2, v2_after_csp_seg2 by done.
    rewrite v2_html_seg3_head. by apply up_to_append.
  - rewrite v2_after_script_seg0, after_script_skip, v2_after_script_seg1
      by done.
    rewrite after_script_skip, v2_after_script_seg2 by done.
    rewrite after_script_skip, v2_after_script_seg3 by done.
    rewrite after_script_skip, v2_after_script_seg4 by done.
    rewrite after_script_skip, v2_after_script_seg5 by done.
    rewrite v2_html_seg6_head. by apply up_to_append.
Qed.

(** *** The generator *)

Lemma nonce_loop_acc (rand : nat -> nat) (n k : nat) (acc : string) :
  nonce_loop rand n k acc = acc +:+ nonce_loop rand n k EmptyString.
Proof.
  revert k acc. induction n as [|n IH]; intros k acc.
  - cbn. by rewrite append_nil_r.
  - cbn [nonce_loop]. rewrite (IH (S k) (acc +:+ _)).
    rewrite (IH (S k) (EmptyString +:+ _)).
    by rewrite append_nil_l, append_assoc.
Qed.

Lemma nonce_loop_S (rand : nat -> nat) (n k : nat) :
  nonce_loop rand (S n) k EmptyString
  = charAt possible (rand k) +:+ nonce_loop rand n (S k) EmptyString.
Proof. cbn [nonce_loop]. by rewrite nonce_loop_acc, append_nil_l. Qed.

(** The characters of [possible]: each index below 62 has its own. *)
Lemma charAt_possible (i : nat) :
  i < 62 ->
  exists c, charAt possible i = String c EmptyString /\
            index_of c possible = Some i.
Proof.
  intros Hi.
  do 62 (destruct i as [|i];
         [eexists; split; vm_compute; reflexivity|]).
  lia.
Qed.

Lemma charAt_plain (i : nat) : plain (charAt possible i) = true.
Proof.
  do 62 (destruct i as [|i]; [vm_compute; reflexivity|]). reflexivity.
Qed.

Lemma nonce_loop_plain (rand : nat -> nat) (n k : nat) :
  plain (nonce_loop rand n k EmptyString) = true.
Proof.
  revert k. induction n as [|n IH]; intros k; [done|].
  by rewrite nonce_loop_S, plain_append, charAt_plain, IH.
Qed.

(** Two runs of the loop give the same string exactly when they drew the
    same indices, as long as the indices are within [possible]. *)
Lemma nonce_loop_inj (rand : nat -> nat) (n k k' : nat) :
  (forall j, j < n -> rand (k + j) < 62 /\ rand (k' + j) < 62) ->
  nonce_loop rand n k EmptyString = nonce_loop rand n k' EmptyString <->
  forall j, j < n -> rand (k + j) = rand (k' + j).
Proof.
  revert k k'. induction n as [|n IH]; intros k k' Hlt.
  - split; [intros _ j Hj; lia|done].
  - rewrite !nonce_loop_S.
    destruct (Hlt 0) as [H0 H0']; [lia|].
    rewrite !Nat.add_0_r in H0, H0'.
    destruct (charAt_possible _ H0) as (c & Hc & Hic).
    destruct (charAt_possible _ H0') as (c' & Hc' & Hic').
    rewrite Hc, Hc', !append_cons, !append_nil_l.
    assert (Hn : forall j, j < n ->
              rand (S k + j) < 62 /\ rand (S k' + j) < 62).
    { intros j Hj. destruct (Hlt (S j)) as [? ?]; [lia|].
      by rewrite <- !Nat.add_succ_comm in *. }
    specialize (IH (S k) (S k') Hn). split.
    + intros [= -> Hrest] j Hj. destruct j as [|j].
      * rewrite !Nat.add_0_r. rewrite Hic in Hic'. by injection Hic'.
      * rewrite <- !Nat.add_succ_comm. apply IH; [done|lia].
    + intros Hall. f_equal.
      * specialize (Hall 0). rewrite !Nat.add_0_r in Hall.
        rewrite Hall in Hic by lia.
        apply index_of_get in Hic, Hic'. rewrite Hic in Hic'.
        by injection Hic'.
      * apply IH. intros j Hj. rewrite !Nat.add_succ_comm. apply Hall. lia.
Qed.

End Variant2Facts.

(** In every document either variant generates, the nonce attribute of
    the module script tag and the nonce source of the [script-src]
    directive are both exactly the nonce of that generation (for URIs of
    the host, and a nonce of the first variant's imported generator, free
    of quotes and less-than signs, and a CSP source of the host that holds
    no less-than sign and no nonce source of its own; the second variant's
    generator only yields such nonces).  Every generation takes a new
    nonce from its generator.  In the second variant that is 32 more
    draws of [Math.random]: the nonces of two successive documents are
    equal exactly when the two runs of indices are equal, so they differ
    as soon as one draw differs.  In the first variant it is one more call
    of [generateNonce] of './utils': two successive documents carry the
    results of two successive calls, whatever those are. *)
Theorem nonce_in_document :
  (forall (i : Webview) (w : World),
     benign (cspSource (env w)) = true ->
     plain (getWebviewUri i ["media"; "reset.css"] w) = true ->
     plain (getWebviewUri i ["media"; "vscode.css"] w) = true ->
     let doc := fst (Variant2.getHtmlForWebview i w) in
     let nonce := fst (Variant2.generateNonce w) in
     csp_nonce doc = Some nonce /\ script_nonce doc = Some nonce) /\
  (forall (i : Webview) (w : World),
     plain (fst (generateNonce w)) = true ->
     let doc := fst (getHtmlForWebview i w) in
     let nonce := fst (generateNonce w) in
     csp_nonce doc = Some nonce /\ script_nonce doc = Some nonce) /\
  (forall (i : Webview) (w : World),
     benign (cspSource (env w)) = true ->
     plain (getWebviewUri i ["media"; "reset.css"] w) = true ->
     plain (getWebviewUri i ["media"; "vscode.css"] w) = true ->
     (forall j, j < 64 -> random_index (env w) (randomCalls w + j) < 62) ->
     let first := Variant2.getHtmlForWebview i w in
     let second := Variant2.getHtmlForWebview i (snd first) in
     csp_nonce (fst first) = csp_nonce (fst second) <->
     forall j, j < 32 ->
       random_index (env w) (randomCalls w + j)
       = random_index (env w) (randomCalls w + 32 + j)) /\
  (forall (i : Webview) (w : World),
     plain (utils_generateNonce (env w) (nonceCalls w)) = true ->
     plain (utils_generateNonce (env w) (S (nonceCalls w))) = true ->
     let first := getHtmlForWebview i w in
     let second := getHtmlForWebview i (snd first) in
     csp_nonce (fst first)
     = Some (utils_generateNonce (env w) (nonceCalls w)) /\
     csp_nonce (fst second)
     = Some (utils_generateNonce (env w) (S (nonceCalls w)))).
Proof.
  assert (Hv2 : forall (i : Webview) (w : World),
            benign (cspSource (env w)) = true ->
            plain (getWebviewUri i ["media"; "reset.css"] w) = true ->
            plain (getWebviewUri i ["media"; "vscode.css"] w) = true ->
            csp_nonce (fst (Variant2.getHtmlForWebview i w))
            = Some (fst (Variant2.generateNonce w)) /\
            script_nonce (fst (Variant2.getHtmlForWebview i w))
            = Some (fst (Variant2.generateNonce w))).
  { intros i w Hc Hr Hs.
    unfold Variant2.getHtmlForWebview, Variant2.generateNonce. cbn [fst].
    apply Variant2Facts.v2_html_template_nonces; try done.
    apply Variant2Facts.nonce_loop_plain. }
  assert (Hv1 : forall (i : Webview) (w : World),
            plain (fst (generateNonce w)) = true ->
            csp_nonce (fst (getHtmlForWebview i w))
            = Some (fst (generateNonce w)) /\
            script_nonce (fst (getHtmlForWebview i w))
            = Some (fst (generateNonce w))).
  { intros i w Hn.
    unfold getHtmlForWebview, generateNonce in *. cbn [fst] in *.
    by apply html_template_nonces. }
  split; [exact Hv2|]. split; [exact Hv1|]. split.
  - intros i w Hc Hr Hs Hlt first second. subst first second.
    pose proof (Hv2 i w Hc Hr Hs) as [H1 _].
    pose proof (Hv2 i (snd (Variant2.getHtmlForWebview i w)) Hc Hr Hs)
      as [H2 _].
    rewrite H1, H2. clear H1 H2.
    assert (Hn : fst (Variant2.generateNonce
                        (snd (Variant2.getHtmlForWebview i w)))
                 = Variant2.nonce_loop (random_index (env w)) 32
                     (randomCalls w + 32) EmptyString).
    { rewrite (Nat.add_comm (randomCalls w) 32). reflexivity. }
    rewrite Hn. clear Hn.
    change (fst (Variant2.generateNonce w))
      with (Variant2.nonce_loop (random_index (env w)) 32 (randomCalls w)
              EmptyString).
    rewrite <- (Variant2Facts.nonce_loop_inj _ 32 (randomCalls w)
                  (randomCalls w + 32)).
    + split; [apply (inj Some)|intros Heq; by rewrite Heq].
    + intros j Hj. split; [apply Hlt; lia|].
      replace (randomCalls w + 32 + j) with (randomCalls w + (32 + j)) by lia.
      apply Hlt. lia.
  - intros i w H1 H2 first second. subst first second.
    split; [by apply (Hv1 i w)|].
    by apply (Hv1 i (snd (getHtmlForWebview i w))).
Qed.

Lemma nonce_in_document_witness :
  let i := {| panel := 0; extensionUri := "/ext"; disposables := [] |} in
  let w := initial sample_env in
  csp_nonce (fst (Variant2.getHtmlForWebview i w))
  = Some (fst (Variant2.generateNonce w)) /\
  script_nonce (fst (Variant2.getHtmlForWebview i w))
  = Some (fst (Variant2.generateNonce w)) /\
  csp_nonce (fst (Variant2.getHtmlForWebview i w))
  <> csp_nonce (fst (Variant2.getHtmlForWebview i
                       (snd (Variant2.getHtmlForWebview i w)))).
Proof.
  intros i w. destruct nonce_in_document as (Hdoc & _ & Hsucc & _).
  destruct (Hdoc i w ltac:(vm_compute; reflexivity)
              ltac:(vm_compute; reflexivity) ltac:(vm_compute; reflexivity))
    as [Hcsp Hscript].
  split; [exact Hcsp|]. split; [exact Hscript|].
  intros Heq.
  assert (Hlt : forall j, j < 64 ->
            random_index (env w) (randomCalls w + j) < 62).
  { intros j _. change ((7 * (0 + j) + 3) mod 62 < 62).
    apply Nat.mod_upper_bound. lia. }
  pose proof (proj1 (Hsucc i w ltac:(vm_compute; reflexivity)
                       ltac:(vm_compute; reflexivity)
                       ltac:(vm_compute; reflexivity) Hlt) Heq 0
                ltac:(lia)) as H0.
  vm_compute in H0. discriminate.
Defined.

(** Nothing in the generator keeps two successive nonces apart: with a
    random source that yields the same index throughout, two successive
    generations produce the same nonce and the same document. *)
Example nonce_repeats_with_draws :
  let i := {| panel := 0; extensionUri := "/ext"; disposables := [] |} in
  let w := initial stuck_env in
  let first := Variant2.getHtmlForWebview i w in
  let second := Variant2.getHtmlForWebview i (snd first) in
  fst (Variant2.generateNonce w) = fst (Variant2.generateNonce (snd first)) /\
  fst first = fst second /\
  csp_nonce (fst first) = csp_nonce (fst second).
Proof. vm_compute. done. Qed.

(** The sample host draws different indices, and the nonces differ. *)
Example nonce_sample :
  fst (Variant2.generateNonce (initial sample_env))
  = "DKRYfmt07ELSZgnu18FMTahov29GNUbi" /\
  fst (Variant2.generateNonce (snd (Variant2.generateNonce (initial sample_env))))
  <> fst (Variant2.generateNonce (initial sample_env)).
Proof. vm_compute. split; [reflexivity|discriminate]. Qed.

(** * Further properties of the controller *)

#[local] Opaque html_template Variant2.html_template.

(** ** What [dispose()] does to the singleton and the instances *)

Lemma drain_frame (stack : list nat) (self : nat) (w : World) :
  currentPanel (snd (drain stack self w)) = currentPanel w /\
  length (instances (snd (drain stack self w))) = length (instances w).
Proof.
  revert w. induction stack as [|d stack IH]; intros w; [done|].
  cbn [drain]. unfold disposable_dispose.
  destruct (throwing _ d).
  - cbn. by rewrite length_alter.
  - match goal with |- context [drain stack self ?w1] =>
      destruct (IH w1) as [-> ->] end.
    cbn. by rewrite length_alter.
Qed.

(** A world from which a callback starts either has no tracked instance
    already or the callback clears it: the statement carried through the
    re-entrant calls. *)
Lemma fire_dispose_absent (cb : nat -> World -> option World)
    (ls : list Subscription) (w w' : World) :
  (forall s w1 w2, cb s w1 = Some w2 ->
     length (instances w2) = length (instances w1) /\
     (currentPanel w1 = None -> currentPanel w2 = None) /\
     (s < length (instances w1) -> currentPanel w2 = None)) ->
  fire_dispose cb ls w = Some w' ->
  length (instances w') = length (instances w) /\
  (currentPanel w = None -> currentPanel w' = None) /\
  ((exists s self, s ∈ ls /\ sub_listener s = OnDispose self /\
                   self < length (instances w)) ->
   currentPanel w' = None).
Proof.
  intros Hcb. revert w. induction ls as [|s ls IH]; intros w Hrun.
  - injection Hrun as <-. split; [done|]. split; [done|].
    intros (s & self & Hin & _). by apply elem_of_nil in Hin.
  - cbn [fire_dispose] in Hrun.
    destruct (sub_listener s) as [self| |?|?] eqn:Hs.
    + destruct (cb self w) as [w1|] eqn:Hw1; [|done].
      destruct (Hcb self w w1 Hw1) as (Hlen & Hkeep & Hclear).
      destruct (IH w1 Hrun) as (Hlen' & Hkeep' & Hclear').
      split; [congruence|]. split; [auto|].
      intros (s0 & self0 & Hin & Hs0 & Hself0).
      apply elem_of_cons in Hin as [->|Hin].
      * rewrite Hs in Hs0. injection Hs0 as <-. auto.
      * apply Hclear'. exists s0, self0. rewrite Hlen. done.
    + destruct (IH w Hrun) as (Hlen' & Hkeep' & Hclear').
      split; [done|]. split; [done|].
      intros (s0 & self0 & Hin & Hs0 & Hself0).
      apply elem_of_cons in Hin as [->|Hin]; [congruence|].
      apply Hclear'. eauto.
    + destruct (IH w Hrun) as (Hlen' & Hkeep' & Hclear').
      split; [done|]. split; [done|].
      intros (s0 & self0 & Hin & Hs0 & Hself0).
      apply elem_of_cons in Hin as [->|Hin]; [congruence|].
      apply Hclear'. eauto.
    + destruct (IH w Hrun) as (Hlen' & Hkeep' & Hclear').
      split; [done|]. split; [done|].
      intros (s0 & self0 & Hin & Hs0 & Hself0).
      apply elem_of_cons in Hin as [->|Hin]; [congruence|].
      apply Hclear'. eauto.
Qed.

Lemma surface_dispose_absent (cb : nat -> World -> option World) (h : nat)
    (w w' : World) :
  (forall s w1 w2, cb s w1 = Some w2 ->
     length (instances w2) = length (instances w1) /\
     (currentPanel w1 = None -> currentPanel w2 = None) /\
     (s < length (instances w1) -> currentPanel w2 = None)) ->
  surface_dispose cb h w = Some w' ->
  length (instances w') = length (instances w) /\
  (currentPanel w = None -> currentPanel w' = None) /\
  (live h w = true ->
   (exists s self, s ∈ listeners_on h DidDispose w /\
                   sub_listener s = OnDispose self /\
                   self < length (instances w)) ->
   currentPanel w' = None).
Proof.
  intros Hcb. unfold surface_dispose, live.
  destruct (panels w !! h) as [p|]; [|by intros [= <-]].
  destruct (disposed p); [by intros [= <-]|].
  destruct (fire_dispose cb _ _) as [w2|] eqn:Hfire; [|done].
  intros [= <-].
  apply (fire_dispose_absent cb _ _ _ Hcb) in Hfire
    as (Hlen & Hkeep & Hclear).
  split; [exact Hlen|]. split; [exact Hkeep|].
  intros _ Hex. by apply Hclear.
Qed.

Lemma dispose_absent (fuel self : nat) (w : World) (r : Outcome * World) :
  dispose fuel self w = Some r ->
  length (instances (snd r)) = length (instances w) /\
  (currentPanel w = None -> currentPanel (snd r) = None) /\
  (self < length (instances w) -> currentPanel (snd r) = None).
Proof.
  revert self w r. induction fuel as [|fuel IH]; intros self w r; [done|].
  cbn [dispose]. destruct (instances w !! self) as [i|] eqn:Hi.
  - destruct (surface_dispose _ _ _) as [w2|] eqn:Hsd; [|done].
    apply surface_dispose_absent in Hsd as (Hlen & Hkeep & _).
    + specialize (Hkeep eq_refl).
      change (length (instances w2) = length (instances w)) in Hlen.
      destruct (instances w2 !! self) as [i2|].
      * intros [= <-].
        destruct (drain_frame (rev (disposables i2)) self w2) as [Hc Hl].
        rewrite Hc, Hl. done.
      * intros [= <-]. done.
    + intros s w1 w3 Hcb.
      destruct (dispose fuel s w1) as [r1|] eqn:Hr1; [|done].
      injection Hcb as <-. by apply IH.
  - intros [= <-]. split; [done|]. split; [done|].
    intros Hlt. apply lookup_ge_None in Hi. lia.
Qed.

(** ** [create] called directly *)

(** [create] never touches the singleton: called on its own it constructs
    one more surface (with the construction options, the static title and
    view type, the requested column) and one more instance wrapping it,
    with the three registrations of the constructor, and leaves the tracked
    reference, the older instances and surfaces and the promises as they
    were.  If an instance was tracked, the new one is an orphan: the next
    [render] reveals the tracked surface and constructs nothing. *)
Theorem create_leaves_singleton (uri : Uri) (col : ViewColumn) (w : World) :
  let self := fst (create uri col w) in
  let w' := snd (create uri col w) in
  self = length (instances w) /\
  currentPanel w' = currentPanel w /\
  instances w' = instances w ++
    [{| panel := length (panels w); extensionUri := uri;
        disposables := [nextSub w; S (nextSub w); S (S (nextSub w))] |}] /\
  panels w' = panels w ++
    [{| viewType := Webview_viewType; title := Webview_title;
        viewColumn := col; options := getOptions uri;
        html := markup_of uri w; visible := true; disposed := false |}] /\
  promises w' = promises w /\
  (forall c i uri2 col2,
     currentPanel w = Some c -> instances w !! c = Some i ->
     let w2 := snd (render uri2 col2 w') in
     currentPanel w2 = Some c /\
     length (instances w2) = length (instances w') /\
     panels w2 = panels w' /\
     trace w2 = EvReveal (panel i) col2 :: trace w').
Proof.
  intros self w'. subst self w'. unfold create, createWebviewPanel.
  rewrite new_Webview_eq. cbn [fst snd].
  cbn [env currentPanel instances panels subs nextSub promises nonceCalls
       randomCalls trace emit set_panels].
  rewrite alter_snoc_last.
  split; [done|]. split; [done|]. split; [done|]. split; [done|].
  split; [done|].
  intros c i uri2 col2 Hc Hi.
  erewrite render_tracked; cycle 1.
  - exact Hc.
  - cbn. by apply lookup_app_l_Some.
  - cbn. by rewrite length_alter.
Qed.

Lemma create_leaves_singleton_witness :
  let w' := snd (create "/other" ViewColumn_One shown) in
  currentPanel w' = Some 0 /\
  length (instances w') = 2 /\
  length (instances (snd (render "/ext" Webview_viewColumn w'))) = 2.
Proof.
  intros w'.
  destruct (create_leaves_singleton "/other" ViewColumn_One shown)
    as (_ & Hc & Hi & _ & _ & Hnext).
  destruct (Hnext 0 {| panel := 0; extensionUri := "/ext";
                       disposables := [0; 1; 2; 3] |}
              "/ext" Webview_viewColumn eq_refl eq_refl)
    as (_ & Hlen & _).
  fold w' in Hc, Hi, Hlen.
  split; [rewrite Hc; vm_compute; reflexivity|].
  split; [rewrite Hi; vm_compute; reflexivity|].
  rewrite Hlen, Hi. vm_compute. reflexivity.
Defined.

(** ** The singleton after a disposal *)

(** [dispose()] clears the singleton unconditionally: whichever instance
    it is called on (the tracked one or not), and whatever the listeners
    and handles do, no instance is tracked when it returns, and the next
    [render] constructs a new instance.  The same holds when the user
    closes a live surface on which the [onDidDispose] listener of an
    instance is registered. *)
Theorem dispose_always_clears :
  (forall (fuel self : nat) (w : World) (r : Outcome * World) (i : Webview),
     instances w !! self = Some i -> dispose fuel self w = Some r ->
     currentPanel (snd r) = None /\
     length (instances (snd r)) = length (instances w) /\
     forall uri col,
       currentPanel (snd (render uri col (snd r)))
       = Some (length (instances w)) /\
       length (instances (snd (render uri col (snd r))))
       = S (length (instances w))) /\
  (forall (fuel h self : nat) (w w' : World) (s : Subscription) (i : Webview),
     live h w = true -> s ∈ listeners_on h DidDispose w ->
     sub_listener s = OnDispose self -> instances w !! self = Some i ->
     closePanel fuel h w = Some w' ->
     currentPanel w' = None /\ gone h w' = true).
Proof.
  split.
  - intros fuel self w r i Hi Hr.
    apply dispose_absent in Hr as (Hlen & _ & Hclear).
    specialize (Hclear (lookup_lt_Some _ _ _ Hi)).
    split; [done|]. split; [done|]. intros uri col.
    rewrite (render_absent _ _ _ Hclear). cbn.
    rewrite length_app, Hlen. cbn. split; [done|lia].
  - intros fuel h self w w' s i Hlive Hin Hs Hi Hclose.
    split.
    + unfold closePanel in Hclose.
      apply surface_dispose_absent in Hclose as (_ & _ & Hclear).
      * apply Hclear; [done|]. exists s, self.
        split; [done|]. split; [done|]. by apply (lookup_lt_Some _ _ i).
      * intros s0 w1 w2 Hcb.
        destruct (dispose fuel s0 w1) as [r1|] eqn:Hr1; [|done].
        injection Hcb as <-. by apply (dispose_absent fuel).
    + apply closePanel_fades in Hclose as [_ Hg]. apply Hg.
      by apply live_is_Some.
Qed.

Lemma dispose_always_clears_witness :
  exists r, dispose 2 0 restored_beside = Some r /\ currentPanel (snd r) = None.
Proof.
  assert (Hrun : exists r, dispose 2 0 restored_beside = Some r)
    by (eexists; vm_compute; reflexivity).
  destruct Hrun as [r Hr]. exists r. split; [exact Hr|].
  destruct dispose_always_clears as [Hd _].
  exact (proj1 (Hd 2 0 restored_beside r
                  {| panel := 0; extensionUri := "/ext";
                     disposables := [0; 1; 2; 3] |}
                  ltac:(vm_compute; reflexivity) Hr)).
Defined.

(** The stale instance is instance 0 of the sample; instance 1 is the
    tracked one.  Disposing instance 0 returns and untracks instance 1. *)
Example stale_dispose_run :
  currentPanel restored_beside = Some 1 /\
  (r ← dispose 2 0 restored_beside;
   Some (fst r, currentPanel (snd r), live 1 (snd r), live 0 (snd r)))
  = Some (Returned, None, true, false).
Proof. vm_compute. done. Qed.


(** When an instance that is not the tracked one is disposed (its surface
    may be closed by the user at any time), the tracked instance is
    untracked although its surface stays live, and the next [render]
    constructs another surface beside it: two live surfaces of the
    controller exist. *)
Theorem stale_dispose_second_surface (fuel a b : nat) (w : World)
    (ia ib : Webview) (pa : WebviewPanel) (uri : Uri) (col : ViewColumn) :
  instances w !! a = Some ia -> panels w !! panel ia = Some pa ->
  (disposed pa = false -> owns_disposal a (panel ia) w) ->
  (forall d, d ∈ disposables ia -> throwing (env w) d = false) ->
  currentPanel w = Some b -> instances w !! b = Some ib ->
  panel ib <> panel ia -> live (panel ib) w = true ->
  exists w1,
    dispose (S (S fuel)) a w = Some (Returned, w1) /\
    currentPanel w1 = None /\ live (panel ib) w1 = true /\
    let w2 := snd (render uri col w1) in
    currentPanel w2 = Some (length (instances w)) /\
    live (panel ib) w2 = true /\
    live (length (panels w)) w2 = true /\
    length (panels w) <> panel ib.
Proof.
  intros Hia Hpa Hown Hok Hb Hib Hne Hlive.
  destruct (dispose_quiet fuel a w ia pa Hia Hpa Hown Hok)
    as (w1 & Hrun & _ & Hc & Hinst & Hpan & _).
  exists w1. split; [done|]. split; [done|].
  assert (Hlive1 : live (panel ib) w1 = true).
  { unfold live. rewrite Hpan, list_lookup_alter_ne by done. exact Hlive. }
  split; [done|].
  assert (Hlenp : length (panels w1) = length (panels w))
    by (by rewrite Hpan, length_alter).
  assert (Hleni : length (instances w1) = length (instances w))
    by (by rewrite Hinst, length_alter).
  rewrite (render_absent _ _ _ Hc). cbn -[live].
  split; [by rewrite Hleni|].
  unfold live in *. cbn.
  destruct (panels w1 !! panel ib) as [pb|] eqn:Hpb; [|done].
  rewrite (lookup_app_l_Some _ _ _ _ Hpb).
  split; [done|]. rewrite <- Hlenp, lookup_snoc_last.
  split; [done|]. apply lookup_lt_Some in Hpb. lia.
Qed.

Lemma stale_dispose_second_surface_witness :
  exists w1,
    dispose 2 0 restored_beside = Some (Returned, w1) /\
    live 1 (snd (render "/ext" Webview_viewColumn w1)) = true /\
    live 2 (snd (render "/ext" Webview_viewColumn w1)) = true.
Proof.
  assert (Hown : owns_disposal 0 0 restored_beside).
  { exists {| sub_id := 0; sub_panel := 0; sub_listener := OnDispose 0 |}.
    split; [vm_compute; reflexivity | reflexivity]. }
  destruct (stale_dispose_second_surface 0 0 1 restored_beside
              {| panel := 0; extensionUri := "/ext";
                 disposables := [0; 1; 2; 3] |}
              {| panel := 1; extensionUri := "/ext";
                 disposables := [4; 5; 6] |}
              {| viewType := Webview_viewType; title := Webview_title;
                 viewColumn := Webview_viewColumn;
                 options := getOptions "/ext";
                 html := markup_of "/ext" (initial sample_env);
                 visible := true; disposed := false |}
              "/ext" Webview_viewColumn
              ltac:(vm_compute; reflexivity) ltac:(vm_compute; reflexivity)
              (fun _ => Hown) (fun d _ => eq_refl)
              ltac:(vm_compute; reflexivity) ltac:(vm_compute; reflexivity)
              ltac:(discriminate) ltac:(vm_compute; reflexivity))
    as (w1 & Hrun & _ & _ & _ & Hl1 & Hl2 & _).
  exists w1. split; [exact Hrun|]. split; [exact Hl1|].
  assert (Hlen : length (panels restored_beside) = 2)
    by (vm_compute; reflexivity).
  rewrite Hlen in Hl2. exact Hl2.
Defined.

(** ** [revive] over a tracked instance *)

(** [revive] does not dispose what was tracked before: the new instance
    becomes the singleton, while the instance tracked until then, every
    surface's disposed flag, every listener registered before and every
    promise stay as they were.  What the constructor asks of the host is
    the assignment of the markup and its three registrations on the
    restored surface (disposal, messages, view state, in this order),
    which come after the listeners already there; the old surface is
    neither disposed nor revealed, and nothing is posted.  From then on
    [postMessage] reaches the revived surface only. *)
Theorem revive_leaves_old_instance (h : nat) (uri : Uri) (w : World)
    (c : nat) (i : Webview) (message : Message) :
  currentPanel w = Some c -> instances w !! c = Some i ->
  let w' := revive h uri w in
  currentPanel w' = Some (length (instances w)) /\
  length (instances w) <> c /\
  instances w' !! c = Some i /\
  subs w' = subs w ++
    [{| sub_id := nextSub w; sub_panel := h;
        sub_listener := OnDispose (length (instances w)) |};
     {| sub_id := S (nextSub w); sub_panel := h;
        sub_listener := HandleMessage |};
     {| sub_id := S (S (nextSub w)); sub_panel := h;
        sub_listener := OnViewState (length (instances w)) |}] /\
  (forall h', gone h' w' = gone h' w) /\
  promises w' = promises w /\
  trace w' = EvSetHtml h (markup_of uri w) :: trace w /\
  trace (postMessage message w') = EvPostMessage h message :: trace w'.
Proof.
  intros Hc Hi w'. subst w'. unfold revive. rewrite new_Webview_eq.
  cbn [fst snd]. unfold postMessage.
  cbn [env currentPanel instances panels subs nextSub promises nonceCalls
       randomCalls trace set_currentPanel].
  rewrite lookup_snoc_last. cbn.
  split; [done|]. split; [apply lookup_lt_Some in Hi; lia|].
  split; [by apply lookup_app_l_Some|].
  split; [done|].
  split; [|done]. intros h'. unfold gone. cbn. by apply gone_alter.
Qed.

Lemma revive_leaves_old_instance_witness :
  let w := snd (createWebviewPanel Webview_viewType "Restored" ViewColumn_One
                  {| enableScripts := true; localResourceRoots := None |}
                  shown) in
  currentPanel (revive 1 "/ext" w) = Some (length (instances w)) /\
  instances (revive 1 "/ext" w) !! 0
  = Some {| panel := 0; extensionUri := "/ext";
            disposables := [0; 1; 2; 3] |}.
Proof.
  intros w.
  destruct (revive_leaves_old_instance 1 "/ext" w 0
              {| panel := 0; extensionUri := "/ext";
                 disposables := [0; 1; 2; 3] |}
              {| command := "x"; data := EmptyString |}
              ltac:(vm_compute; reflexivity) ltac:(vm_compute; reflexivity))
    as (Hc & _ & Hi & _).
  split; [exact Hc | exact Hi].
Defined.

(** ** The life of a handshake promise *)

Lemma deliver_message_final (message : Message) (w : World)
    (s : Subscription) (p : nat) (st : PromiseState) :
  promises w !! p = Some st -> st <> Pending ->
  promises (deliver_message message w s) !! p = Some st.
Proof.
  intros Hp Hst. rewrite deliver_message_promises.
  destruct (sub_listener s) as [?| |?|q]; try done.
  destruct (decide (q = p)) as [->|Hne].
  - rewrite list_lookup_alter_eq, Hp. cbn. by destruct st.
  - by rewrite list_lookup_alter_ne.
Qed.

Lemma receiveMessage_final (h : nat) (message : Message) (w : World)
    (p : nat) (st : PromiseState) :
  promises w !! p = Some st -> st <> Pending ->
  promises (receiveMessage h message w) !! p = Some st.
Proof.
  intros Hp Hst. unfold receiveMessage. destruct (live h w); [|done].
  generalize (listeners_on h DidReceiveMessage w). intros ls.
  revert w Hp. induction ls as [|s ls IH]; intros w Hp; [done|].
  cbn [foldl]. apply IH. by apply deliver_message_final.
Qed.

(** What a step other than an inbound message does to the promises: the
    ones that exist keep their state. *)
Lemma step_keeps_promises (fuel : nat) (o : Op) (w w' : World) (p : nat)
    (st : PromiseState) :
  is_message o = false -> step fuel o w = Some w' ->
  promises w !! p = Some st -> promises w' !! p = Some st.
Proof.
  intros Hm Hstep Hp.
  assert (Hgrow : forall w2, grows w w2 -> promises w2 !! p = Some st).
  { intros w2 ((more & Hmore) & _). rewrite Hmore.
    by apply lookup_app_l_Some. }
  destruct o as [uri col|uri col|h uri|m|self|h m|h v|h];
    cbn [step] in Hstep; try done.
  - injection Hstep as <-. apply Hgrow, create_grows.
  - injection Hstep as <-. apply Hgrow, render_grows.
  - injection Hstep as <-. apply Hgrow, revive_grows.
  - injection Hstep as <-.
    destruct (postMessage_same_wiring m w) as (-> & _). done.
  - destruct (dispose fuel self w) as [r|] eqn:Hr; [|done].
    injection Hstep as <-. apply dispose_fades in Hr as [(-> & _) _]. done.
  - injection Hstep as <-.
    destruct (changeViewState_same_wiring h v w) as (-> & _). done.
  - apply closePanel_fades in Hstep as [(-> & _) _]. done.
Qed.

(** A settled promise is final: once a handshake promise is resolved or
    rejected, no later message and no other operation or event changes
    it; in particular a 'ready' arriving after another first message does
    not resolve the rejected promise. *)
Theorem settled_promise_is_final (fuel : nat) (ops : list Op) (w w' : World)
    (p : nat) (st : PromiseState) :
  promises w !! p = Some st -> st <> Pending ->
  run fuel ops w = Some w' -> promises w' !! p = Some st.
Proof.
  intros Hp Hst. revert w Hp. induction ops as [|o ops IH]; intros w Hp.
  - by intros [= <-].
  - cbn [run]. destruct (step fuel o w) as [w1|] eqn:Hstep; [|done].
    apply IH. destruct (is_message o) eqn:Hm.
    + destruct o; try done. cbn in Hstep. injection Hstep as <-.
      by apply receiveMessage_final.
    + by apply (step_keeps_promises fuel o w).
Qed.

Lemma settled_promise_is_final_witness :
  let late := [OpMessage 0 {| command := "ready"; data := EmptyString |};
               OpViewState 0 true;
               OpMessage 0 {| command := "ready"; data := EmptyString |}] in
  let w := receiveMessage 0 {| command := "error"; data := "x" |} shown in
  exists w', run 1 late w = Some w' /\ promises w' !! 0 = Some Rejected.
Proof.
  intros late w.
  assert (Hrun : exists w', run 1 late w = Some w')
    by (eexists; vm_compute; reflexivity).
  destruct Hrun as [w' Hw']. exists w'. split; [exact Hw'|].
  apply (settled_promise_is_final 1 late w w' 0 Rejected);
    [vm_compute; reflexivity | discriminate | exact Hw'].
Defined.

(** Only an inbound message settles a promise: a run of calls of
    [create], [render], [revive], [postMessage], [dispose], visibility
    changes and user closes leaves every promise that exists in the state
    it had, whether pending or settled. *)
Theorem only_messages_settle (fuel : nat) (ops : list Op) (w w' : World)
    (p : nat) (st : PromiseState) :
  forallb (fun o => negb (is_message o)) ops = true ->
  run fuel ops w = Some w' ->
  promises w !! p = Some st -> promises w' !! p = Some st.
Proof.
  revert w. induction ops as [|o ops IH]; intros w Hall Hrun Hp.
  - by injection Hrun as <-.
  - cbn [forallb] in Hall. apply andb_true_iff in Hall as [Ho Hall].
    apply negb_true_iff in Ho.
    cbn [run] in Hrun. destruct (step fuel o w) as [w1|] eqn:Hstep; [|done].
    apply (IH w1); [done|done|]. by apply (step_keeps_promises fuel o w).
Qed.

Lemma only_messages_settle_witness :
  let quiet := [OpRender "/ext" ViewColumn_One; OpViewState 0 false;
                OpPostMessage {| command := "x"; data := EmptyString |};
                OpDispose 0; OpRender "/ext" ViewColumn_One] in
  exists w', run 2 quiet shown = Some w' /\ promises w' !! 0 = Some Pending.
Proof.
  intros quiet.
  assert (Hrun : exists w', run 2 quiet shown = Some w')
    by (eexists; vm_compute; reflexivity).
  destruct Hrun as [w' Hw']. exists w'. split; [exact Hw'|].
  apply (only_messages_settle 2 quiet shown w' 0 Pending);
    [reflexivity | exact Hw' | vm_compute; reflexivity].
Defined.

(** One message settles every outstanding promise alike: after [n] calls
    of [render] on a fresh host with no message in between, the first
    inbound message resolves all [n] promises if its command is 'ready'
    and rejects all of them otherwise. *)
Theorem message_settles_all (e : Env) (calls : list (Uri * ViewColumn))
    (message : Message) :
  calls <> [] ->
  promises (receiveMessage 0 message (render_all calls (initial e)))
  = replicate (length calls) (decision message).
Proof.
  intros Hne.
  pose proof (rendered_all e calls Hne)
    as (Hc & (u & Hi) & (p & Hp & Hd) & Hs & Hn & Hpr).
  set (n := length calls) in *. set (w := render_all calls (initial e)) in *.
  assert (Hlive : live 0 w = true)
    by (unfold live; rewrite Hp; cbn; by rewrite Hd).
  unfold receiveMessage. rewrite Hlive.
  rewrite (rendered_message_listeners n w Hs).
  pose proof (receive_wiring message
    ({| sub_id := 1; sub_panel := 0; sub_listener := HandleMessage |}
     :: handshake_subs n) w) as (_ & _ & _ & Hlen).
  rewrite Hpr, length_replicate in Hlen.
  apply list_eq. intros k.
  destruct (decide (k < n)) as [Hk|Hk].
  - rewrite (lookup_replicate_2 _ _ _ Hk).
    apply receive_settles.
    + by rewrite Hpr, lookup_replicate_2.
    + exists (handshake_sub k). split; [|done].
      right. unfold handshake_subs. apply list_elem_of_fmap_2.
      apply elem_of_seq. lia.
  - rewrite (lookup_ge_None_2 (replicate _ _))
      by (rewrite length_replicate; lia).
    apply lookup_ge_None_2. lia.
Qed.

Lemma message_settles_all_witness :
  promises (receiveMessage 0 {| command := "oops"; data := EmptyString |}
              (render_all [("/ext", ViewColumn_One); ("/ext", ViewColumn_One)]
                 (initial sample_env)))
  = [Rejected; Rejected].
Proof.
  exact (message_settles_all sample_env
           [("/ext", ViewColumn_One); ("/ext", ViewColumn_One)]
           {| command := "oops"; data := EmptyString |}
           ltac:(discriminate)).
Defined.

(** The handshake listens on the tracked surface only: a message of any
    other surface, whatever its command, leaves the promise of [render]
    pending. *)
Theorem other_surface_message_ignored (uri : Uri) (col : ViewColumn)
    (w : World) (h : nat) (message : Message) :
  handler_installed w -> listeners_known w ->
  let p := fst (render uri col w) in
  let w1 := snd (render uri col w) in
  exists c i,
    currentPanel w1 = Some c /\ instances w1 !! c = Some i /\
    (h <> panel i ->
     promises (receiveMessage h message w1) !! p = Some Pending).
Proof.
  intros Hinst Hknown p w1.
  destruct (render_handshake_place uri col w Hinst Hknown)
    as (c & i & Hc & Hi & Hp & Hlive & Hplace).
  fold p in Hp, Hplace. fold w1 in Hc, Hi, Hp, Hlive, Hplace.
  exists c, i. split; [done|]. split; [done|]. intros Hne.
  unfold receiveMessage. destruct (live h w1); [|done].
  rewrite receive_other; [done|].
  intros s Hin Hs. apply elem_of_listeners_on in Hin as [[Hh _] Hin].
  specialize (Hplace s Hin Hs). congruence.
Qed.

Lemma other_surface_message_ignored_witness :
  let w := snd (createWebviewPanel Webview_viewType "Other" ViewColumn_One
                  {| enableScripts := true; localResourceRoots := None |}
                  (initial sample_env)) in
  exists c i,
    currentPanel (snd (render "/ext" ViewColumn_One w)) = Some c /\
    instances (snd (render "/ext" ViewColumn_One w)) !! c = Some i.
Proof.
  intros w.
  destruct (other_surface_message_ignored "/ext" ViewColumn_One w 0
              {| command := "ready"; data := EmptyString |} I
              (fun s q Hin _ => False_ind _ (proj1 (elem_of_nil s) Hin)))
    as (c & i & Hc & Hi & _).
  exists c, i. split; [exact Hc | exact Hi].
Defined.

(** On the sample: a surface of the host exists before [render]; its
    'ready' does not resolve the promise, the tracked surface's does. *)
Example other_surface_run :
  let w := snd (createWebviewPanel Webview_viewType "Other" ViewColumn_One
                  {| enableScripts := true; localResourceRoots := None |}
                  (initial sample_env)) in
  let w1 := snd (render "/ext" ViewColumn_One w) in
  let ready := {| command := "ready"; data := EmptyString |} in
  promises (receiveMessage 0 ready w1) = [Pending] /\
  promises (receiveMessage 1 ready w1) = [Resolved].
Proof. vm_compute. done. Qed.

(** ** A throwing handle and the next disposal *)



(** ** Re-entrant disposal ends *)

Lemma fire_dispose_mono (cb cb' : nat -> World -> option World)
    (ls : list Subscription) (w w' : World) :
  (forall s w1 w2, cb s w1 = Some w2 -> cb' s w1 = Some w2) ->
  fire_dispose cb ls w = Some w' -> fire_dispose cb' ls w = Some w'.
Proof.
  intros Hcb. revert w. induction ls as [|s ls IH]; intros w; [done|].
  cbn [fire_dispose]. destruct (sub_listener s) as [self| |?|?]; try apply IH.
  destruct (cb self w) as [w1|] eqn:Hw1; [|done].
  rewrite (Hcb self w w1 Hw1). apply IH.
Qed.

Lemma surface_dispose_mono (cb cb' : nat -> World -> option World) (h : nat)
    (w w' : World) :
  (forall s w1 w2, cb s w1 = Some w2 -> cb' s w1 = Some w2) ->
  surface_dispose cb h w = Some w' -> surface_dispose cb' h w = Some w'.
Proof.
  intros Hcb. unfold surface_dispose.
  destruct (panels w !! h) as [p|]; [|done].
  destruct (disposed p); [done|].
  destruct (fire_dispose cb _ _) as [w2|] eqn:Hfire; [|done].
  by rewrite (fire_dispose_mono cb cb' _ _ _ Hcb Hfire).
Qed.

Lemma dispose_more_fuel (fuel fuel' self : nat) (w : World)
    (r : Outcome * World) :
  fuel <= fuel' -> dispose fuel self w = Some r -> dispose fuel' self w = Some r.
Proof.
  revert fuel' self w r. induction fuel as [|fuel IH];
    intros fuel' self w r Hle; [done|].
  destruct fuel' as [|fuel']; [lia|].
  cbn [dispose]. destruct (instances w !! self) as [i|]; [|done].
  destruct (surface_dispose _ _ _) as [w2|] eqn:Hsd; [|done].
  assert (Hcbs : forall s w1 w3,
             snd <$> dispose fuel s w1 = Some w3 ->
             snd <$> dispose fuel' s w1 = Some w3).
  2: { by rewrite (surface_dispose_mono _
                     (fun s w' => snd <$> dispose fuel' s w') _ _ w2 Hcbs Hsd). }
  intros s w1 w3 Hcb.
  destruct (dispose fuel s w1) as [r1|] eqn:Hr1; [|done].
  rewrite (IH fuel' s w1 r1); [done|lia|done].
Qed.

(** [dispose()] always returns.  Its call [this.panel.dispose()] comes
    back to [dispose()] through the [onDidDispose] listeners, but a surface
    fires its disposal once only, so the nesting is bounded by the number
    of surfaces that are still open: any fuel beyond that number gives the
    same result, and the disposal opens no surface. *)
Theorem dispose_returns (fuel fuel' self : nat) (w : World) :
  open_surfaces w < fuel -> fuel <= fuel' ->
  exists r,
    dispose fuel self w = Some r /\ dispose fuel' self w = Some r /\
    open_surfaces (snd r) <= open_surfaces w.
Proof.
  intros Hfuel Hle.
  destruct (dispose_total fuel self w Hfuel) as (r & Hr & Hopen).
  exists r. split; [done|]. split; [|done].
  by apply (dispose_more_fuel fuel fuel').
Qed.

Lemma dispose_returns_witness :
  exists r, dispose 3 0 restored_beside = Some r /\
            dispose 7 0 restored_beside = Some r.
Proof.
  destruct (dispose_returns 3 7 0 restored_beside
              ltac:(vm_compute; lia) ltac:(lia))
    as (r & H3 & H7 & _).
  exists r. split; [exact H3 | exact H7].
Defined.

(** ** The tracked reference never dangles *)
















Lemma live_snoc (h : nat) (p : WebviewPanel) (w : World) :
  live h w = true -> live h (set_panels (panels w ++ [p]) w) = true.
Proof.
  unfold live. cbn. destruct (panels w !! h) as [p0|] eqn:Hp; [|done].
  by rewrite (lookup_app_l_Some _ _ _ _ Hp).
Qed.












(** ** The second variant *)

(** The constructor of the second variant, in closed form. *)
Lemma v2_new_Webview_eq (h : nat) (uri : Uri) (w : World) :
  Variant2Host.new_Webview h uri w =
  (length (instances w),
   {| env := env w;
      currentPanel := currentPanel w;
      instances := instances w ++
        [{| panel := h; extensionUri := uri;
            disposables := [nextSub w; S (nextSub w); S (S (nextSub w))] |}];
      panels := alter (with_html (Variant2Host.markup_of uri w)) h
                  (alter (with_title "WEBVIEW") h (panels w));
      subs := subs w ++
        [{| sub_id := nextSub w; sub_panel := h;
            sub_listener := OnDispose (length (instances w)) |};
         {| sub_id := S (nextSub w); sub_panel := h;
            sub_listener := HandleMessage |};
         {| sub_id := S (S (nextSub w)); sub_panel := h;
            sub_listener := OnViewState (length (instances w)) |}];
      nextSub := S (S (S (nextSub w)));
      promises := promises w;
      nonceCalls := nonceCalls w;
      randomCalls := 32 + randomCalls w;
      trace := EvSetHtml h (Variant2Host.markup_of uri w)
               :: EvSetTitle h "WEBVIEW" :: trace w |}).
Proof.
  unfold Variant2Host.new_Webview, Variant2.update.
  cbn [instances set_instances].
  rewrite lookup_snoc_last.
  unfold Variant2.getHtmlForWebview, Variant2.generateNonce, register,
    assign_html, assign_title, Variant2Host.markup_of, getWebviewUri.
  cbn. rewrite !alter_snoc_last. cbn.
  rewrite <- !app_assoc. reflexivity.
Qed.

Lemma v2_render_absent (uri : Uri) (active : option ViewColumn) (w : World) :
  currentPanel w = None ->
  Variant2Host.render uri active w =
  {| env := env w;
     currentPanel := Some (length (instances w));
     instances := instances w ++
       [{| panel := length (panels w); extensionUri := uri;
           disposables := [nextSub w; S (nextSub w); S (S (nextSub w))] |}];
     panels := panels w ++
       [{| viewType := Webview_viewType; title := "WEBVIEW";
           viewColumn := default ViewColumn_One active;
           options := Variant2.getWebviewOptions uri;
           html := Variant2Host.markup_of uri w;
           visible := true; disposed := false |}];
     subs := subs w ++
       [{| sub_id := nextSub w; sub_panel := length (panels w);
           sub_listener := OnDispose (length (instances w)) |};
        {| sub_id := S (nextSub w); sub_panel := length (panels w);
           sub_listener := HandleMessage |};
        {| sub_id := S (S (nextSub w)); sub_panel := length (panels w);
           sub_listener := OnViewState (length (instances w)) |}];
     nextSub := S (S (S (nextSub w)));
     promises := promises w;
     nonceCalls := nonceCalls w;
     randomCalls := 32 + randomCalls w;
     trace := EvSetHtml (length (panels w)) (Variant2Host.markup_of uri w)
              :: EvSetTitle (length (panels w)) "WEBVIEW"
              :: EvCreatePanel (length (panels w)) :: trace w |}.
Proof.
  intros Hc. unfold Variant2Host.render. rewrite Hc.
  unfold Variant2Host.create, createWebviewPanel.
  rewrite v2_new_Webview_eq. cbn.
  apply world_eq; cbn; try done.
  by rewrite !alter_snoc_last.
Qed.

Lemma v2_render_tracked (uri : Uri) (active : option ViewColumn) (w : World)
    (c : nat) (i : Webview) :
  currentPanel w = Some c -> instances w !! c = Some i ->
  Variant2Host.render uri active w
  = emit (EvReveal (panel i) (default ViewColumn_One active)) w.
Proof.
  intros Hc Hi. unfold Variant2Host.render. by rewrite Hc, Hi.
Qed.

(** In the second variant [render] only ever reveals once an instance is
    tracked: the first call on a world without a tracked instance
    constructs one surface and one instance with the three registrations
    of the constructor; however many calls follow, with whatever
    arguments, no surface, instance, listener or cleanup handle is added
    and no promise is made: the calls leave one reveal each in the trace
    and nothing else.  The surface does not keep the static title it was
    created with: the constructor's [update()] has set "WEBVIEW". *)
Theorem v2_render_reveals_only (uri : Uri) (active : option ViewColumn)
    (calls : list (Uri * option ViewColumn)) (w : World) :
  currentPanel w = None ->
  let h := length (panels w) in
  let w1 := Variant2Host.render uri active w in
  let wn := foldl (fun w c => Variant2Host.render c.1 c.2 w) w1 calls in
  currentPanel wn = Some (length (instances w)) /\
  instances wn = instances w ++
    [{| panel := h; extensionUri := uri;
        disposables := [nextSub w; S (nextSub w); S (S (nextSub w))] |}] /\
  panels wn = panels w ++
    [{| viewType := Webview_viewType; title := "WEBVIEW";
        viewColumn := default ViewColumn_One active;
        options := Variant2.getWebviewOptions uri;
        html := Variant2Host.markup_of uri w;
        visible := true; disposed := false |}] /\
  subs wn = subs w1 /\ length (subs wn) = length (subs w) + 3 /\
  promises wn = promises w /\
  trace wn = Variant2Host.reveals h (map snd calls) ++ trace w1.
Proof.
  intros Hc h w1 wn.
  assert (H1 : currentPanel w1 = Some (length (instances w)) /\
               instances w1 !! length (instances w)
               = Some {| panel := h; extensionUri := uri;
                         disposables := [nextSub w; S (nextSub w);
                                         S (S (nextSub w))] |}).
  { unfold w1. rewrite (v2_render_absent uri active w Hc). cbn.
    split; [done|apply lookup_snoc_last]. }
  assert (Hn : currentPanel wn = currentPanel w1 /\
               instances wn = instances w1 /\ panels wn = panels w1 /\
               subs wn = subs w1 /\ promises wn = promises w1 /\
               trace wn = Variant2Host.reveals h (map snd calls) ++ trace w1).
  { unfold wn. destruct H1 as [Hc1 Hi1]. revert Hc1 Hi1.
    generalize w1. clear w1 wn.
    induction calls as [|[u a] calls IH]; intros w1 Hc1 Hi1; [done|].
    cbn [foldl fst snd map].
    rewrite (v2_render_tracked u a w1 _ _ Hc1 Hi1). cbn [panel].
    destruct (IH (emit (EvReveal h (default ViewColumn_One a)) w1))
      as (-> & -> & -> & -> & -> & ->); [done|done|].
    repeat (split; [done|]). unfold Variant2Host.reveals. cbn [map rev].
    by rewrite <- !app_assoc. }
  destruct Hn as (-> & -> & -> & -> & -> & ->).
  unfold w1. rewrite (v2_render_absent uri active w Hc). cbn.
  repeat (split; [done|]). split; [|done].
  rewrite length_app. cbn. lia.
Qed.

Lemma v2_render_reveals_only_witness :
  let wn := foldl (fun w c => Variant2Host.render c.1 c.2 w)
              (Variant2Host.render "/ext" None (initial sample_env))
              [("/ext", Some ViewColumn_Beside); ("/other", None)] in
  length (subs wn) = 3 /\ promises wn = [].
Proof.
  destruct (v2_render_reveals_only "/ext" None
              [("/ext", Some ViewColumn_Beside); ("/other", None)]
              (initial sample_env) eq_refl)
    as (_ & _ & _ & _ & Hs & Hp & _).
  split; [exact Hs | exact Hp].
Defined.

(** [revive] of the second variant wraps the restored surface as the first
    variant does, but the constructor's [update()] replaces whatever title
    the host restored by "WEBVIEW"; view type, column and options stay the
    restored ones (the options of [getWebviewOptions] are not applied), the
    content is regenerated, the new instance is tracked, and every other
    surface is as it was. *)
Theorem v2_revive_retitles (h : nat) (uri : Uri) (w : World)
    (p : WebviewPanel) :
  panels w !! h = Some p ->
  let w' := Variant2Host.revive h uri w in
  currentPanel w' = Some (length (instances w)) /\
  panels w' !! h =
    Some {| viewType := viewType p; title := "WEBVIEW";
            viewColumn := viewColumn p; options := options p;
            html := Variant2Host.markup_of uri w;
            visible := visible p; disposed := disposed p |} /\
  (forall h', h' <> h -> panels w' !! h' = panels w !! h') /\
  trace w' = EvSetHtml h (Variant2Host.markup_of uri w)
             :: EvSetTitle h "WEBVIEW" :: trace w.
Proof.
  intros Hp w'. unfold w', Variant2Host.revive.
  rewrite v2_new_Webview_eq. cbn.
  split; [done|]. split; [|split; [|done]].
  - by rewrite !list_lookup_alter_eq, Hp.
  - intros h' Hne. by rewrite !list_lookup_alter_ne.
Qed.

Lemma v2_revive_retitles_witness :
  title <$> panels (Variant2Host.revive 0 "/ext" shown) !! 0 = Some "WEBVIEW"
  /\ title <$> panels shown !! 0 = Some Webview_title.
Proof.
  split; [|vm_compute; reflexivity].
  destruct (v2_revive_retitles 0 "/ext" shown _
              ltac:(vm_compute; reflexivity)) as (_ & -> & _).
  reflexivity.
Defined.

(** *** No handshake in the second variant *)

Lemma v2_receive_frame (message : Message) (ls : list Subscription)
    (w : World) :
  (forall s q, s ∈ ls -> sub_listener s <> Handshake q) ->
  subs (foldl (Variant2Host.deliver_message message) w ls) = subs w /\
  promises (foldl (Variant2Host.deliver_message message) w ls) = promises w /\
  (String.eqb (command message) "alert" = false ->
   foldl (Variant2Host.deliver_message message) w ls = w).
Proof.
  revert w. induction ls as [|s ls IH]; intros w Hfree; [done|].
  cbn [foldl].
  assert (Hs : Variant2Host.deliver_message message w s
               = match sub_listener s with
                 | HandleMessage => Variant2.handleMessage message w
                 | _ => w
                 end).
  { unfold Variant2Host.deliver_message.
    destruct (sub_listener s) as [?| |?|q] eqn:Hk; try done.
    exfalso. apply (Hfree s q); [apply list_elem_of_here|done]. }
  destruct (IH (Variant2Host.deliver_message message w s)) as (H1 & H2 & Hq).
  { intros s0 q Hin. apply Hfree. by apply list_elem_of_further. }
  split; [|split].
  - rewrite H1, Hs. unfold Variant2.handleMessage.
    destruct (sub_listener s); try done. by destruct (String.eqb _ _).
  - rewrite H2, Hs. unfold Variant2.handleMessage.
    destruct (sub_listener s); try done. by destruct (String.eqb _ _).
  - intros Hcmd. rewrite (Hq Hcmd), Hs. unfold Variant2.handleMessage.
    rewrite Hcmd. by destruct (sub_listener s).
Qed.

Lemma v2_receiveMessage_frame (h : nat) (message : Message) (w : World) :
  Variant2Host.handshake_free w ->
  subs (Variant2Host.receiveMessage h message w) = subs w /\
  promises (Variant2Host.receiveMessage h message w) = promises w /\
  (String.eqb (command message) "alert" = false ->
   Variant2Host.receiveMessage h message w = w).
Proof.
  intros Hfree. unfold Variant2Host.receiveMessage.
  destruct (live h w); [|done].
  apply v2_receive_frame. intros s q Hin.
  apply elem_of_listeners_on in Hin as [_ Hin]. by apply Hfree.
Qed.

Lemma v2_update_frame (self : nat) (w : World) :
  subs (Variant2.update self w) = subs w /\
  promises (Variant2.update self w) = promises w.
Proof.
  unfold Variant2.update. destruct (instances w !! self) as [i|]; [|done].
  done.
Qed.

Lemma v2_changeViewState_frame (h : nat) (v : bool) (w : World) :
  subs (Variant2Host.changeViewState h v w) = subs w /\
  promises (Variant2Host.changeViewState h v w) = promises w.
Proof.
  unfold Variant2Host.changeViewState. destruct (live h w); [|done].
  set (w1 := set_panels _ w).
  change (subs w) with (subs w1). change (promises w) with (promises w1).
  generalize (listeners_on h DidChangeViewState w1). generalize w1.
  clear w1. intros w1 ls. revert w1.
  induction ls as [|s ls IH]; intros w1; [done|].
  cbn [foldl]. destruct (IH (Variant2Host.deliver_viewState w1 s)) as [-> ->].
  unfold Variant2Host.deliver_viewState, Variant2.viewStateChanged.
  destruct (sub_listener s) as [?| |self|?]; try done.
  destruct (instances w1 !! self) as [i|]; [|done].
  destruct (panels w1 !! panel i) as [p|]; [|done].
  destruct (visible p); [apply v2_update_frame|done].
Qed.

Lemma v2_new_Webview_free (h : nat) (uri : Uri) (w : World) :
  Variant2Host.handshake_free w ->
  Variant2Host.handshake_free (snd (Variant2Host.new_Webview h uri w)) /\
  promises (snd (Variant2Host.new_Webview h uri w)) = promises w.
Proof.
  intros Hfree. rewrite v2_new_Webview_eq. split; [|done].
  intros s q Hin. cbn in Hin. apply elem_of_app in Hin as [Hin|Hin].
  - by apply Hfree.
  - repeat (apply elem_of_cons in Hin as [->|Hin]; [done|]).
    by apply elem_of_nil in Hin.
Qed.

Lemma v2_step_free (fuel : nat) (o : Variant2Host.Op) (w w' : World) :
  Variant2Host.step fuel o w = Some w' ->
  Variant2Host.handshake_free w ->
  Variant2Host.handshake_free w' /\ promises w' = promises w.
Proof.
  intros Hstep Hfree.
  destruct o as [uri col|uri a|h uri|self m|self|h m|h v|h];
    cbn [Variant2Host.step] in Hstep.
  - injection Hstep as <-. unfold Variant2Host.create, createWebviewPanel.
    by apply (v2_new_Webview_free _ uri
                (emit _ (set_panels _ w))).
  - injection Hstep as <-. unfold Variant2Host.render.
    destruct (currentPanel w) as [c|].
    + by destruct (instances w !! c).
    + unfold Variant2Host.create, createWebviewPanel.
      destruct (Variant2Host.new_Webview _ _ _) as [self w2] eqn:Hnew.
      pose proof (v2_new_Webview_free (length (panels w)) uri
                    (emit (EvCreatePanel (length (panels w)))
                       (set_panels (panels w ++
                          [{| viewType := Webview_viewType;
                              title := Variant2.Webview_title;
                              viewColumn :=
                                default ViewColumn_One
                                  (Some (default ViewColumn_One a));
                              options := Variant2.getWebviewOptions uri;
                              html := EmptyString; visible := true;
                              disposed := false |}]) w)) Hfree) as Hn.
      rewrite Hnew in Hn. exact Hn.
  - injection Hstep as <-. unfold Variant2Host.revive.
    destruct (Variant2Host.new_Webview h uri w) as [self w2] eqn:Hnew.
    pose proof (v2_new_Webview_free h uri w Hfree) as Hn.
    rewrite Hnew in Hn. exact Hn.
  - injection Hstep as <-. unfold Variant2Host.postMessage.
    by destruct (instances w !! self).
  - destruct (dispose fuel self w) as [r|] eqn:Hr; [|done].
    injection Hstep as <-.
    apply dispose_fades in Hr as [(Hp & Hs & _) _].
    split; [|done]. intros s q Hin. apply Hfree. by apply Hs.
  - injection Hstep as <-.
    destruct (v2_receiveMessage_frame h m w Hfree) as (Hs & Hp & _).
    split; [|done]. intros s q. rewrite Hs. apply Hfree.
  - injection Hstep as <-.
    destruct (v2_changeViewState_frame h v w) as [Hs Hp].
    split; [|done]. intros s q. rewrite Hs. apply Hfree.
  - apply closePanel_fades in Hstep as [(Hp & Hs & _) _].
    split; [|done]. intros s q Hin. apply Hfree. by apply Hs.
Qed.

(** The second variant has no handshake.  In every world it reaches from
    the start of the extension host, by whatever operations and events, no
    promise has been made and no listener waits for 'ready'; an inbound
    message whose command is not 'alert' (so 'ready' and 'error', the two
    commands the first variant gives a meaning to) changes nothing at all,
    not even the trace. *)
Theorem v2_no_handshake (fuel : nat) (ops : list Variant2Host.Op) (e : Env)
    (w' : World) (h : nat) (message : Message) :
  Variant2Host.run fuel ops (initial e) = Some w' ->
  promises w' = [] /\ Variant2Host.handshake_free w' /\
  (String.eqb (command message) "alert" = false ->
   Variant2Host.receiveMessage h message w' = w').
Proof.
  intros Hrun.
  assert (H : Variant2Host.handshake_free w' /\ promises w' = []).
  { assert (H0 : Variant2Host.handshake_free (initial e)
                 /\ promises (initial e) = []).
    { split; [|done]. intros s q Hin. by apply elem_of_nil in Hin. }
    revert Hrun H0. generalize (initial e).
    induction ops as [|o ops IH]; intros w Hrun [Hfree Hp].
    - by injection Hrun as <-.
    - cbn [Variant2Host.run] in Hrun.
      destruct (Variant2Host.step fuel o w) as [w1|] eqn:Hstep; [|done].
      apply (IH w1 Hrun).
      destruct (v2_step_free fuel o w w1 Hstep Hfree) as [Hf1 Hp1].
      split; [done|congruence]. }
  destruct H as [Hfree Hp]. split; [done|]. split; [done|].
  by apply v2_receiveMessage_frame.
Qed.

Lemma v2_no_handshake_witness :
  exists w', Variant2Host.run 5 Variant2Host.sample_ops (initial sample_env)
             = Some w' /\
             Variant2Host.receiveMessage 1
               {| command := "ready"; data := EmptyString |} w' = w'.
Proof.
  eexists. split; [vm_compute; reflexivity|].
  refine (proj2 (proj2 (v2_no_handshake 5 Variant2Host.sample_ops sample_env
                          _ 1 {| command := "ready"; data := EmptyString |}
                          _)) eq_refl).
  vm_compute. reflexivity.
Defined.

(** *** The nonce of the second variant *)

Lemma v2_nonce_loop_shape (rand : nat -> nat) (n k : nat) :
  (forall j, j < n -> rand (k + j) < 62) ->
  String.length (Variant2.nonce_loop rand n k EmptyString) = n /\
  forall j, j < n ->
    String.get j (Variant2.nonce_loop rand n k EmptyString)
    = String.get (rand (k + j)) Variant2.possible.
Proof.
  revert k. induction n as [|n IH]; intros k Hlt.
  - split; [done|]. intros j Hj. lia.
  - rewrite Variant2Facts.nonce_loop_S.
    assert (H0 : rand k < 62).
    { specialize (Hlt 0). rewrite Nat.add_0_r in Hlt. apply Hlt. lia. }
    destruct (Variant2Facts.charAt_possible _ H0) as (c & Hc & Hic).
    rewrite Hc, append_cons, append_nil_l.
    destruct (IH (S k)) as [Hlen Hget].
    { intros j Hj. rewrite Nat.add_succ_comm. apply Hlt. lia. }
    split; [cbn [String.length]; by rewrite Hlen|].
    intros [|j] Hj.
    + rewrite Nat.add_0_r. apply index_of_get in Hic. by rewrite Hic.
    + cbn [String.get]. rewrite Hget by lia. by rewrite Nat.add_succ_comm.
Qed.

(** [generateNonce()] of the second variant returns 32 characters, the
    j-th being the character of the alphabet at the index of the j-th draw
    of this call, none of them an apostrophe, a double quote or a
    less-than sign; the call consumes exactly 32 draws of the random
    source.  The bound on the indices is what [Math.floor(Math.random() *
    possible.length)] guarantees. *)
Theorem v2_nonce_shape (w : World) :
  (forall j, j < 32 -> random_index (env w) (randomCalls w + j) < 62) ->
  let nonce := fst (Variant2.generateNonce w) in
  String.length nonce = 32 /\
  (forall j, j < 32 ->
     String.get j nonce
     = String.get (random_index (env w) (randomCalls w + j)) Variant2.possible) /\
  plain nonce = true /\
  randomCalls (snd (Variant2.generateNonce w)) = 32 + randomCalls w.
Proof.
  intros Hlt nonce. unfold nonce, Variant2.generateNonce. cbn [fst snd].
  destruct (v2_nonce_loop_shape (random_index (env w)) 32 (randomCalls w) Hlt)
    as [Hlen Hget].
  split; [exact Hlen|]. split; [exact Hget|].
  split; [apply Variant2Facts.nonce_loop_plain|done].
Qed.

Lemma v2_nonce_shape_witness :
  String.length (fst (Variant2.generateNonce (initial sample_env))) = 32.
Proof.
  refine (proj1 (v2_nonce_shape (initial sample_env) _)).
  intros j _. change ((7 * (0 + j) + 3) mod 62 < 62).
  apply Nat.mod_upper_bound. lia.
Defined.

(** ** Joining paths *)

Lemma path_segments_app (x y : string) :
  path_segments (x +:+ String slash y) = path_segments x ++ path_segments y.
Proof.
  induction x as [|c x IH].
  - rewrite append_nil_l. reflexivity.
  - rewrite append_cons. cbn [path_segments]. rewrite IH.
    destruct (Ascii.eqb c slash); [done|].
    destruct (path_segments x) as [|seg rest] eqn:Hx; [|done].
    by destruct x; [|cbn in Hx; destruct (Ascii.eqb _ _), (path_segments _)].
Qed.

Lemma path_segments_name (a : string) :
  index_of slash a = None -> path_segments a = [a].
Proof.
  induction a as [|c a IH]; [done|]. cbn.
  destruct (Ascii.eqb c slash); [done|].
  destruct (index_of slash a); [done|]. intros _. by rewrite IH.
Qed.

Lemma ends_with_slash_name (a : string) :
  index_of slash a = None -> ends_with_slash a = false.
Proof.
  induction a as [|c a IH]; [done|]. cbn.
  destruct (Ascii.eqb c slash); [done|].
  destruct (index_of slash a); [done|]. intros _.
  destruct a; [done|]. by apply IH.
Qed.

Lemma ends_with_slash_app (x y : string) :
  y <> EmptyString -> ends_with_slash (x +:+ y) = ends_with_slash y.
Proof.
  intros Hy. induction x as [|c x IH]; [done|].
  rewrite append_cons. cbn [ends_with_slash].
  destruct (x +:+ y) eqn:Hxy; [|done].
  destruct x; [by rewrite append_nil_l in Hxy|done].
Qed.

Lemma plain_name_spec (a : string) :
  plain_name a = true ->
  a <> EmptyString /\ index_of slash a = None /\
  forall (f : bool) (stack : list string), push_segment f stack a = a :: stack.
Proof.
  unfold plain_name, push_segment. intros H.
  repeat (apply andb_prop in H as [H ?]).
  destruct (String.eqb a "") eqn:He0; [done|].
  destruct (String.eqb a ".") eqn:He1; [done|].
  destruct (String.eqb a "..") eqn:He2; [done|].
  destruct (index_of slash a); [done|].
  split; [by intros ->|]. done.
Qed.

Lemma join_segments_snoc (l : list string) (x : string) :
  l <> [] -> join_segments (l ++ [x]) = join_segments l +:+ "/" +:+ x.
Proof.
  destruct l as [|seg rest]; [done|]. intros _. cbn [app join_segments].
  by rewrite foldl_app.
Qed.

Lemma join_segments_last (l : list string) (x : string) :
  x <> EmptyString -> join_segments (l ++ [x]) <> EmptyString.
Proof.
  intros Hx. destruct l as [|seg rest]; [done|].
  rewrite join_segments_snoc by done.
  destruct (join_segments (seg :: rest)); [by rewrite append_nil_l|done].
Qed.

Lemma posix_normalize_body (path body : string) :
  path <> EmptyString ->
  join_segments
    (rev (foldl (push_segment (negb (starts_with_slash path))) []
            (path_segments path))) = body ->
  body <> EmptyString ->
  posix_normalize path
  = (if starts_with_slash path then "/" else EmptyString) +:+ body +:+
    (if ends_with_slash path then "/" else EmptyString).
Proof.
  intros Hp Hbody Hne. destruct path as [|c path]; [done|].
  unfold posix_normalize. cbv zeta. rewrite Hbody. by destruct body.
Qed.

(** A name joined to a directory is that name inside the directory: for
    every base with a path, however it is written (doubled or trailing
    separators, [.] and [..] segments, relative or absolute), the path of
    [joinPath(base, dir, name)] is the path of [joinPath(base, dir)]
    followed by the separator and the name. *)
Lemma joinPath_child (base dir name : string) :
  base <> EmptyString -> plain_name dir = true -> plain_name name = true ->
  joinPath base [dir; name] = joinPath base [dir] +:+ "/" +:+ name.
Proof.
  intros Hb Hdir Hname.
  apply plain_name_spec in Hdir as (Hd0 & Hds & Hdp).
  apply plain_name_spec in Hname as (Hn0 & Hns & Hnp).
  unfold joinPath, posix_join.
  rewrite !filter_cons_True, filter_nil by done.
  cbn [join_segments foldl].
  set (p1 := base +:+ "/" +:+ dir).
  assert (Hp1 : p1 <> EmptyString).
  { subst p1. destruct base; [done|]. by rewrite append_cons. }
  assert (Hs1 : path_segments p1 = path_segments base ++ [dir]).
  { subst p1. change ("/" +:+ dir) with (String slash dir).
    by rewrite path_segments_app, (path_segments_name dir). }
  assert (He1 : ends_with_slash p1 = false).
  { subst p1. rewrite ends_with_slash_app by done.
    change ("/" +:+ dir) with (String slash dir).
    cbn [ends_with_slash]. destruct dir; [done|].
    by apply ends_with_slash_name. }
  assert (Hst : starts_with_slash (p1 +:+ "/" +:+ name) = starts_with_slash p1).
  { destruct p1; [done|]. by rewrite append_cons. }
  set (stack := foldl (push_segment (negb (starts_with_slash p1))) []
                  (path_segments base)).
  assert (Hb1 : join_segments
                  (rev (foldl (push_segment (negb (starts_with_slash p1))) []
                          (path_segments p1)))
                = join_segments (rev stack ++ [dir])).
  { rewrite Hs1, foldl_app. cbn [foldl]. by rewrite Hdp. }
  assert (Hb2 : join_segments
                  (rev (foldl
                          (push_segment
                             (negb (starts_with_slash (p1 +:+ "/" +:+ name))))
                          [] (path_segments (p1 +:+ "/" +:+ name))))
                = join_segments (rev stack ++ [dir]) +:+ "/" +:+ name).
  { rewrite Hst. change ("/" +:+ name) with (String slash name).
    rewrite path_segments_app, (path_segments_name name) by done.
    rewrite Hs1, !foldl_app. cbn [foldl]. rewrite Hdp, Hnp.
    cbn [rev]. fold stack.
    rewrite join_segments_snoc; [done|].
    by destruct (rev stack). }
  rewrite (posix_normalize_body p1 _ Hp1 Hb1) by (by apply join_segments_last).
  rewrite (posix_normalize_body (p1 +:+ "/" +:+ name) _) with (2 := Hb2).
  - rewrite Hst, He1, ends_with_slash_app by done.
    change ("/" +:+ name) with (String slash name).
    assert (Hen : ends_with_slash (String slash name) = false).
    { cbn [ends_with_slash]. destruct name; [done|].
      by apply ends_with_slash_name. }
    rewrite Hen, !append_nil_r, !append_assoc. done.
  - destruct p1; [done|]. by rewrite append_cons.
  - intros Hempty.
    destruct (join_segments (rev stack ++ [dir])); [|done].
    by rewrite append_nil_l in Hempty.
Qed.

(** ** The resources of the documents *)

#[local] Transparent html_template Variant2.html_template.

Lemma after_src_skip (s t : string) :
  index_of quote s = None -> after src_marker (s +:+ t) = after src_marker t.
Proof.
  intros Hq. apply (after_skip _ _ _ quote 0); [reflexivity|done|].
  intros k Hk. lia.
Qed.

Lemma after_link_skip (s t : string) :
  index_of less_than s = None ->
  after link_marker (s +:+ t) = after link_marker t.
Proof.
  intros Hlt. apply (after_skip _ _ _ less_than 0); [reflexivity|done|].
  intros k Hk. lia.
Qed.

Lemma after_src_seg2 (y : string) :
  after src_marker (html_seg2 +:+ y) = Some y.
Proof. vm_compute. reflexivity. Qed.

Lemma html_seg3_head : html_seg3 = String quote (sdrop 1 html_seg3).
Proof. reflexivity. Qed.

Lemma after_link_seg0 (y : string) :
  after link_marker (html_seg0 +:+ y) = after link_marker y.
Proof. vm_compute. reflexivity. Qed.

Lemma after_link_seg1 (y : string) :
  after link_marker (html_seg1 +:+ y) = after link_marker y.
Proof. vm_compute. reflexivity. Qed.

Lemma after_link_seg2 (y : string) :
  after link_marker (html_seg2 +:+ y) = after link_marker y.
Proof. vm_compute. reflexivity. Qed.

Lemma after_link_seg3 : after link_marker html_seg3 = None.
Proof. vm_compute. reflexivity. Qed.

(** The module script tag of the document of the first variant loads the
    file [webview.js] directly inside the one directory that the options
    of [getOptions] let the surface read: whatever the path of the
    extension's location looks like, the path handed to [asWebviewUri] is
    the path of that directory followed by the separator and the file
    name.  The document has no stylesheet link. *)
Theorem script_under_root (i : Webview) (w : World) :
  extensionUri i <> EmptyString ->
  plain (fst (generateNonce w)) = true ->
  attribute_safe (getWebviewUri i ["out"; "webview.js"] w) ->
  let doc := fst (getHtmlForWebview i w) in
  exists root,
    localResourceRoots (getOptions (extensionUri i)) = Some [root] /\
    script_src doc = Some (asWebviewUri (env w) (root +:+ "/webview.js")) /\
    nth_link 0 doc = None.
Proof.
  intros Hext Hn Hsafe doc. exists (joinPath (extensionUri i) ["out"]).
  split; [reflexivity|].
  pose proof (plain_index_of _ Hn) as (_ & Hq & Hlt).
  unfold generateNonce in Hq, Hlt. cbn [fst] in Hq, Hlt.
  destruct Hsafe as [Hsq Hslt]. unfold getWebviewUri in Hsq, Hslt.
  change (joinPath (extensionUri i) ["out"] +:+ "/webview.js")
    with (joinPath (extensionUri i) ["out"] +:+ "/" +:+ "webview.js").
  rewrite <- (joinPath_child (extensionUri i) "out" "webview.js") by done.
  unfold doc, getHtmlForWebview, generateNonce, getWebviewUri. cbn [fst].
  unfold script_src, html_template. split.
  - rewrite after_script_seg0, after_script_skip by done.
    rewrite after_script_seg1, after_src_skip by done.
    rewrite after_src_seg2, html_seg3_head. by apply up_to_append.
  - cbn [nth_link].
    rewrite after_link_seg0, after_link_skip by done.
    rewrite after_link_seg1, after_link_skip by done.
    rewrite after_link_seg2, after_link_skip by done.
    by rewrite after_link_seg3.
Qed.

Lemma script_under_root_witness :
  script_src (fst (getHtmlForWebview
                     {| panel := 0; extensionUri := "/ext//sub/../";
                        disposables := [] |}
                     (initial sample_env)))
  = Some "https://file+.vscode-resource.vscode-cdn.net/ext/out/webview.js".
Proof.
  destruct (script_under_root
              {| panel := 0; extensionUri := "/ext//sub/../";
                 disposables := [] |}
              (initial sample_env)
              ltac:(discriminate)
              ltac:(vm_compute; reflexivity)
              ltac:(split; vm_compute; reflexivity))
    as (root & Hroot & Hsrc & _).
  injection Hroot as <-. exact Hsrc.
Defined.

(** *** Second variant *)

Lemma v2_after_src_seg6 (y : string) :
  after src_marker (Variant2.html_seg6 +:+ y) = Some y.
Proof. vm_compute. reflexivity. Qed.

Lemma v2_html_seg7_head :
  Variant2.html_seg7 = String quote (sdrop 1 Variant2.html_seg7).
Proof. reflexivity. Qed.

Lemma v2_html_seg4_head (y : string) :
  Variant2.html_seg4 +:+ y = String quote (sdrop 1 Variant2.html_seg4 +:+ y).
Proof. reflexivity. Qed.

Lemma v2_html_seg5_head (y : string) :
  Variant2.html_seg5 +:+ y = String quote (sdrop 1 Variant2.html_seg5 +:+ y).
Proof. reflexivity. Qed.

Lemma v2_after_link_seg0 (y : string) :
  after link_marker (Variant2.html_seg0 +:+ y) = after link_marker y.
Proof. vm_compute. reflexivity. Qed.

Lemma v2_after_link_seg1 (y : string) :
  after link_marker (Variant2.html_seg1 +:+ y) = after link_marker y.
Proof. vm_compute. reflexivity. Qed.

Lemma v2_after_link_seg2 (y : string) :
  after link_marker (Variant2.html_seg2 +:+ y) = after link_marker y.
Proof. vm_compute. reflexivity. Qed.

Lemma v2_after_link_seg3 (y : string) :
  after link_marker (Variant2.html_seg3 +:+ y) = Some y.
Proof. vm_compute. reflexivity. Qed.

Lemma v2_after_link_seg4 (y : string) :
  after link_marker (Variant2.html_seg4 +:+ y) = Some y.
Proof. vm_compute. reflexivity. Qed.

Lemma v2_after_link_seg5 (y : string) :
  after link_marker (Variant2.html_seg5 +:+ y) = after link_marker y.
Proof. vm_compute. reflexivity. Qed.

Lemma v2_after_link_seg6 (y : string) :
  after link_marker (Variant2.html_seg6 +:+ y) = after link_marker y.
Proof. vm_compute. reflexivity. Qed.

Lemma v2_after_link_seg7 : after link_marker Variant2.html_seg7 = None.
Proof. vm_compute. reflexivity. Qed.

(** The document of the second variant has exactly two stylesheet links,
    [reset.css] and then [vscode.css], and its module script tag loads
    [index.js].  Each of the three lies directly inside the one directory
    that the options of [getWebviewOptions] let the surface read: whatever
    the path of the extension's location looks like, the path handed to
    [asWebviewUri] is the path of that directory followed by the separator
    and the file name. *)
Theorem v2_resources_under_root (i : Webview) (w : World) :
  extensionUri i <> EmptyString ->
  index_of less_than (cspSource (env w)) = None ->
  attribute_safe (getWebviewUri i ["media"; "reset.css"] w) ->
  attribute_safe (getWebviewUri i ["media"; "vscode.css"] w) ->
  attribute_safe (getWebviewUri i ["media"; "index.js"] w) ->
  let doc := fst (Variant2.getHtmlForWebview i w) in
  exists root,
    localResourceRoots (Variant2.getWebviewOptions (extensionUri i))
    = Some [root] /\
    nth_link 0 doc = Some (asWebviewUri (env w) (root +:+ "/reset.css")) /\
    nth_link 1 doc = Some (asWebviewUri (env w) (root +:+ "/vscode.css")) /\
    nth_link 2 doc = None /\
    script_src doc = Some (asWebviewUri (env w) (root +:+ "/index.js")).
Proof.
  intros Hext Hcsp [Hrq Hrlt] [Hsq Hslt] [Hjq Hjlt] doc.
  exists (joinPath (extensionUri i) ["media"]). split; [reflexivity|].
  unfold getWebviewUri in *.
  change (joinPath (extensionUri i) ["media"] +:+ "/reset.css")
    with (joinPath (extensionUri i) ["media"] +:+ "/" +:+ "reset.css").
  change (joinPath (extensionUri i) ["media"] +:+ "/vscode.css")
    with (joinPath (extensionUri i) ["media"] +:+ "/" +:+ "vscode.css").
  change (joinPath (extensionUri i) ["media"] +:+ "/index.js")
    with (joinPath (extensionUri i) ["media"] +:+ "/" +:+ "index.js").
  rewrite <- (joinPath_child (extensionUri i) "media" "reset.css") by done.
  rewrite <- (joinPath_child (extensionUri i) "media" "vscode.css") by done.
  rewrite <- (joinPath_child (extensionUri i) "media" "index.js") by done.
  pose proof (plain_index_of _
                (Variant2Facts.nonce_loop_plain (random_index (env w)) 32
                   (randomCalls w))) as (_ & Hnq & Hnlt).
  unfold doc, Variant2.getHtmlForWebview, Variant2.generateNonce,
    getWebviewUri. cbn [fst].
  unfold Variant2.html_template.
  assert (Hfirst : forall y,
            after link_marker
              (Variant2.html_seg0 +:+ cspSource (env w) +:+
               Variant2.html_seg1 +:+ cspSource (env w) +:+
               Variant2.html_seg2 +:+
               Variant2.nonce_loop (random_index (env w)) 32 (randomCalls w)
                 EmptyString +:+
               Variant2.html_seg3 +:+ y) = Some y).
  { intros y.
    rewrite v2_after_link_seg0, after_link_skip by done.
    rewrite v2_after_link_seg1, after_link_skip by done.
    rewrite v2_after_link_seg2, after_link_skip by done.
    apply v2_after_link_seg3. }
  split; [|split; [|split]].
  - cbn [nth_link]. rewrite Hfirst, v2_html_seg4_head. by apply up_to_append.
  - cbn [nth_link]. rewrite Hfirst, after_link_skip by done.
    rewrite v2_after_link_seg4, v2_html_seg5_head. by apply up_to_append.
  - cbn [nth_link]. rewrite Hfirst, after_link_skip by done.
    rewrite v2_after_link_seg4, after_link_skip by done.
    rewrite v2_after_link_seg5, after_link_skip by done.
    rewrite v2_after_link_seg6, after_link_skip by done.
    by rewrite v2_after_link_seg7.
  - unfold script_src.
    rewrite Variant2Facts.v2_after_script_seg0, after_script_skip,
      Variant2Facts.v2_after_script_seg1 by done.
    rewrite after_script_skip, Variant2Facts.v2_after_script_seg2 by done.
    rewrite after_script_skip, Variant2Facts.v2_after_script_seg3 by done.
    rewrite after_script_skip, Variant2Facts.v2_after_script_seg4 by done.
    rewrite after_script_skip, Variant2Facts.v2_after_script_seg5 by done.
    rewrite after_src_skip, v2_after_src_seg6 by done.
    rewrite v2_html_seg7_head. by apply up_to_append.
Qed.

Lemma v2_resources_under_root_witness :
  let doc := fst (Variant2.getHtmlForWebview
                    {| panel := 0; extensionUri := "/ext//sub/../";
                       disposables := [] |}
                    (initial sample_env)) in
  nth_link 1 doc
  = Some "https://file+.vscode-resource.vscode-cdn.net/ext/media/vscode.css"
  /\ nth_link 2 doc = None.
Proof.
  destruct (v2_resources_under_root
              {| panel := 0; extensionUri := "/ext//sub/../";
                 disposables := [] |}
              (initial sample_env)
              ltac:(discriminate)
              ltac:(vm_compute; reflexivity)
              ltac:(split; vm_compute; reflexivity)
              ltac:(split; vm_compute; reflexivity)
              ltac:(split; vm_compute; reflexivity))
    as (root & Hroot & _ & Hstyle & Hnone & _).
  injection Hroot as <-. split; [exact Hstyle | exact Hnone].
Defined.

(** ** Instances after their disposal *)





